(** * Lightweight fine-tuning notebooks: a model of the two scripts

    The repository holds two notebooks.  [Part000] is the ModernBERT / DoRA
    notebook on the PoliticalTweets dataset (src/unnamed/part_000) and
    [Abhishek] is the DistilBERT notebook on sms_spam
    (src/LightweightFineTuning-Abhishek.ipynb).  Both are straight-line
    sequences of calls into [datasets], [transformers], [peft], [numpy] and
    [sklearn].

    The notebooks' own code (the cells, [tokenize_function],
    [evaluate_model], [compute_metrics], the constants and every argument
    passed to a library) is transcribed statement by statement.  The
    libraries are not part of the repository; their data-level contracts
    (column checks, truncation, padding, argmax, averaging, split sizes) are
    written out as small executable functions, and everything numerical
    (weights, forward pass, training, tokenizer vocabulary, random
    permutations, hub contents, outside failures) is left to a [Library]
    record that the theorems quantify over. *)

From Stdlib Require Import ZArith QArith Qround Lia Lqa.
From Stdlib Require SpecFloat.
From stdpp Require Import gmap strings list sorting pretty.

Open Scope string_scope.
Open Scope list_scope.

(** ** Python exceptions and results *)

Inductive exn :=
| ValueError (msg : string)
| KeyError (key : string)
| TypeError (msg : string)
| NameError (name : string)
| RuntimeError (msg : string)
| IndexError (msg : string)
| AttributeError (msg : string)
| ZeroDivisionError (msg : string)
| OSError (msg : string).

Inductive result (A : Type) :=
| Ok (a : A)
| Raise (e : exn).
Arguments Ok {A} a.
Arguments Raise {A} e.

Global Instance result_ret : MRet result := fun A a => Ok a.
Global Instance result_bind : MBind result := fun A B f m =>
  match m with
  | Ok a => f a
  | Raise e => Raise e
  end.

Global Instance result_fmap : FMap result := fun A B f m =>
  match m with
  | Ok a => Ok (f a)
  | Raise e => Raise e
  end.

Definition is_Ok {A} (r : result A) : bool :=
  match r with Ok _ => true | Raise _ => false end.

(** [d[k]] on a Python dict with string keys. *)
Definition getitem {V} (d : gmap string V) (k : string) : result V :=
  match d !! k with
  | Some v => Ok v
  | None => Raise (KeyError k)
  end.

(** [d[k]] on a dict with integer keys, such as [id2label]. *)
Definition getitem_int {V} (d : gmap Z V) (k : Z) : result V :=
  match d !! k with
  | Some v => Ok v
  | None => Raise (KeyError (pretty k))
  end.

(** ** numpy: floats, argmax, mean *)

(** Logits and metrics are floats in the notebooks.  They are modelled by
    exact rationals, with the one special value the code can produce from
    integer data, [nan] (the mean of an empty array).  A double is the
    nearest representable number to the exact result of each single
    operation, so what is stated of a metric below is either an order
    relation that rounding keeps, or its value as one quotient of two
    integer counts (where the double is that quotient, rounded once), or a
    value that is computed without rounding. *)
Inductive np_float :=
| Num (q : Q)
| NaN.

Definition Qltb (x y : Q) : bool := negb (Qle_bool y x).

(** Index of the first maximum of [row], scanning from position [i] with the
    best value [best] found at [best_i]. *)
Fixpoint argmax_from (best : Q) (best_i i : nat) (row : list Q) : nat :=
  match row with
  | [] => best_i
  | x :: row' =>
      if Qltb best x then argmax_from x i (S i) row'
      else argmax_from best best_i (S i) row'
  end.

Definition np_argmax (row : list Q) : result Z :=
  match row with
  | [] => Raise (ValueError "attempt to get argmax of an empty sequence")
  | x :: row' => Ok (Z.of_nat (argmax_from x 0 1 row'))
  end.

(** [np.argmax(a, axis=1)] on a two-dimensional array given by its rows. *)
Fixpoint np_argmax_axis1 (a : list (list Q)) : result (list Z) :=
  match a with
  | [] => Ok []
  | row :: a' =>
      i ← np_argmax row;
      rest ← np_argmax_axis1 a';
      Ok (i :: rest)
  end.

Definition Qsum (l : list Q) : Q := foldr Qplus 0%Q l.

Definition np_mean (l : list Q) : np_float :=
  match l with
  | [] => NaN
  | _ => Num (Qsum l / inject_Z (Z.of_nat (length l)))
  end.

Definition bool_to_Q (b : bool) : Q := if b then 1%Q else 0%Q.

(** [(x == y)] on two integer arrays of the same shape. *)
Definition np_eq (x y : list Z) : list bool := zip_with Z.eqb x y.

(** ** sklearn: macro precision, recall and F1 *)

Definition count_if {A} (f : A → bool) (l : list A) : nat :=
  length (filter (λ a, f a = true) l).

(** [_prf_divide]: elementwise division where a zero denominator yields
    [zero_division]. *)
Definition prf_divide (num den : nat) (zero_division : Q) : Q :=
  if Nat.eqb den 0 then zero_division
  else (inject_Z (Z.of_nat num) / inject_Z (Z.of_nat den))%Q.

(** [unique_labels(y_true, y_pred)]: the sorted distinct values. *)
Definition unique_labels (y_true y_pred : list Z) : list Z :=
  merge_sort Z.le (remove_dups (y_true ++ y_pred)).

Definition true_positives (y_true y_pred : list Z) (c : Z) : nat :=
  count_if (λ p : Z * Z, Z.eqb p.1 c && Z.eqb p.2 c) (zip y_true y_pred).

Definition class_precision (zd : Q) (y_true y_pred : list Z) (c : Z) : Q :=
  prf_divide (true_positives y_true y_pred c) (count_if (Z.eqb c) y_pred) zd.

Definition class_recall (zd : Q) (y_true y_pred : list Z) (c : Z) : Q :=
  prf_divide (true_positives y_true y_pred c) (count_if (Z.eqb c) y_true) zd.

Definition class_f1 (zd : Q) (y_true y_pred : list Z) (c : Z) : Q :=
  prf_divide (2 * true_positives y_true y_pred c)
             (count_if (Z.eqb c) y_true + count_if (Z.eqb c) y_pred) zd.

(** [precision_recall_fscore_support(y_true, y_pred, average="macro",
    zero_division=zd)]; the fourth component (support) is [None] for an
    averaged result and is dropped. *)
Definition precision_recall_fscore_support_macro
    (y_true y_pred : list Z) (zd : Q) : result (np_float * np_float * np_float) :=
  if negb (Nat.eqb (length y_true) (length y_pred)) then
    Raise (ValueError "Found input variables with inconsistent numbers of samples")
  else
    let labels := unique_labels y_true y_pred in
    Ok (np_mean (class_precision zd y_true y_pred <$> labels),
        np_mean (class_recall zd y_true y_pred <$> labels),
        np_mean (class_f1 zd y_true y_pred <$> labels)).

(** ** compute_metrics (part_000, cell 7) *)

Record EvalPrediction := {
  predictions : list (list Q);
  label_ids : list Z
}.

Record Metrics := {
  accuracy : np_float;
  macro_precision : np_float;
  macro_recall : np_float;
  macro_f1 : np_float
}.

Definition compute_metrics (p : EvalPrediction) : result Metrics :=
  preds ← np_argmax_axis1 (predictions p);
  let labels := label_ids p in
  '(precision, recall, f1) ← precision_recall_fscore_support_macro labels preds 0;
  let accuracy := np_mean (bool_to_Q <$> np_eq preds labels) in
  Ok {| accuracy := accuracy;
        macro_precision := precision;
        macro_recall := recall;
        macro_f1 := f1 |}.

(** ** datasets: tables, [train_test_split], [map] *)

(** One value of a dataset column. *)
Inductive cell :=
| CStr (s : string)
| CInt (z : Z)
| CIds (ids : list Z).

(** A [Dataset] is a table stored by columns; a batch handed to a mapped
    function and a row returned by indexing are Python dicts. *)
Record Dataset := {
  columns : gmap string (list cell);
  num_rows : nat
}.

(** A [DatasetDict] is a Python dict of splits; iteration follows insertion
    order, so it is kept as an association list. *)
Definition DatasetDict := list (string * Dataset).

Fixpoint assoc_get {V} (d : list (string * V)) (k : string) : result V :=
  match d with
  | [] => Raise (KeyError k)
  | (k', v) :: d' => if String.eqb k' k then Ok v else assoc_get d' k
  end.

(** [d[k] = v] on a dict kept in insertion order. *)
Fixpoint assoc_set {V} (d : list (string * V)) (k : string) (v : V) : list (string * V) :=
  match d with
  | [] => [(k, v)]
  | (k', v') :: d' => if String.eqb k' k then (k, v) :: d' else (k', v') :: assoc_set d' k v
  end.

(** [ds[i]]: the row at position [i] as a dict. *)
Definition Dataset_row (ds : Dataset) (i : nat) : result (gmap string cell) :=
  if Nat.ltb i (num_rows ds) then Ok (omap (λ col : list cell, col !! i) (columns ds))
  else Raise (ValueError "Index out of range").

(** [ds.select(indices)]. *)
Definition Dataset_select (indices : list nat) (ds : Dataset) : Dataset :=
  {| columns := (λ col : list cell, omap (λ i, col !! i) indices) <$> columns ds;
     num_rows := length indices |}.

(** [ds.train_test_split(test_size, seed)] with a float [test_size], the
    default [shuffle=True] and no [train_size].  An empty table is handed
    back as both parts before anything is checked.  [permutation seed n] is
    the permutation drawn by a generator seeded with [seed]; without a seed
    the generator is seeded from the run's [entropy]. *)
Definition train_test_split
    (permutation : Z → nat → list nat) (entropy : Z)
    (test_size : Q) (seed : option Z) (ds : Dataset) : result DatasetDict :=
  let n_samples := num_rows ds in
  if Nat.eqb n_samples 0 then
    Ok [("train", ds); ("test", ds)]
  else if Qle_bool test_size 0 || Qle_bool 1 test_size then
    Raise (ValueError "test_size should be a float in the (0, 1) range")
  else
    let n_test := Z.to_nat (Qceiling (test_size * inject_Z (Z.of_nat n_samples))) in
    let n_train := n_samples - n_test in
    if Nat.eqb n_train 0 then
      Raise (ValueError "the resulting train set will be empty")
    else
      let perm := permutation (default entropy seed) n_samples in
      Ok [("train", Dataset_select (take n_train (drop n_test perm)) ds);
          ("test", Dataset_select (take n_test perm) ds)].

Definition batch_size_default : nat := 1000.

(** The rows [start, start + batch_size_default) of every column. *)
Definition Dataset_batch (ds : Dataset) (start : nat) : gmap string (list cell) :=
  (λ col : list cell, take batch_size_default (drop start col)) <$> columns ds.

Definition batch_starts (n : nat) : list nat :=
  (λ i, i * batch_size_default) <$> seq 0 ((n + batch_size_default - 1) / batch_size_default).

Definition remove_keys {V} (ks : list string) (d : gmap string V) : gmap string V :=
  foldr delete d ks.

Definition concat_columns (a b : gmap string (list cell)) : gmap string (list cell) :=
  union_with (λ x y, Some (x ++ y)) a b.

Fixpoint map_batches (fn : gmap string (list cell) → result (gmap string (list cell)))
    (remove_columns : list string) (batches : list (gmap string (list cell)))
    : result (gmap string (list cell)) :=
  match batches with
  | [] => Ok ∅
  | b :: bs =>
      out ← fn b;
      rest ← map_batches fn remove_columns bs;
      Ok (concat_columns (out ∪ remove_keys remove_columns b) rest)
  end.

(** [ds.map(fn, batched=True, remove_columns=...)].  The columns to remove
    must all exist; [fn] sees the unmodified batch, its output columns are
    added and the listed columns dropped. *)
Definition Dataset_map (fn : gmap string (list cell) → result (gmap string (list cell)))
    (remove_columns : list string) (ds : Dataset) : result Dataset :=
  match filter (λ c, columns ds !! c = None) remove_columns with
  | _ :: _ => Raise (ValueError "Column to remove not in the dataset")
  | [] =>
      if Nat.eqb (num_rows ds) 0 then
        Ok {| columns := remove_keys remove_columns (columns ds); num_rows := 0 |}
      else
        cols ← map_batches fn remove_columns (Dataset_batch ds <$> batch_starts (num_rows ds));
        Ok {| columns := cols; num_rows := num_rows ds |}
  end.

(** [dataset_dict.map(...)]: every split in turn. *)
Fixpoint DatasetDict_map (fn : gmap string (list cell) → result (gmap string (list cell)))
    (remove_columns : list string) (dd : DatasetDict) : result DatasetDict :=
  match dd with
  | [] => Ok []
  | (k, ds) :: dd' =>
      ds' ← Dataset_map fn remove_columns ds;
      rest ← DatasetDict_map fn remove_columns dd';
      Ok ((k, ds') :: rest)
  end.

(** ** transformers: tokenizer call and padding collator *)

Record Tokenizer := {
  tokenize_ids : string → list Z;   (* the vocabulary: text to content token ids *)
  cls_token_id : Z;
  sep_token_id : Z;
  pad_token_id : Z;
  model_max_length : nat
}.

Inductive padding_strategy :=
| DoNotPad
| Longest
| MaxLength.

Record BatchEncoding := {
  input_ids : list (list Z);
  attention_mask : list (list Z)
}.

(** One text: the content is cut so that, with the two special tokens, the
    sequence has at most [limit] entries. *)
Definition encode_one (tok : Tokenizer) (truncation : bool) (limit : nat)
    (text : string) : list Z :=
  let content := tokenize_ids tok text in
  let content := if truncation then take (limit - 2) content else content in
  cls_token_id tok :: content ++ [sep_token_id tok].

Definition max_len (rows : list (list Z)) : nat :=
  foldr Nat.max 0 (length <$> rows).

Definition pad_row (fill : Z) (width : nat) (row : list Z) : list Z :=
  row ++ replicate (width - length row) fill.

(** [tokenizer.pad]: right-pad ids with the pad token and masks with 0. *)
Definition pad_encoding (tok : Tokenizer) (width : nat) (enc : BatchEncoding)
    : BatchEncoding :=
  {| input_ids := pad_row (pad_token_id tok) width <$> input_ids enc;
     attention_mask := pad_row 0 width <$> attention_mask enc |}.

(** The encoding of a batch of texts; a missing [max_length] means the
    tokenizer's [model_max_length]. *)
Definition batch_encode_plus (tok : Tokenizer) (texts : list string)
    (truncation : bool) (max_length : option nat) (padding : padding_strategy)
    : BatchEncoding :=
  let limit := default (model_max_length tok) max_length in
  let ids := encode_one tok truncation limit <$> texts in
  let enc := {| input_ids := ids;
                attention_mask := (λ r : list Z, replicate (length r) 1%Z) <$> ids |} in
  match padding with
  | DoNotPad => enc
  | Longest => pad_encoding tok (max_len ids) enc
  | MaxLength => pad_encoding tok limit enc
  end.

(** [tokenizer(texts, truncation=..., max_length=..., padding=...)] on a
    list of texts.  The fast tokenizers of both notebooks read the keys of
    the result off the first encoding, so an empty list raises. *)
Definition tokenizer_call (tok : Tokenizer) (texts : list string)
    (truncation : bool) (max_length : option nat) (padding : padding_strategy)
    : result BatchEncoding :=
  match texts with
  | [] => Raise (IndexError "list index out of range")
  | _ :: _ => Ok (batch_encode_plus tok texts truncation max_length padding)
  end.

(** [DataCollatorWithPadding(tokenizer=tok)] applied to one batch of
    features: [tokenizer.pad] with the default [padding=True] (longest). *)
Definition DataCollatorWithPadding (tok : Tokenizer) (features : BatchEncoding)
    : BatchEncoding :=
  pad_encoding tok (max_len (input_ids features)) features.

(** What the tokenizer accepts as a batch of texts.  Its own check looks
    at the first entry only: a string passes, and so does an empty list
    (taken for a pretokenized example); any other first entry is refused
    with a [ValueError]. *)
Definition is_valid_text_input (col : list cell) : bool :=
  match col with
  | [] => true
  | CStr _ :: _ => true
  | CIds [] :: _ => true
  | _ => false
  end.

(** An entry that passed the check but is no string is refused by the
    encoder, with a [TypeError]. *)
Definition not_text_input : exn :=
  TypeError ("TextEncodeInput must be Union[TextInputSequence, "
             +:+ "Tuple[InputSequence, InputSequence]]").

Definition as_text (c : cell) : result string :=
  match c with
  | CStr s => Ok s
  | _ => Raise not_text_input
  end.

Fixpoint encoder_inputs (col : list cell) : result (list string) :=
  match col with
  | [] => Ok []
  | c :: col' => s ← as_text c; rest ← encoder_inputs col'; Ok (s :: rest)
  end.

Definition texts_of (col : list cell) : result (list string) :=
  if is_valid_text_input col then encoder_inputs col
  else Raise (ValueError "text input must be of type str").

(** The columns a [BatchEncoding] contributes to a mapped dataset. *)
Definition encoding_columns (enc : BatchEncoding) : gmap string (list cell) :=
  {[ "input_ids" := CIds <$> input_ids enc;
     "attention_mask" := CIds <$> attention_mask enc ]}.

(** ** transformers / peft: configuration objects *)

Record PretrainedConfig := {
  name_or_path : string;
  num_labels : nat;
  id2label : gmap Z string;
  label2id : option (gmap string Z)
}.

Record LoraConfig := {
  r : nat;
  lora_alpha : nat;
  target_modules : option (list string);
  lora_dropout : Q;
  bias : string;
  task_type : option string;
  modules_to_save : option (list string);
  use_dora : bool;
  init_lora_weights : string;
  inference_mode : bool
}.

Inductive strategy :=
| StrategyNo
| StrategySteps
| StrategyEpoch.

(** The arguments of [TrainingArguments] that decide what the Trainer
    evaluates and writes.  The remaining keyword arguments of the notebooks
    (logging_steps, fp16, optim, lr_scheduler_type, warmup_ratio,
    report_to="none", push_to_hub=False, metric_for_best_model,
    greater_is_better, gradient_accumulation_steps, group_by_length,
    dataloader_num_workers, torch_compile) tune the numerical training loop,
    which belongs to the library. *)
Record TrainingArguments := {
  output_dir : string;
  learning_rate : Q;
  per_device_train_batch_size : nat;
  per_device_eval_batch_size : nat;
  num_train_epochs : nat;
  weight_decay : Q;
  eval_strategy : strategy;
  eval_steps : nat;
  save_strategy : strategy;
  save_steps : nat;
  load_best_model_at_end : bool
}.

(** [TrainingArguments(output_dir=d)] with the library defaults. *)
Definition TrainingArguments_default (d : string) : TrainingArguments :=
  {| output_dir := d;
     learning_rate := 5 # 100000;
     per_device_train_batch_size := 8;
     per_device_eval_batch_size := 8;
     num_train_epochs := 3;
     weight_decay := 0;
     eval_strategy := StrategyNo;
     eval_steps := 500;
     save_strategy := StrategySteps;
     save_steps := 500;
     load_best_model_at_end := false |}.

Record EarlyStoppingCallback := {
  early_stopping_patience : nat;
  early_stopping_threshold : Q
}.

(** ** The disk *)

Inductive location :=
| SitePackages                                  (* where pip installs *)
| HubCache                                      (* download and map caches *)
| Dir (path : string)
| Checkpoint (out : string) (step : nat).       (* out/checkpoint-step *)

Inductive file_kind :=
| Package
| CachedDataset
| CachedTokenizer
| CachedModel
| ModelWeights
| ModelConfig
| ModelCard
| TokenizerFiles
| TrainingArgsBin
| OptimizerState
| SchedulerState
| RngState
| TrainerState.

Global Instance location_eq_dec : EqDecision location.
Proof. solve_decision. Defined.
Global Instance file_kind_eq_dec : EqDecision file_kind.
Proof. solve_decision. Defined.

(** ** Calls that can fail, and the run's record of them *)

Inductive op :=
| op_import
| op_load_dataset
| op_train_test_split
| op_AutoTokenizer_from_pretrained
| op_AutoModel_from_pretrained
| op_map
| op_TrainingArguments
| op_Trainer
| op_predict
| op_evaluate
| op_train
| op_save_model
| op_tokenizer_save_pretrained
| op_classification_report
| op_plot_confusion_matrix
| op_LoraConfig
| op_get_peft_model
| op_print_trainable_parameters
| op_EarlyStoppingCallback
| op_PeftModel_from_pretrained
| op_merge_and_unload
| op_save_pretrained
| op_argmax
| op_subscript        (* d[k] in the notebook's own code *)
| op_attribute        (* x.attr in the notebook's own code *)
| op_name.            (* reading a notebook variable *)

Global Instance op_eq_dec : EqDecision op.
Proof. solve_decision. Defined.

Inductive event :=
| ECall (o : op)                (* the call returned *)
| EFail (o : op) (e : exn).     (* the call raised [e] *)

Definition is_call (ev : event) : Prop :=
  match ev with ECall _ => True | EFail _ _ => False end.

(** The stages of the pipeline named by the specification. *)
Inductive stage :=
| LoadDataset
| LoadTokenizer
| LoadModel
| Tokenize
| Evaluate
| ConfigureAdapter
| Train
| Save
| Reload.

Global Instance stage_eq_dec : EqDecision stage.
Proof. solve_decision. Defined.

Definition stage_of (o : op) : option stage :=
  match o with
  | op_load_dataset => Some LoadDataset
  | op_AutoTokenizer_from_pretrained => Some LoadTokenizer
  | op_AutoModel_from_pretrained => Some LoadModel
  | op_map => Some Tokenize
  | op_predict | op_evaluate => Some Evaluate
  | op_LoraConfig => Some ConfigureAdapter
  | op_train => Some Train
  | op_save_model | op_save_pretrained | op_tokenizer_save_pretrained => Some Save
  | op_PeftModel_from_pretrained => Some Reload
  | _ => None
  end.

Definition event_stage (ev : event) : option stage :=
  match ev with
  | ECall o => stage_of o
  | EFail _ _ => None
  end.

(** The stages a run has completed, oldest first. *)
Definition stages (l : list event) : list stage := omap event_stage l.

(** ** Counting parameters (second notebook, cell 6)

    [print_number_of_trainable_model_parameters] reads of the model only
    [model.named_parameters()], and of each parameter its number of entries
    and whether it takes gradients.  It returns an f-string, whose last
    number is a float printed with two decimals. *)

Module Counting.

Record Tensor := {
  numel : N;
  requires_grad : bool
}.

Definition newline : string := String (Ascii.ascii_of_nat 10) EmptyString.

(** One turn of the loop, on the pair
    [(trainable_model_params, all_model_params)]. *)
Definition count_parameter (counts : N * N) (named : string * Tensor) : N * N :=
  let '(trainable_model_params, all_model_params) := counts in
  let param := named.2 in
  let all_model_params := (all_model_params + numel param)%N in
  if requires_grad param then ((trainable_model_params + numel param)%N, all_model_params)
  else (trainable_model_params, all_model_params).

(** An integer as the operand of a float division. *)
Definition operand (n : N) : SpecFloat.spec_float :=
  match n with
  | N0 => SpecFloat.S754_zero false
  | Npos p => SpecFloat.S754_finite false p 0
  end.

(** [a / b] on two integers: the double nearest to the quotient. *)
Definition true_divide (a b : N) : result SpecFloat.spec_float :=
  if N.eqb b 0 then Raise (ZeroDivisionError "division by zero")
  else Ok (SpecFloat.SFdiv 53 1024 (operand a) (operand b)).

(** [num / den] rounded to the nearest integer, a tie to the even one. *)
Definition round_half_even (num den : Z) : Z :=
  let q := (num / den)%Z in
  match (2 * (num mod den) ?= den)%Z with
  | Lt => q
  | Gt => (q + 1)%Z
  | Eq => if Z.even q then q else (q + 1)%Z
  end.

Definition two_digits (n : Z) : string :=
  if (n <? 10)%Z then "0" +:+ pretty n else pretty n.

(** [f"{x:.2f}"]: the decimal with two places nearest to the double's exact
    value. *)
Definition format_2f (x : SpecFloat.spec_float) : string :=
  match x with
  | SpecFloat.S754_nan => "nan"
  | SpecFloat.S754_infinity s => if s then "-inf" else "inf"
  | SpecFloat.S754_zero s => if s then "-0.00" else "0.00"
  | SpecFloat.S754_finite s m e =>
      let hundredths :=
        if (0 <=? e)%Z then (100 * Z.pos m * 2 ^ e)%Z
        else round_half_even (100 * Z.pos m) (2 ^ (- e)) in
      (if s then "-" else "")
        +:+ pretty (hundredths / 100)%Z +:+ "." +:+ two_digits (hundredths mod 100)%Z
  end.

Definition print_number_of_trainable_model_parameters
    (named_parameters : list (string * Tensor)) : result string :=
  let '(trainable_model_params, all_model_params) :=
    foldl count_parameter (0%N, 0%N) named_parameters in
  percentage ← true_divide (100 * trainable_model_params) all_model_params;
  Ok ("trainable model parameters: " +:+ pretty trainable_model_params
      +:+ newline +:+ "all model parameters: " +:+ pretty all_model_params
      +:+ newline +:+ "percentage of trainable model parameters: "
      +:+ format_2f percentage +:+ "%").

End Counting.

(** ** Objects holding weights, the notebook's variables, the world *)

Section Pipeline.

(** The type of a model's numerical parameters is the library's business. *)
Context {Weights : Type}.

Record Model := {
  config : PretrainedConfig;
  weights : Weights;
  peft_config : option LoraConfig
}.

Record file := {
  loc : location;
  kind : file_kind;
  payload : option Model        (* the model a weights file holds *)
}.

(** What [compute_metrics] hands back to the Trainer: a dict whose values
    are floats or [None]. *)
Definition metrics_dict := gmap string (option np_float).

Record Trainer := {
  t_model : option Model;
  t_args : TrainingArguments;
  t_train_dataset : option Dataset;
  t_eval_dataset : option Dataset;
  t_compute_metrics : option (EvalPrediction → result metrics_dict);
  t_callbacks : list EarlyStoppingCallback;
  t_data_collator : BatchEncoding → BatchEncoding;
  t_processing_class : option Tokenizer
}.

Record PredictionOutput := {
  po_predictions : list (list Q);
  po_label_ids : option (list Z);
  po_metrics : option metrics_dict
}.

(** Values a notebook variable can hold. *)
Inductive value :=
| VNone
| VStr (s : string)
| VList (l : list string)
| VDataset (d : Dataset)
| VDatasetDict (d : DatasetDict)
| VTokenizer (t : Tokenizer)
| VModel (m : Model)
| VLoraConfig (c : LoraConfig)
| VTrainingArguments (a : TrainingArguments)
| VCallback (c : EarlyStoppingCallback)
| VTrainer (t : Trainer)
| VPrediction (p : PredictionOutput)
| VArray (a : list Z)
| VLabels (a : option (list Z))
| VMetrics (m : metrics_dict)
| VInt (z : Z)
| VCell (c : cell).

Record World := {
  globals : gmap string value;            (* the notebook's variables *)
  disk : list file;                       (* the files, newest first *)
  log : list event;                       (* calls made, oldest first *)
  at_failure : option (gmap string value) (* the variables when a call raised *)
}.

(** Everything the notebooks take from outside the repository. *)
Record Library := {
  hub_dataset : string → result DatasetDict;
  hub_tokenizer : string → result Tokenizer;
  hub_weights : string → nat → result Weights;
  cuda_is_available : bool;
  rng_permutation : Z → nat → list nat;
  os_entropy : Z;
  (* logit of class [c] for one padded example *)
  forward : Model → list Z → list Z → nat → Q;
  (* peft's table of default target modules, by model name *)
  lora_default_targets : string → option (list string);
  (* adapter initialisation *)
  inject_adapter : Weights → LoraConfig → Weights;
  (* the training loop: new parameters and the number of optimiser steps *)
  fit : Trainer → Weights * nat;
  (* adapter loading and merging *)
  load_adapter : Weights → Weights → Weights;
  merge_adapter : Weights → Weights;
  (* [model.named_parameters()]: names, sizes and gradient flags *)
  named_parameters : Model → list (string * Counting.Tensor);
  (* failures from outside (network, memory, versions, ...), which may
     depend on what has happened so far *)
  fault : list event → op → option exn
}.

Context (lib : Library).

(** ** The notebook monad: state plus exceptions, with no handler *)

Definition M (A : Type) : Type := World → result A * World.

Global Instance M_ret : MRet M := λ A a s, (Ok a, s).
Global Instance M_bind : MBind M := λ A B f m s,
  match m s with
  | (Ok a, s') => f a s'
  | (Raise e, s') => (Raise e, s')
  end.

Definition record_event (ev : event) (s : World) : World :=
  {| globals := globals s; disk := disk s; log := log s ++ [ev];
     at_failure := at_failure s |}.

(** Raising: the exception leaves with the world as it stands. *)
Definition raise {A} (o : op) (e : exn) : M A := λ s,
  let s' := record_event (EFail o e) s in
  (Raise e, {| globals := globals s'; disk := disk s'; log := log s';
               at_failure := Some (globals s) |}).

(** A call into a library (or into Python's own subscripting), whose
    modelled outcome is [r]. *)
Definition call {A} (o : op) (r : result A) : M A := λ s,
  match fault lib (log s) o with
  | Some e => raise o e s
  | None =>
      match r with
      | Ok a => (Ok a, record_event (ECall o) s)
      | Raise e => raise o e s
      end
  end.

(** [x = v] at the top level of a cell. *)
Definition assign (x : string) (v : value) : M unit := λ s,
  (Ok (), {| globals := <[x := v]> (globals s); disk := disk s; log := log s;
             at_failure := at_failure s |}).

(** Reading the variable [x]. *)
Definition read (x : string) : M value := λ s,
  match globals s !! x with
  | Some v => (Ok v, s)
  | None => raise op_name (NameError x) s
  end.

(** Two files with the same name in the same place. *)
Definition same_place (f g : file) : bool :=
  bool_decide (loc f = loc g ∧ kind f = kind g).

(** Writing a file replaces the file of that name and place, if there is
    one; every other file stays. *)
Definition overwrite (fs d : list file) : list file :=
  fs ++ filter (λ f, existsb (same_place f) fs = false) d.

Definition write (fs : list file) : M unit := λ s,
  (Ok (), {| globals := globals s; disk := overwrite fs (disk s); log := log s;
             at_failure := at_failure s |}).

Definition get_disk : M (list file) := λ s, (Ok (disk s), s).

(** A shell escape ([!pip ...]): its exit status is not turned into an
    exception. *)
Definition shell (fs : list file) : M unit := write fs.

Fixpoint for_each {A} (l : list A) (body : A → M unit) : M unit :=
  match l with
  | [] => mret ()
  | x :: l' => body x;; for_each l' body
  end.

Definition wrong_type {A} (what : string) : M A :=
  raise op_name (TypeError what).

Definition as_dataset_dict (v : value) : M DatasetDict :=
  match v with VDatasetDict d => mret d | _ => wrong_type "DatasetDict" end.
Definition as_tokenizer (v : value) : M Tokenizer :=
  match v with VTokenizer t => mret t | _ => wrong_type "tokenizer" end.
Definition as_str (v : value) : M string :=
  match v with VStr s => mret s | _ => wrong_type "str" end.
Definition as_model (v : value) : M Model :=
  match v with VModel m => mret m | _ => wrong_type "model" end.
Definition as_model_or_None (v : value) : M (option Model) :=
  match v with VModel m => mret (Some m) | VNone => mret None | _ => wrong_type "model" end.
Definition as_lora_config (v : value) : M LoraConfig :=
  match v with VLoraConfig c => mret c | _ => wrong_type "LoraConfig" end.
Definition as_training_arguments (v : value) : M TrainingArguments :=
  match v with VTrainingArguments a => mret a | _ => wrong_type "TrainingArguments" end.
Definition as_callback (v : value) : M EarlyStoppingCallback :=
  match v with VCallback c => mret c | _ => wrong_type "callback" end.
Definition as_list (v : value) : M (list string) :=
  match v with VList l => mret l | _ => wrong_type "list" end.

(** [x.attr] where [x] holds [None], as the placeholders of the second
    notebook do. *)
Definition no_attribute {A} (attr : string) : M A :=
  raise op_attribute
    (AttributeError ("'NoneType' object has no attribute '" +:+ attr +:+ "'")).

(** The receiver of a method call [x.attr(...)]. *)
Definition trainer_with (attr : string) (v : value) : M Trainer :=
  match v with
  | VTrainer t => mret t
  | VNone => no_attribute attr
  | _ => wrong_type "Trainer"
  end.
Definition tokenizer_with (attr : string) (v : value) : M Tokenizer :=
  match v with
  | VTokenizer t => mret t
  | VNone => no_attribute attr
  | _ => wrong_type "tokenizer"
  end.
Definition model_with (attr : string) (v : value) : M Model :=
  match v with
  | VModel m => mret m
  | VNone => no_attribute attr
  | _ => wrong_type "model"
  end.
Definition dataset_dict_with (attr : string) (v : value) : M DatasetDict :=
  match v with
  | VDatasetDict d => mret d
  | VNone => no_attribute attr
  | _ => wrong_type "DatasetDict"
  end.

(** ** The library calls the notebooks make *)

Definition plain (l : location) (k : file_kind) : file :=
  {| loc := l; kind := k; payload := None |}.

Definition load_dataset (name : string) : M DatasetDict :=
  d ← call op_load_dataset (hub_dataset lib name);
  write [plain HubCache CachedDataset];;
  mret d.

(** [load_dataset(name, split=split)]: one split of the hub dataset. *)
Definition load_dataset_split (name split : string) : M Dataset :=
  d ← call op_load_dataset (hub_dataset lib name ≫= λ d, assoc_get d split);
  write [plain HubCache CachedDataset];;
  mret d.

Definition AutoTokenizer_from_pretrained (name : string) : M Tokenizer :=
  t ← call op_AutoTokenizer_from_pretrained (hub_tokenizer lib name);
  write [plain HubCache CachedTokenizer];;
  mret t.

Definition AutoModelForSequenceClassification_from_pretrained
    (name : string) (n : nat) (i2l : gmap Z string) (l2i : option (gmap string Z))
    : M Model :=
  w ← call op_AutoModel_from_pretrained (hub_weights lib name n);
  write [plain HubCache CachedModel];;
  mret {| config := {| name_or_path := name; num_labels := n;
                       id2label := i2l; label2id := l2i |};
          weights := w; peft_config := None |}.

Definition Dataset_train_test_split (test_size : Q) (seed : option Z) (ds : Dataset)
    : M DatasetDict :=
  call op_train_test_split
    (train_test_split (rng_permutation lib) (os_entropy lib) test_size seed ds).

(** [get_peft_model(model, cfg)]: without [target_modules] peft falls back
    on its table of defaults and raises when the model has no entry. *)
Definition get_peft_model (m : Model) (cfg : LoraConfig) : M Model :=
  let targets :=
    match target_modules cfg with
    | Some t => Some t
    | None => lora_default_targets lib (name_or_path (config m))
    end in
  call op_get_peft_model
    match targets with
    | None => Raise (ValueError "Please specify `target_modules` in `peft_config`")
    | Some t =>
        Ok {| config := config m;
              weights := inject_adapter lib (weights m) cfg;
              peft_config := Some cfg |}
    end.

Definition new_Trainer (t : Trainer) : M Trainer :=
  call op_Trainer
    match t_model t with
    | None => Raise (RuntimeError "`Trainer` requires either a `model` or `model_init` argument")
    | Some _ => Ok t
    end.

(** *** Prediction *)

Definition as_ids (c : cell) : result (list Z) :=
  match c with
  | CIds l => Ok l
  | _ => Raise (ValueError "expected a sequence of token ids")
  end.

Definition as_int (c : cell) : result Z :=
  match c with
  | CInt z => Ok z
  | _ => Raise (ValueError "expected an integer label")
  end.

Fixpoint mapM_result {A B} (f : A → result B) (l : list A) : result (list B) :=
  match l with
  | [] => Ok []
  | x :: l' => y ← f x; rest ← mapM_result f l'; Ok (y :: rest)
  end.

Definition column (ds : Dataset) (name : string) : result (list cell) :=
  match columns ds !! name with
  | Some col => Ok col
  | None => Raise (ValueError ("missing column " +:+ name))
  end.

(** The model inputs of a tokenized split. *)
Definition features_of (ds : Dataset) : result BatchEncoding :=
  ids ← column ds "input_ids" ≫= mapM_result as_ids;
  mask ← column ds "attention_mask" ≫= mapM_result as_ids;
  Ok {| input_ids := ids; attention_mask := mask |}.

(** The labels of a split: the "label" (or "labels") column when there is
    one. *)
Definition labels_of (ds : Dataset) : result (option (list Z)) :=
  match columns ds !! "label", columns ds !! "labels" with
  | Some col, _ | None, Some col => l ← mapM_result as_int col; Ok (Some l)
  | None, None => Ok None
  end.

Fixpoint chunks {A} (fuel size : nat) (l : list A) : list (list A) :=
  match fuel, l with
  | 0, _ | _, [] => []
  | S fuel', _ => take size l :: chunks fuel' size (drop size l)
  end.

Definition batches (size : nat) (enc : BatchEncoding) : list BatchEncoding :=
  zip_with (λ i m, {| input_ids := i; attention_mask := m |})
    (chunks (length (input_ids enc)) size (input_ids enc))
    (chunks (length (attention_mask enc)) size (attention_mask enc)).

(** Logits of one collated batch: one row per example, one entry per class
    of the classification head. *)
Definition logits_of_batch (m : Model) (b : BatchEncoding) : list (list Q) :=
  zip_with (λ ids mask, (λ c, forward lib m ids mask c) <$> seq 0 (num_labels (config m)))
    (input_ids b) (attention_mask b).

(** A target the cross-entropy loss of a classification head with [n]
    classes accepts: a class index, or the index it ignores. *)
Definition valid_target (n : nat) (z : Z) : bool :=
  (Z.leb 0 z && Z.ltb z (Z.of_nat n)) || Z.eqb z (-100).

(** The prediction loop shared by [predict] and [evaluate]: batches of
    [per_device_eval_batch_size] examples, each padded by the collator.  When
    the split has labels the forward pass also computes the loss on them.
    On a split without rows the data loader hands the loop [None] for a
    batch, and reading the labels off it raises. *)
Definition prediction_loop (t : Trainer) (ds : Dataset) : result PredictionOutput :=
  match t_model t with
  | None => Raise (RuntimeError "no model")
  | Some m =>
      enc ← features_of ds;
      labels ← labels_of ds;
      if Nat.eqb (per_device_eval_batch_size (t_args t)) 0 then
        Raise (ValueError "batch_size should be a positive integer")
      else if Nat.eqb (num_rows ds) 0 then
        Raise (AttributeError "'NoneType' object has no attribute 'get'")
      else if negb (forallb (valid_target (num_labels (config m))) (default [] labels)) then
        Raise (IndexError "Target is out of bounds")
      else
        let logits :=
          mjoin ((λ b, logits_of_batch m (t_data_collator t b))
                   <$> batches (per_device_eval_batch_size (t_args t)) enc) in
        metrics ←
          match t_compute_metrics t, labels with
          | Some f, Some l =>
              d ← f {| predictions := logits; label_ids := l |}; Ok (Some d)
          | _, _ => Ok None
          end;
        Ok {| po_predictions := logits; po_label_ids := labels; po_metrics := metrics |}
  end.

Definition Trainer_predict (t : Trainer) (ds : Dataset) : M PredictionOutput :=
  call op_predict (prediction_loop t ds).

Definition Trainer_evaluate (t : Trainer) : M metrics_dict :=
  call op_evaluate
    match t_eval_dataset t with
    | None => Raise (ValueError "Trainer: evaluation requires an eval_dataset.")
    | Some ds => out ← prediction_loop t ds; Ok (default ∅ (po_metrics out))
    end.

(** *** Training and saving *)

(** What [save_pretrained] writes for a model: weights and configuration,
    and for an adapter model a model card as well. *)
Definition model_files (l : location) (m : Model) : list file :=
  [ {| loc := l; kind := ModelWeights; payload := Some m |}; plain l ModelConfig ]
  ++ match peft_config m with Some _ => [plain l ModelCard] | None => [] end.

(** What the Trainer writes when it saves its model: the model, the
    processing class when it has one, and the training arguments. *)
Definition saved_by_Trainer (l : location) (t : Trainer) (m : Model) : list file :=
  model_files l m
  ++ match t_processing_class t with Some _ => [plain l TokenizerFiles] | None => [] end
  ++ [plain l TrainingArgsBin].

(** A checkpoint adds what is needed to resume training. *)
Definition checkpoint_files (l : location) (t : Trainer) (m : Model) : list file :=
  saved_by_Trainer l t m
  ++ [plain l OptimizerState; plain l SchedulerState; plain l RngState;
      plain l TrainerState].

Definition steps_per_epoch (t : Trainer) (ds : Dataset) : nat :=
  (num_rows ds + per_device_train_batch_size (t_args t) - 1)
  / per_device_train_batch_size (t_args t).

(** The optimiser steps after which a checkpoint is written, given the
    steps per epoch and the number of steps the run lasted: every
    [save_steps] steps, or at the end of every epoch.  With
    [save_strategy="steps"] a run that lasts all its epochs also saves at
    its last step. *)
Definition checkpoint_steps (a : TrainingArguments) (per_epoch steps : nat) : list nat :=
  match save_strategy a with
  | StrategyNo => []
  | StrategySteps =>
      let every := (λ k, k * save_steps a) <$> seq 1 (steps / save_steps a) in
      if Nat.ltb 0 steps && Nat.leb (num_train_epochs a * per_epoch) steps
         && negb (bool_decide (steps ∈ every))
      then every ++ [steps]
      else every
  | StrategyEpoch => (λ k, k * per_epoch) <$> seq 1 (steps / per_epoch)
  end.

(** [trainer.train()]: the run itself is the library's; it returns the
    trainer holding the trained model. *)
Definition Trainer_train (t : Trainer) : M Trainer :=
  '(ds, m) ← call op_train
    match t_train_dataset t, t_model t with
    | Some ds, Some m => Ok (ds, m)
    | _, _ => Raise (ValueError "Trainer: training requires a train_dataset.")
    end;
  let '(w, steps) := fit lib t in
  let m' := {| config := config m; weights := w; peft_config := peft_config m |} in
  write (mjoin ((λ k, checkpoint_files (Checkpoint (output_dir (t_args t)) k) t m')
                  <$> reverse (checkpoint_steps (t_args t) (steps_per_epoch t ds) steps)));;
  mret {| t_model := Some m'; t_args := t_args t;
          t_train_dataset := t_train_dataset t; t_eval_dataset := t_eval_dataset t;
          t_compute_metrics := t_compute_metrics t; t_callbacks := t_callbacks t;
          t_data_collator := t_data_collator t;
          t_processing_class := t_processing_class t |}.

Definition Trainer_save_model (t : Trainer) (path : string) : M unit :=
  m ← call op_save_model
    match t_model t with
    | Some m => Ok m
    | None => Raise (RuntimeError "no model")
    end;
  write (saved_by_Trainer (Dir path) t m).

Definition tokenizer_save_pretrained (tok : Tokenizer) (path : string) : M unit :=
  call op_tokenizer_save_pretrained (Ok ());;
  write [plain (Dir path) TokenizerFiles].

(** [model.save_pretrained(path)]; [None] is not a path. *)
Definition save_pretrained (m : option Model) (path : option string) : M unit :=
  '(m, p) ← call op_save_pretrained
    match m, path with
    | Some m, Some p => Ok (m, p)
    | None, _ => Raise (RuntimeError "no model")
    | _, None => Raise (TypeError "expected str, bytes or os.PathLike object, not NoneType")
    end;
  write (model_files (Dir p) m).

Fixpoint find_adapter (path : string) (d : list file) : option (Model * LoraConfig) :=
  match d with
  | [] => None
  | f :: d' =>
      match payload f, bool_decide (loc f = Dir path ∧ kind f = ModelWeights) with
      | Some m, true =>
          match peft_config m with
          | Some cfg => Some (m, cfg)
          | None => find_adapter path d'
          end
      | _, _ => find_adapter path d'
      end
  end.

(** [PeftModel.from_pretrained(base, path)]: the adapter is read back from
    the directory. *)
Definition PeftModel_from_pretrained (base : Model) (path : string) : M Model :=
  d ← get_disk;
  call op_PeftModel_from_pretrained
    match find_adapter path d with
    | None => Raise (ValueError "Can't find 'adapter_config.json'")
    | Some (saved, cfg) =>
        Ok {| config := config base;
              weights := load_adapter lib (weights base) (weights saved);
              peft_config := Some cfg |}
    end.

Definition merge_and_unload (m : Model) : M Model :=
  call op_merge_and_unload
    (Ok {| config := config m; weights := merge_adapter lib (weights m);
           peft_config := None |}).

(** *** sklearn reports *)

(** [classification_report(y_true, y_pred, target_names=names)] with no
    [labels] argument: the number of classes present must match the number
    of names. *)
Definition classification_report (y_true : option (list Z)) (y_pred : list Z)
    (target_names : list string) : M unit :=
  call op_classification_report
    match y_true with
    | None => Raise (TypeError "Expected sequence or array-like, got NoneType")
    | Some y =>
        if negb (Nat.eqb (length y) (length y_pred)) then
          Raise (ValueError "Found input variables with inconsistent numbers of samples")
        else if negb (Nat.eqb (length (unique_labels y y_pred)) (length target_names)) then
          Raise (ValueError "Number of classes does not match size of target_names")
        else Ok ()
    end.

Definition argmax_axis1 (a : list (list Q)) : M (list Z) :=
  call op_argmax (np_argmax_axis1 a).

(** [np.where(x != y)[0]]: the positions where the two arrays differ.
    Compared with [None], every position differs. *)
Definition np_where_ne (x : list Z) (y : option (list Z)) : list nat :=
  match y with
  | None => seq 0 (length x)
  | Some y =>
      omap (λ p : nat * (Z * Z), if Z.eqb p.2.1 p.2.2 then None else Some p.1)
           (zip (seq 0 (length x)) (zip x y))
  end.

Definition metrics_to_dict (m : Metrics) : metrics_dict :=
  {[ "accuracy" := Some (accuracy m);
     "macro_precision" := Some (macro_precision m);
     "macro_recall" := Some (macro_recall m);
     "macro_f1" := Some (macro_f1 m) ]}.

End Pipeline.

Arguments Library : clear implicits.
Arguments Model : clear implicits.
Arguments World : clear implicits.
Arguments Trainer : clear implicits.
Arguments value : clear implicits.
Arguments file : clear implicits.
Arguments M : clear implicits.

(** * The ModernBERT / PoliticalTweets notebook (src/unnamed/part_000) *)

Module Part000.
Section Notebook.
Context {Weights : Type} (lib : Library Weights).
Local Abbreviation M := (M Weights).

(** Cell 1: [!pip install transformers datasets peft accelerate optuna -U -q]. *)
Definition cell_install : M unit :=
  shell [plain SitePackages Package].

(** Cell 2: the imports. *)
Definition cell_imports : M unit :=
  call lib op_import (Ok ()).

(** Cell 3: configuration. *)
Definition MODEL_ID : string := "answerdotai/ModernBERT-base".
Definition DATASET_NAME : string := "Jacobvs/PoliticalTweets".
Definition ADAPTER_PATH : string := "./modernbert-political-dora-best".

Definition cell_configuration : M unit :=
  assign "MODEL_ID" (VStr MODEL_ID);;
  assign "DATASET_NAME" (VStr DATASET_NAME);;
  assign "ADAPTER_PATH" (VStr ADAPTER_PATH);;
  assign "DEVICE" (VStr (if cuda_is_available lib then "cuda" else "cpu")).

(** Cell 4 sets [torch._dynamo.config.disable = True], a switch inside the
    library that no modelled call reads. *)
Definition cell_dynamo : M unit := mret ().

(** Cell 5: load and split the dataset. *)
Definition cell_load_dataset : M unit :=
  name ← read "DATASET_NAME" ≫= as_str;
  dataset ← load_dataset lib name;
  assign "dataset" (VDatasetDict dataset);;
  train ← call lib op_subscript (assoc_get dataset "train");
  split_dataset ← Dataset_train_test_split lib (2 # 10) (Some 42%Z) train;
  assign "split_dataset" (VDatasetDict split_dataset).

(** Cell 6: tokenizer and base model. *)
Definition id2label_arg : gmap Z string := {[ 0%Z := "Republican"; 1%Z := "Democrat" ]}.

Definition cell_model : M unit :=
  name ← read "MODEL_ID" ≫= as_str;
  tokenizer ← AutoTokenizer_from_pretrained lib name;
  assign "tokenizer" (VTokenizer tokenizer);;
  name ← read "MODEL_ID" ≫= as_str;
  base_model ← AutoModelForSequenceClassification_from_pretrained lib name 2 id2label_arg None;
  assign "base_model" (VModel base_model).

(** Cell 7, first half: [tokenize_function] and the mapped dataset. *)
Definition tokenize_function (tokenizer : Tokenizer) (examples : gmap string (list cell))
    : result (gmap string (list cell)) :=
  texts ← getitem examples "text" ≫= texts_of;
  encoding ← tokenizer_call tokenizer texts true (Some 128) DoNotPad;
  Ok (encoding_columns encoding).

Definition remove_columns : list string := ["index, date, id, username, text, party"].

Definition plot_confusion_matrix (y_true : option (list Z)) (y_pred : list Z) : M unit :=
  call lib op_plot_confusion_matrix
    match y_true with
    | None => Raise (TypeError "Expected sequence or array-like, got NoneType")
    | Some _ => Ok ()
    end.

(** Cell 7, second half: [evaluate_model].  [tokenizer] is the notebook
    variable, read when the function runs. *)
Definition evaluate_model (model : Model Weights) (dataset_split : Dataset)
    (split_name : string) : M unit :=
  eval_args ← call lib op_TrainingArguments
                 (Ok (TrainingArguments_default "./pre_fine_tuning_results"));
  tokenizer ← read "tokenizer" ≫= as_tokenizer;
  trainer ← new_Trainer lib
    {| t_model := Some model; t_args := eval_args;
       t_train_dataset := None; t_eval_dataset := None;
       t_compute_metrics := None; t_callbacks := [];
       t_data_collator := DataCollatorWithPadding tokenizer;
       t_processing_class := Some tokenizer |};
  outputs ← Trainer_predict lib trainer dataset_split;
  predictions ← argmax_axis1 lib (po_predictions outputs);
  let labels := po_label_ids outputs in
  classification_report lib labels predictions ["Republican"; "Democrat"];;
  plot_confusion_matrix labels predictions.

Definition cell_tokenize_and_evaluate : M unit :=
  split_dataset ← read "split_dataset" ≫= dataset_dict_with "map";
  tokenizer ← read "tokenizer" ≫= as_tokenizer;
  tokenized_dataset ← call lib op_map
    (DatasetDict_map (tokenize_function tokenizer) remove_columns split_dataset);
  write [plain HubCache CachedDataset];;
  assign "tokenized_dataset" (VDatasetDict tokenized_dataset);;
  base_model ← read "base_model" ≫= as_model;
  test ← call lib op_subscript (assoc_get tokenized_dataset "test");
  evaluate_model base_model test "Base Model".

(** Cell 8: the DoRA configuration. *)
Definition dora_config : LoraConfig :=
  {| r := 8;
     lora_alpha := 32;
     target_modules := Some ["Wqkv"; "Wi"; "Wo"];
     lora_dropout := 2 # 10;
     bias := "none";
     task_type := Some "SEQ_CLS";
     modules_to_save := Some ["classifier"; "model.final_norm"];
     use_dora := true;
     init_lora_weights := "gaussian";
     inference_mode := false |}.

Definition cell_dora_config : M unit :=
  cfg ← call lib op_LoraConfig (Ok dora_config);
  assign "dora_config" (VLoraConfig cfg).

(** Cell 9: apply the adapters. *)
Definition cell_apply_adapters : M unit :=
  base_model ← read "base_model" ≫= as_model;
  cfg ← read "dora_config" ≫= as_lora_config;
  model ← get_peft_model lib base_model cfg;
  assign "model" (VModel model);;
  call lib op_print_trainable_parameters (Ok ()).

(** Cell 10: training arguments. *)
Definition training_args (out : string) : TrainingArguments :=
  {| output_dir := out;
     learning_rate := 5 # 100000;
     per_device_train_batch_size := 32;
     per_device_eval_batch_size := 64;
     num_train_epochs := 8;
     weight_decay := 1 # 10;
     eval_strategy := StrategySteps;
     eval_steps := 50;
     save_strategy := StrategySteps;
     save_steps := 50;
     load_best_model_at_end := true |}.

Definition cell_training_args : M unit :=
  out ← read "ADAPTER_PATH" ≫= as_str;
  args ← call lib op_TrainingArguments (Ok (training_args out));
  assign "training_args" (VTrainingArguments args).

(** Cell 11 defines [compute_metrics] (above).  Cell 12: early stopping. *)
Definition early_stopping : EarlyStoppingCallback :=
  {| early_stopping_patience := 3; early_stopping_threshold := 1 # 1000 |}.

Definition cell_early_stopping : M unit :=
  cb ← call lib op_EarlyStoppingCallback (Ok early_stopping);
  assign "early_stopping" (VCallback cb).

(** Cell 13: the training Trainer. *)
Definition cell_trainer : M unit :=
  model ← read "model" ≫= as_model;
  args ← read "training_args" ≫= as_training_arguments;
  tokenized_dataset ← read "tokenized_dataset" ≫= as_dataset_dict;
  train ← call lib op_subscript (assoc_get tokenized_dataset "train");
  test ← call lib op_subscript (assoc_get tokenized_dataset "test");
  cb ← read "early_stopping" ≫= as_callback;
  tokenizer ← read "tokenizer" ≫= as_tokenizer;
  trainer ← new_Trainer lib
    {| t_model := Some model; t_args := args;
       t_train_dataset := Some train; t_eval_dataset := Some test;
       t_compute_metrics := Some (λ p, metrics_to_dict <$> compute_metrics p);
       t_callbacks := [cb];
       t_data_collator := DataCollatorWithPadding tokenizer;
       t_processing_class := Some tokenizer |};
  assign "trainer" (VTrainer trainer).

(** Cell 14: training.  [train()] updates the trainer's model in place; the
    variable [model] names that same object and is rebound by cell 16
    before it is read again. *)
Definition cell_train : M unit :=
  trainer ← read "trainer" ≫= trainer_with "train";
  trained ← Trainer_train lib trainer;
  assign "trainer" (VTrainer trained);;
  assign "train_results" (VInt (Z.of_nat (fit lib trainer).2)).

(** Cell 15: save the model and the tokenizer. *)
Definition final_model_path : string := "./modernbert-political-dora-final".

Definition cell_save : M unit :=
  assign "final_model_path" (VStr final_model_path);;
  trainer ← read "trainer" ≫= trainer_with "save_model";
  path ← read "final_model_path" ≫= as_str;
  Trainer_save_model lib trainer path;;
  tokenizer ← read "tokenizer" ≫= tokenizer_with "save_pretrained";
  path ← read "final_model_path" ≫= as_str;
  tokenizer_save_pretrained lib tokenizer path.

(** Cell 16: load the saved adapter and merge it. *)
Definition cell_reload : M unit :=
  base_model ← read "base_model" ≫= as_model;
  path ← read "final_model_path" ≫= as_str;
  model ← PeftModel_from_pretrained lib base_model path;
  assign "model" (VModel model);;
  model ← merge_and_unload lib model;
  assign "model" (VModel model).

(** Cell 17: post-training evaluation. *)
Definition cell_post_evaluation : M unit :=
  model ← read "model" ≫= as_model;
  tokenized_dataset ← read "tokenized_dataset" ≫= as_dataset_dict;
  test ← call lib op_subscript (assoc_get tokenized_dataset "test");
  evaluate_model model test "Fine-tuned Model".

(** Cell 18: error analysis.  The text of a misclassified example is looked
    up under the key "sms". *)
Definition sliceable (c : cell) : result cell :=
  match c with
  | CInt _ => Raise (TypeError "'int' object is not subscriptable")
  | _ => Ok c
  end.

Definition label_at (a : option (list Z)) (i : nat) : result Z :=
  match a with
  | None => Raise (TypeError "'NoneType' object is not subscriptable")
  | Some l =>
      match l !! i with
      | Some z => Ok z
      | None => Raise (ValueError "index out of bounds")
      end
  end.

Definition error_case (test_preds : list Z) (test_labels : option (list Z))
    (idx : nat) : M unit :=
  assign "idx" (VInt (Z.of_nat idx));;
  split_dataset ← read "split_dataset" ≫= as_dataset_dict;
  test ← call lib op_subscript (assoc_get split_dataset "test");
  row ← call lib op_subscript (Dataset_row test idx);
  original_text ← call lib op_subscript (getitem row "sms");
  assign "original_text" (VCell original_text);;
  call lib op_subscript (sliceable original_text);;
  model ← read "model" ≫= model_with "config";
  call lib op_subscript (label_at test_labels idx ≫= getitem_int (id2label (config model)));;
  model ← read "model" ≫= model_with "config";
  call lib op_subscript
    (label_at (Some test_preds) idx ≫= getitem_int (id2label (config model)));;
  mret ().

Definition cell_error_analysis : M unit :=
  trainer ← read "trainer" ≫= trainer_with "predict";
  tokenized_dataset ← read "tokenized_dataset" ≫= as_dataset_dict;
  test ← call lib op_subscript (assoc_get tokenized_dataset "test");
  test_output ← Trainer_predict lib trainer test;
  assign "test_output" (VPrediction test_output);;
  test_preds ← argmax_axis1 lib (po_predictions test_output);
  assign "test_preds" (VArray test_preds);;
  let test_labels := po_label_ids test_output in
  assign "test_labels" (VLabels test_labels);;
  let misclassified := np_where_ne test_preds test_labels in
  assign "misclassified" (VArray (Z.of_nat <$> misclassified));;
  if Nat.ltb 0 (length misclassified) then
    for_each (take 3 misclassified) (error_case test_preds test_labels)
  else
    mret ().

(** The code cells in notebook order. *)
Definition cells : list (M unit) :=
  [ cell_install; cell_imports; cell_configuration; cell_dynamo;
    cell_load_dataset; cell_model; cell_tokenize_and_evaluate;
    cell_dora_config; cell_apply_adapters; cell_training_args;
    cell_early_stopping; cell_trainer; cell_train; cell_save; cell_reload;
    cell_post_evaluation; cell_error_analysis ].

(** Running the notebook from top to bottom. *)
Definition notebook : M unit := for_each cells (λ c, c).

End Notebook.
End Part000.

(** A fresh kernel on a disk where nothing has been written yet. *)
Definition fresh_kernel {Weights} : World Weights :=
  {| globals := ∅; disk := []; log := []; at_failure := None |}.

(** * The DistilBERT / sms_spam notebook
      (src/LightweightFineTuning-Abhishek.ipynb) *)

Module Abhishek.
Section Notebook.
Context {Weights : Type} (lib : Library Weights).
Local Abbreviation M := (M Weights).

(** Cell 1: four [!pip install -q -U ...] commands. *)
Definition cell_install : M unit :=
  shell [plain SitePackages Package];;
  shell [plain SitePackages Package];;
  shell [plain SitePackages Package];;
  shell [plain SitePackages Package].

(** Cell 2: the imports. *)
Definition cell_imports : M unit :=
  call lib op_import (Ok ()).

(** Cell 3: load sms_spam and split it. *)
Definition cell_load_dataset : M unit :=
  train ← load_dataset_split lib "sms_spam" "train";
  dataset ← Dataset_train_test_split lib (2 # 10) (Some 23%Z) train;
  assign "dataset" (VDatasetDict dataset);;
  assign "splits" (VList ["train"; "test"]);;
  dataset ← read "dataset" ≫= as_dataset_dict;
  call lib op_subscript (assoc_get dataset "train");;
  mret ().

(** Cell 4: tokenizer and tokenized splits.  The mapped function is the
    lambda [lambda x: tokenizer(x["sms"], truncation=True)]. *)
Definition tokenize_lambda (tokenizer : Tokenizer) (x : gmap string (list cell))
    : result (gmap string (list cell)) :=
  texts ← getitem x "sms" ≫= texts_of;
  encoding ← tokenizer_call tokenizer texts true None DoNotPad;
  Ok (encoding_columns encoding).

Definition tokenize_split (split : string) : M unit :=
  dataset ← read "dataset" ≫= as_dataset_dict;
  ds ← call lib op_subscript (assoc_get dataset split);
  tokenizer ← read "tokenizer" ≫= as_tokenizer;
  mapped ← call lib op_map (Dataset_map (tokenize_lambda tokenizer) [] ds);
  write [plain HubCache CachedDataset];;
  tokenized_dataset ← read "tokenized_dataset" ≫= as_dataset_dict;
  assign "tokenized_dataset" (VDatasetDict (assoc_set tokenized_dataset split mapped)).

Definition cell_tokenize : M unit :=
  tokenizer ← AutoTokenizer_from_pretrained lib "distilbert-base-uncased";
  assign "tokenizer" (VTokenizer tokenizer);;
  assign "tokenized_dataset" (VDatasetDict []);;
  splits ← read "splits" ≫= as_list;
  for_each splits tokenize_split.

(** Cell 5: [compute_metrics], as the notebook has it: the prediction is
    set to [None] and the accuracy returned is [None]. *)
Definition compute_metrics (eval_pred : EvalPrediction) : result metrics_dict :=
  let '(predictions, labels) := (predictions eval_pred, label_ids eval_pred) in
  let predictions : option (list Z) := None in
  Ok {[ "accuracy" := None ]}.

(** Cell 6: the model.  [print_number_of_trainable_model_parameters] counts
    the entries of the model's parameter tensors and formats them
    ([Counting], above); the cell prints the text it returns. *)
Definition id2label_arg : gmap Z string := {[ 0%Z := "not spam"; 1%Z := "spam" ]}.
Definition label2id_arg : gmap string Z := {[ "not spam" := 0%Z; "spam" := 1%Z ]}.

Definition print_number_of_trainable_model_parameters (model : Model Weights) : M string :=
  call lib op_print_trainable_parameters
    (Counting.print_number_of_trainable_model_parameters (named_parameters lib model)).

Definition cell_model : M unit :=
  model ← AutoModelForSequenceClassification_from_pretrained lib
             "distilbert-base-uncased" 2 id2label_arg (Some label2id_arg);
  assign "model" (VModel model);;
  model ← read "model" ≫= as_model;
  print_number_of_trainable_model_parameters model;;
  mret ().

(** Cell 7: the evaluation before fine-tuning is left as placeholders. *)
Definition cell_pre_evaluation : M unit :=
  assign "trainer" VNone;;
  assign "pre_finetune_eval" VNone;;
  read "pre_finetune_eval";;
  mret ().

(** Cell 8: the LoRA configuration, with its placeholders, and the adapter. *)
Definition lora_config : LoraConfig :=
  {| r := 16;
     lora_alpha := 16;
     target_modules := None;
     lora_dropout := 5 # 100;
     bias := "none";
     task_type := None;
     modules_to_save := None;
     use_dora := false;
     init_lora_weights := "True";
     inference_mode := false |}.

Definition cell_lora : M unit :=
  cfg ← call lib op_LoraConfig (Ok lora_config);
  assign "lora_config" (VLoraConfig cfg);;
  model ← read "model" ≫= as_model;
  cfg ← read "lora_config" ≫= as_lora_config;
  peft_model ← get_peft_model lib model cfg;
  assign "peft_model" (VModel peft_model);;
  peft_model ← read "peft_model" ≫= as_model;
  print_number_of_trainable_model_parameters peft_model;;
  mret ().

(** Cell 9: train. *)
Definition training_args : TrainingArguments :=
  {| output_dir := "./result-distilbert-lora";
     learning_rate := 2 # 100000;
     per_device_train_batch_size := 4;
     per_device_eval_batch_size := 4;
     num_train_epochs := 2;
     weight_decay := 1 # 100;
     eval_strategy := StrategyEpoch;
     eval_steps := 500;
     save_strategy := StrategyEpoch;
     save_steps := 1;
     load_best_model_at_end := true |}.

Definition cell_train : M unit :=
  peft_model ← read "peft_model" ≫= as_model_or_None;
  args ← call lib op_TrainingArguments (Ok training_args);
  tokenized_dataset ← read "tokenized_dataset" ≫= as_dataset_dict;
  train ← call lib op_subscript (assoc_get tokenized_dataset "train");
  test ← call lib op_subscript (assoc_get tokenized_dataset "test");
  tokenizer ← read "tokenizer" ≫= as_tokenizer;
  trainer ← new_Trainer lib
    {| t_model := peft_model; t_args := args;
       t_train_dataset := Some train; t_eval_dataset := Some test;
       t_compute_metrics := Some compute_metrics; t_callbacks := [];
       t_data_collator := DataCollatorWithPadding tokenizer;
       t_processing_class := Some tokenizer |};
  assign "trainer" (VTrainer trainer);;
  trained ← Trainer_train lib trainer;
  assign "trainer" (VTrainer trained).

(** Cell 10: evaluate after fine-tuning. *)
Definition cell_post_evaluation : M unit :=
  trainer ← read "trainer" ≫= trainer_with "evaluate";
  post_finetune_eval ← Trainer_evaluate lib trainer;
  assign "post_finetune_eval" (VMetrics post_finetune_eval).

(** Cell 11: [peft_model.save_pretrained(None)]. *)
Definition cell_save : M unit :=
  peft_model ← read "peft_model" ≫= model_with "save_pretrained";
  save_pretrained lib (Some peft_model) None.

(** Cell 12: [lora_model = None]. *)
Definition cell_reload : M unit :=
  assign "lora_model" VNone.

(** Cell 13: evaluate the loaded model. *)
Definition eval_args : TrainingArguments :=
  {| output_dir := "./result-distilbert-lora";
     learning_rate := 5 # 100000;
     per_device_train_batch_size := 8;
     per_device_eval_batch_size := 4;
     num_train_epochs := 3;
     weight_decay := 0;
     eval_strategy := StrategyNo;
     eval_steps := 500;
     save_strategy := StrategySteps;
     save_steps := 500;
     load_best_model_at_end := false |}.

Definition cell_loaded_evaluation : M unit :=
  lora_model ← read "lora_model" ≫= as_model_or_None;
  args ← call lib op_TrainingArguments (Ok eval_args);
  tokenized_dataset ← read "tokenized_dataset" ≫= as_dataset_dict;
  test ← call lib op_subscript (assoc_get tokenized_dataset "test");
  tokenizer ← read "tokenizer" ≫= as_tokenizer;
  loaded_trainer ← new_Trainer lib
    {| t_model := lora_model; t_args := args;
       t_train_dataset := None; t_eval_dataset := Some test;
       t_compute_metrics := Some compute_metrics; t_callbacks := [];
       t_data_collator := DataCollatorWithPadding tokenizer;
       t_processing_class := Some tokenizer |};
  assign "loaded_trainer" (VTrainer loaded_trainer);;
  loaded_model_eval ← Trainer_evaluate lib loaded_trainer;
  assign "loaded_model_eval" (VMetrics loaded_model_eval).

(** The code cells in notebook order (the last cell is empty). *)
Definition cells : list (M unit) :=
  [ cell_install; cell_imports; cell_load_dataset; cell_tokenize; cell_model;
    cell_pre_evaluation; cell_lora; cell_train; cell_post_evaluation;
    cell_save; cell_reload; cell_loaded_evaluation ].

Definition notebook : M unit := for_each cells (λ c, c).

End Notebook.
End Abhishek.

(** * Concrete worlds to run the notebooks in *)

(** A tokenizer whose vocabulary is the character codes, with DistilBERT's
    special tokens and maximum length. *)
Fixpoint char_codes (s : string) : list Z :=
  match s with
  | EmptyString => []
  | String a s' => Z.of_nat (Ascii.nat_of_ascii a) :: char_codes s'
  end.

Definition char_tokenizer : Tokenizer :=
  {| tokenize_ids := char_codes;
     cls_token_id := 101;
     sep_token_id := 102;
     pad_token_id := 0;
     model_max_length := 512 |}.

Definition table (n : nat) (cols : list (string * list cell)) : Dataset :=
  {| columns := list_to_map cols; num_rows := n |}.

(** Five tweets with the columns of Jacobvs/PoliticalTweets. *)
Definition political_tweets : Dataset :=
  table 5
    [ ("index", CInt <$> [0; 1; 2; 3; 4]%Z);
      ("date", CStr <$> ["2021-01-01"; "2021-01-02"; "2021-01-03"; "2021-01-04"; "2021-01-05"]);
      ("id", CStr <$> ["a"; "b"; "c"; "d"; "e"]);
      ("username", CStr <$> ["u1"; "u2"; "u3"; "u4"; "u5"]);
      ("text", CStr <$> ["taxes"; "health"; "borders"; "schools"; "jobs"]);
      ("party", CStr <$> ["Republican"; "Democrat"; "Republican"; "Democrat"; "Democrat"]) ].

(** Five messages with the columns of sms_spam. *)
Definition sms_spam : Dataset :=
  table 5
    [ ("sms", CStr <$> ["win a prize"; "see you at 5"; "free entry"; "call me"; "ok"]);
      ("label", CInt <$> [1; 0; 1; 0; 0]%Z) ].

(** The first class wins unless the text starts with the letter d. *)
Definition first_letter_forward {W} (m : Model W) (ids mask : list Z) (c : nat) : Q :=
  match c, ids !! 1 with
  | 1, Some 100%Z => 1
  | 0, _ => 1 # 2
  | _, _ => 0
  end.

(** The first class always wins. *)
Definition constant_forward {W} (m : Model W) (ids mask : list Z) (c : nat) : Q :=
  match c with
  | 0 => 1
  | _ => 0
  end.

(** A library that never fails for outside reasons, whose weights are
    counted training runs, whose shuffle reverses and rotates by the seed,
    and whose training lasts every epoch. *)
Definition plain_library (hub : string → result DatasetDict)
    (defaults : string → option (list string))
    (fwd : Model nat → list Z → list Z → nat → Q) : Library nat :=
  {| hub_dataset := hub;
     hub_tokenizer := λ _, Ok char_tokenizer;
     hub_weights := λ _ _, Ok 0;
     cuda_is_available := false;
     rng_permutation := λ seed n, rotate (Z.to_nat seed) (reverse (seq 0 n));
     os_entropy := 7;
     forward := fwd;
     lora_default_targets := defaults;
     inject_adapter := λ w _, w;
     fit := λ t,
       (S (default 0 (weights <$> t_model t)),
        num_train_epochs (t_args t)
        * default 0 (steps_per_epoch t <$> t_train_dataset t));
     load_adapter := λ base saved, saved;
     merge_adapter := λ w, w;
     named_parameters := λ m,
       [ ("encoder.weight",
          {| Counting.numel := 6;
             Counting.requires_grad :=
               match peft_config m with None => true | Some _ => false end |});
         ("classifier.weight", {| Counting.numel := 4; Counting.requires_grad := true |}) ];
     fault := λ _ _, None |}.

(** The hub as the notebooks' recorded outputs and column names describe
    it, and a peft without defaults for these models, as the recorded
    traceback of the second notebook shows. *)
Definition recorded_hub (name : string) : result DatasetDict :=
  if String.eqb name "Jacobvs/PoliticalTweets" then Ok [("train", political_tweets)]
  else if String.eqb name "sms_spam" then Ok [("train", sms_spam)]
  else Raise (OSError "dataset not found").

Definition recorded_library : Library nat :=
  plain_library recorded_hub (λ _, None) first_letter_forward.

(** A hub on which the first notebook runs to its end: 250 rows whose table
    carries, beside "text" and "label", a column under the very name that
    cell 7 asks to remove.  Texts starting with d are labelled 1. *)
Definition obliging_tweets : Dataset :=
  table 250
    [ ("index, date, id, username, text, party", (λ i, CInt (Z.of_nat i)) <$> seq 0 250);
      ("text", (λ i, CStr (if Nat.even i then "dem" else "rep")) <$> seq 0 250);
      ("label", (λ i, CInt (if Nat.even i then 1 else 0)) <$> seq 0 250) ].

Definition obliging_library : Library nat :=
  plain_library (λ _, Ok [("train", obliging_tweets)]) (λ _, None) first_letter_forward.

(** The same kind of table with ten rows, where the texts starting with d
    carry the label -100, the index the loss ignores, under a model that
    always answers 0. *)
Definition mislabelled_tweets : Dataset :=
  table 10
    [ ("index, date, id, username, text, party", (λ i, CInt (Z.of_nat i)) <$> seq 0 10);
      ("text", (λ i, CStr (if Nat.even i then "dem" else "rep")) <$> seq 0 10);
      ("label", (λ i, CInt (if Nat.even i then -100 else 0)) <$> seq 0 10) ].

Definition mislabelled_library : Library nat :=
  plain_library (λ _, Ok [("train", mislabelled_tweets)]) (λ _, None) constant_forward.

(** A hub with both datasets, and a peft whose table of default target
    modules has an entry for DistilBERT: the first notebook runs to its end
    and the second gets as far as its save step. *)
Definition both_hub (name : string) : result DatasetDict :=
  if String.eqb name "Jacobvs/PoliticalTweets" then Ok [("train", obliging_tweets)]
  else if String.eqb name "sms_spam" then Ok [("train", sms_spam)]
  else Raise (OSError "dataset not found").

Definition willing_library : Library nat :=
  plain_library both_hub
    (λ name, if String.eqb name "distilbert-base-uncased" then Some ["q_lin"; "v_lin"]
             else None)
    first_letter_forward.

(** The same library drawing a different entropy. *)
Definition with_entropy {W} (e : Z) (lib : Library W) : Library W :=
  {| hub_dataset := hub_dataset lib;
     hub_tokenizer := hub_tokenizer lib;
     hub_weights := hub_weights lib;
     cuda_is_available := cuda_is_available lib;
     rng_permutation := rng_permutation lib;
     os_entropy := e;
     forward := forward lib;
     lora_default_targets := lora_default_targets lib;
     inject_adapter := inject_adapter lib;
     fit := fit lib;
     load_adapter := load_adapter lib;
     merge_adapter := merge_adapter lib;
     named_parameters := named_parameters lib;
     fault := fault lib |}.

(** The split of the five messages that seed 23 gives under the recorded
    library's shuffle. *)
Definition sms_split : DatasetDict :=
  [ ("train", Dataset_select [0; 4; 3; 2] sms_spam);
    ("test", Dataset_select [1] sms_spam) ].

(** A two-class model, an evaluation trainer around it, a tokenized split of
    two examples and what the prediction loop returns on it. *)
Definition sample_model : Model nat :=
  {| config := {| name_or_path := Part000.MODEL_ID; num_labels := 2;
                  id2label := Part000.id2label_arg; label2id := None |};
     weights := 0; peft_config := None |}.

Definition sample_trainer : Trainer nat :=
  {| t_model := Some sample_model;
     t_args := TrainingArguments_default "./pre_fine_tuning_results";
     t_train_dataset := None; t_eval_dataset := None;
     t_compute_metrics := None; t_callbacks := [];
     t_data_collator := DataCollatorWithPadding char_tokenizer;
     t_processing_class := Some char_tokenizer |}.

Definition sample_split : Dataset :=
  table 2
    [ ("input_ids", CIds <$> [[101; 100; 102]; [101; 114; 101; 102]]%Z);
      ("attention_mask", CIds <$> [[1; 1; 1]; [1; 1; 1; 1]]%Z);
      ("label", CInt <$> [1; 0]%Z) ].

Definition sample_output : PredictionOutput :=
  {| po_predictions := [[1 # 2; 1]; [1 # 2; 0]]%Q;
     po_label_ids := Some [1; 0]%Z;
     po_metrics := None |}.

(** * What is stated about the notebooks *)

(** The fraction of positions at which [preds] and [labels] agree. *)
Definition matching_fraction (preds labels : list Z) : Q :=
  inject_Z (Z.of_nat (count_if (λ p : Z * Z, Z.eqb p.1 p.2) (zip preds labels)))
  / inject_Z (Z.of_nat (length labels)).

(** A number between 0 and 1, so not [nan]. *)
Definition unit_interval (x : np_float) : Prop :=
  ∃ q, x = Num q ∧ (0 <= q <= 1)%Q.

(** [hoare P m Q E]: started in a state of [P], [m] either returns some [a]
    in a state of [Q a] or raises some [e] in a state of [E e]. *)
Definition hoare {W A} (P : World W → Prop) (m : M W A)
    (Q : A → World W → Prop) (E : exn → World W → Prop) : Prop :=
  ∀ s, P s →
    match m s with
    | (Ok a, s') => Q a s'
    | (Raise e, s') => E e s'
    end.

(** No call has failed so far. *)
Definition clean {W} (s : World W) : Prop :=
  Forall is_call (log s) ∧ at_failure s = None.

(** The run ended when a call raised [e]: that failure is the last event,
    no call failed before it, and the variables are those of that moment. *)
Definition failed_with {W} (e : exn) (s : World W) : Prop :=
  (∃ o t, log s = t ++ [EFail o e] ∧ Forall is_call t) ∧
  at_failure s = Some (globals s).

(** The variable [x] holds [v]. *)
Definition holds {W} (x : string) (v : value W) (s : World W) : Prop :=
  globals s !! x = Some v.

(** The variable [x] is not bound. *)
Definition unbound {W} (x : string) (s : World W) : Prop :=
  globals s !! x = None.

(** Nothing is said about the state in which an exception leaves. *)
Definition anyhow {W} (e : exn) (s : World W) : Prop := True.

(** The variables of [g] are bound as in [g]. *)
Definition bound {W} (g : gmap string (value W)) (s : World W) : Prop :=
  g ⊆ globals s.

(** [wpb g m Q]: started with the variables of [g] bound as in [g], when
    [m] returns [a] some variables are bound as in a [g'] with [Q a g']. *)
Definition wpb {W A} (g : gmap string (value W)) (m : M W A)
    (Q : A → gmap string (value W) → Prop) : Prop :=
  ∀ s, bound g s →
    match m s with
    | (Ok a, s') => ∃ g', bound g' s' ∧ Q a g'
    | (Raise e, s') => True
    end.

(** A model configured for two classes with the label mapping [i2l]. *)
Definition two_class {W} (i2l : gmap Z string) (m : Model W) : Prop :=
  num_labels (config m) = 2 ∧ id2label (config m) = i2l.

(** A predicted class: 0 or 1, and a key of [i2l]. *)
Definition label_key (i2l : gmap Z string) (c : Z) : Prop :=
  (c = 0 ∨ c = 1)%Z ∧ is_Some (i2l !! c).

(** What a notebook variable may hold: models and trainers of two classes,
    and in [test_preds] only keys of the label mapping. *)
Definition binary_value {W} (i2l : gmap Z string) (x : string) (v : value W) : Prop :=
  match v with
  | VModel m => two_class i2l m
  | VTrainer t => ∀ m, t_model t = Some m → two_class i2l m
  | VArray a => x = "test_preds" → Forall (label_key i2l) a
  | _ => True
  end.

(** Every variable holds a value that [φ] allows. *)
Definition governed {W} (φ : string → value W → Prop) (s : World W) : Prop :=
  ∀ x v, globals s !! x = Some v → φ x v.

(** [wp φ m Q]: [m] keeps the variables within [φ], and a value it returns
    satisfies [Q]. *)
Definition wp {W A} (φ : string → value W → Prop) (m : M W A) (Q : A → Prop) : Prop :=
  ∀ s, governed φ s →
    match m s with
    | (Ok a, s') => governed φ s' ∧ Q a
    | (Raise e, s') => governed φ s'
    end.

(** What the libraries write, and where: packages in site-packages,
    downloads and map results in the hub cache, a saved model with its
    tokenizer and training arguments in a directory, and in a checkpoint
    also the state needed to resume. *)
Definition allowed_file {W} (f : file W) : bool :=
  match loc f, kind f with
  | SitePackages, Package => true
  | HubCache, (CachedDataset | CachedTokenizer | CachedModel) => true
  | Dir _, (ModelWeights | ModelConfig | ModelCard | TokenizerFiles | TrainingArgsBin) => true
  | Checkpoint _ _,
    (ModelWeights | ModelConfig | ModelCard | TokenizerFiles | TrainingArgsBin
     | OptimizerState | SchedulerState | RngState | TrainerState) => true
  | _, _ => false
  end.

(** Directories a model can be saved to. *)
Definition is_save_dir (l : location) : bool :=
  match l with Dir _ | Checkpoint _ _ => true | _ => false end.

(** Where the first notebook writes: site-packages, the hub cache, the
    checkpoint directories under [ADAPTER_PATH] and the directory
    [final_model_path]. *)
Definition part000_place (l : location) : bool :=
  match l with
  | SitePackages | HubCache => true
  | Dir path => String.eqb path Part000.final_model_path
  | Checkpoint out _ => String.eqb out Part000.ADAPTER_PATH
  end.

(** Where the second notebook writes: site-packages, the hub cache and the
    checkpoint directories under "./result-distilbert-lora". *)
Definition abhishek_place (l : location) : bool :=
  match l with
  | SitePackages | HubCache => true
  | Dir _ => false
  | Checkpoint out _ => String.eqb out "./result-distilbert-lora"
  end.

(** Every file on the disk lies at a place that [ok] admits. *)
Definition placed {W} (ok : location → bool) (s : World W) : Prop :=
  Forall (λ f, ok (loc f) = true) (disk s).

(** A file the libraries write, at a place that [ok] admits. *)
Definition written_at {W} (ok : location → bool) (f : file W) : bool :=
  allowed_file f && ok (loc f).

(** The disk [d] is the disk [d0] after such files were written: every
    file of [d] is a file of [d0] as it was, or was written; and every file
    of [d0] is still in [d] as it was, unless a written file has taken its
    name and place. *)
Definition changed_from {W} (ok : location → bool) (d0 d : list (file W)) : Prop :=
  (∀ f, f ∈ d → f ∈ d0 ∨ written_at ok f = true) ∧
  (∀ f, f ∈ d0 →
        f ∈ d ∨ ∃ g, g ∈ d ∧ same_place f g = true ∧ written_at ok g = true).

(** A fresh kernel on a disk that holds [d0]. *)
Definition kernel_on {W} (d0 : list (file W)) : World W :=
  {| globals := ∅; disk := d0; log := []; at_failure := None |}.

(** What the variables of the first notebook that name a directory hold. *)
Definition part000_paths {W} (x : string) (v : value W) : Prop :=
  match v with
  | VStr p =>
      (x = "ADAPTER_PATH" → p = Part000.ADAPTER_PATH) ∧
      (x = "final_model_path" → p = Part000.final_model_path)
  | VTrainingArguments a => x = "training_args" → output_dir a = Part000.ADAPTER_PATH
  | VTrainer t => x = "trainer" → output_dir (t_args t) = Part000.ADAPTER_PATH
  | _ => True
  end.

(** [wpd φ ok d0 m Q]: [m] keeps the variables within [φ], changes the disk
    [d0] only by writing files at places of [ok], and a value it returns
    satisfies [Q]. *)
Definition wpd {W A} (φ : string → value W → Prop) (ok : location → bool)
    (d0 : list (file W)) (m : M W A) (Q : A → Prop) : Prop :=
  ∀ s, governed φ s → changed_from ok d0 (disk s) →
    match m s with
    | (Ok a, s') => governed φ s' ∧ changed_from ok d0 (disk s') ∧ Q a
    | (Raise e, s') => governed φ s' ∧ changed_from ok d0 (disk s')
    end.

(** The stages of the first notebook, in the order of its cells. *)
Definition part000_stages : list stage :=
  [ LoadDataset; LoadTokenizer; LoadModel; Tokenize; Evaluate; ConfigureAdapter;
    Train; Save; Save; Reload; Evaluate; Evaluate ].

(** The stages a run of the second notebook can complete, in the order of
    its cells: its next step, [peft_model.save_pretrained(None)], raises in
    every run. *)
Definition abhishek_stages : list stage :=
  [ LoadDataset; LoadTokenizer; Tokenize; Tokenize; LoadModel; ConfigureAdapter;
    Train; Evaluate ].

(** The run has completed [done] and then the first [k] stages of [todo]. *)
Definition at_stage {W} (done todo : list stage) (k : nat) (s : World W) : Prop :=
  stages (log s) = done ++ take k todo.

(** The stages completed so far are the beginning of [todo]. *)
Definition within {W} (todo : list stage) (s : World W) : Prop :=
  stages (log s) `prefix_of` todo.

(** A sequence of at most [limit] token ids with an attention mask of ones
    over all of it, ending in the separator: nothing was padded. *)
Definition tokenized_within (tok : Tokenizer) (limit : nat) (ids mask : list Z) : Prop :=
  (length ids ≤ limit)%nat ∧
  mask = replicate (length ids) 1%Z ∧
  last ids = Some (sep_token_id tok).

(** [row'] is [row] followed by [fill]s, up to [width] entries. *)
Definition padded_to (fill : Z) (width : nat) (row row' : list Z) : Prop :=
  length row' = width ∧ ∃ k, row' = row ++ replicate k fill.

(** A table as the mapped tokenizer leaves it: next to the column [key] of
    texts it has, row for row, the token ids of each text, cut to [limit]
    with the two special tokens counted in, and a mask; no row is padded. *)
Definition tokenized_split (tok : Tokenizer) (key : string) (limit : nat) (ds : Dataset)
    : Prop :=
  ∃ texts ids masks,
    columns ds !! key = Some (CStr <$> texts) ∧
    columns ds !! "input_ids" = Some (CIds <$> ids) ∧
    columns ds !! "attention_mask" = Some (CIds <$> masks) ∧
    ids = encode_one tok true limit <$> texts ∧
    Forall2 (tokenized_within tok limit) ids masks.

(** [map] leaves a table without rows untokenized. *)
Definition tokenized_table (tok : Tokenizer) (key : string) (limit : nat) (ds : Dataset)
    : Prop :=
  num_rows ds = 0 ∨ tokenized_split tok key limit ds.

(** What the variables hold in a run that loads its tokenizer from the hub
    entry [name] and tokenizes the column [key]: every tokenizer is the
    hub's, every split of [tokenized_dataset] is tokenized with it, and
    every Trainer pads with [DataCollatorWithPadding] of that tokenizer and
    has tokenized splits to train and to evaluate on. *)
Definition tokenized_run {W} (lib : Library W) (name key : string)
    (limit : Tokenizer → nat) (x : string) (v : value W) : Prop :=
  match v with
  | VStr s => x = "MODEL_ID" → s = name
  | VTokenizer tok => hub_tokenizer lib name = Ok tok
  | VDatasetDict dd =>
      x = "tokenized_dataset" →
      ∃ tok, hub_tokenizer lib name = Ok tok ∧
             Forall (λ kv, tokenized_table tok key (limit tok) kv.2) dd
  | VTrainer t =>
      ∃ tok, hub_tokenizer lib name = Ok tok ∧
             t_data_collator t = DataCollatorWithPadding tok ∧
             (∀ ds, t_train_dataset t = Some ds → tokenized_table tok key (limit tok) ds) ∧
             (∀ ds, t_eval_dataset t = Some ds → tokenized_table tok key (limit tok) ds)
  | _ => True
  end.

(** The first notebook splits once and maps the whole split dataset. *)
Definition train_and_test {W} (x : string) (v : value W) : Prop :=
  match v with
  | VDatasetDict dd =>
      x = "split_dataset" ∨ x = "tokenized_dataset" → dd.*1 = ["train"; "test"]
  | _ => True
  end.

Definition part000_tokenized {W} (lib : Library W) (x : string) (v : value W) : Prop :=
  tokenized_run lib Part000.MODEL_ID "text" (λ _, 128) x v ∧ train_and_test x v.

Definition abhishek_tokenized {W} (lib : Library W) (x : string) (v : value W) : Prop :=
  tokenized_run lib "distilbert-base-uncased" "sms" model_max_length x v.

(** What [evaluate_model] has the library compute before it returns: the
    prediction loop of a Trainer with default arguments around the given
    model, padding with the collator of the notebook's tokenizer, and the
    classes of its logits, which with the labels pass the checks of the
    classification report. *)
Definition evaluated_through {W} (lib : Library W) (tok : Tokenizer) (model : Model W)
    (ds : Dataset) : Prop :=
  ∃ t out labels preds,
    t_model t = Some model ∧
    t_args t = TrainingArguments_default "./pre_fine_tuning_results" ∧
    t_compute_metrics t = None ∧
    t_data_collator t = DataCollatorWithPadding tok ∧
    prediction_loop lib t ds = Ok out ∧
    np_argmax_axis1 (po_predictions out) = Ok preds ∧
    po_label_ids out = Some labels ∧
    length labels = length preds ∧
    length (unique_labels labels preds) = 2.

(** Each batch of the loop is padded to its own longest row. *)
Definition padded_per_batch (tok : Tokenizer) (size : nat) (b : BatchEncoding) : Prop :=
  (length (input_ids b) ≤ size)%nat ∧
  Forall2 (padded_to (pad_token_id tok) (max_len (input_ids b)))
    (input_ids b) (input_ids (DataCollatorWithPadding tok b)) ∧
  Forall2 (padded_to 0 (max_len (input_ids b)))
    (attention_mask b) (attention_mask (DataCollatorWithPadding tok b)).

(** The batch function [fn] is a tokenizer call on the column [key] with
    truncation to [limit] and without padding. *)
Definition tokenizes (tok : Tokenizer) (key : string) (max_length : option nat)
    (fn : gmap string (list cell) → result (gmap string (list cell))) : Prop :=
  ∀ b out, fn b = Ok out →
    ∃ texts, b !! key = Some (CStr <$> texts) ∧
             out = encoding_columns (batch_encode_plus tok texts true max_length DoNotPad).

(** The columns of a tokenized batch or table, for the texts [texts]. *)
Definition tokenized_columns (tok : Tokenizer) (key : string) (max_length : option nat)
    (cols : gmap string (list cell)) (texts : list string) : Prop :=
  cols !! key = Some (CStr <$> texts) ∧
  cols !! "input_ids"
  = Some (CIds <$> input_ids (batch_encode_plus tok texts true max_length DoNotPad)) ∧
  cols !! "attention_mask"
  = Some (CIds <$> attention_mask (batch_encode_plus tok texts true max_length DoNotPad)).

(** The loop of the second notebook has tokenized both splits. *)
Definition both_splits {W} (s : World W) : Prop :=
  ∃ train test,
    globals s !! "tokenized_dataset"
    = Some (VDatasetDict [("train", train); ("test", test)]).

(** Two computations that behave alike from every state. *)
Definition agree {W A} (m1 m2 : M W A) : Prop := ∀ s, m1 s = m2 s.

(** Two libraries that differ at most in the entropy they would draw. *)
Definition same_but_entropy {W} (lib1 lib2 : Library W) : Prop :=
  (∀ name, hub_dataset lib1 name = hub_dataset lib2 name) ∧
  (∀ seed n, rng_permutation lib1 seed n = rng_permutation lib2 seed n) ∧
  (∀ l o, fault lib1 l o = fault lib2 l o).

(** [v] is the split of the hub table [name] under the seed [seed]: the
    train split of the hub's dataset, shuffled with that seed whatever
    entropy the run would draw, a fifth of its rows (rounded up) in the test
    part and the rest in the train part. *)
Definition seeded_split {W} (lib : Library W) (name : string) (seed : Z) (v : value W)
    : Prop :=
  ∃ hub table train test,
    hub_dataset lib name = Ok hub ∧
    assoc_get hub "train" = Ok table ∧
    v = VDatasetDict [("train", train); ("test", test)] ∧
    (∀ entropy,
       train_test_split (rng_permutation lib) entropy (2 # 10) (Some seed) table
       = Ok [("train", train); ("test", test)]) ∧
    (num_rows table ≤ 5 * num_rows test < num_rows table + 5)%nat ∧
    (num_rows train + num_rows test = num_rows table)%nat.

(** What the first notebook's variables hold of its split: the dataset's
    name, and in [split_dataset] the split under seed 42. *)
Definition part000_split {W} (lib : Library W) (x : string) (v : value W) : Prop :=
  (x = "DATASET_NAME" → v = VStr Part000.DATASET_NAME) ∧
  (x = "split_dataset" → seeded_split lib Part000.DATASET_NAME 42 v).

(** The second notebook keeps the split of sms_spam under seed 23 in
    [dataset]. *)
Definition abhishek_split {W} (lib : Library W) (x : string) (v : value W) : Prop :=
  x = "dataset" → seeded_split lib "sms_spam" 23 v.

(** The first split of [dd] has no column named like the whole list. *)
Definition lacks_joined_column (dd : DatasetDict) : Prop :=
  ∃ k ds rest, dd = (k, ds) :: rest ∧
    columns ds !! "index, date, id, username, text, party" = None.

(** The variable [split_dataset] holds only such splits. *)
Definition split_lacks_joined_column {W} (x : string) (v : value W) : Prop :=
  x = "split_dataset" → ∃ dd, v = VDatasetDict dd ∧ lacks_joined_column dd.

(** The hub's tables have no such column. *)
Definition hub_lacks_joined_column {W} (lib : Library W) : Prop :=
  ∀ name dd ds,
    hub_dataset lib name = Ok dd → assoc_get dd "train" = Ok ds →
    columns ds !! "index, date, id, username, text, party" = None.

(** The order of stages in the sentence of the specification. *)
Definition claimed_order : list stage :=
  [LoadDataset; LoadTokenizer; LoadModel; ConfigureAdapter; Train; Evaluate; Save].

(** The stages that sentence names (it has no word for tokenizing or for
    loading the saved adapter back). *)
Definition named_in_claim (st : stage) : bool :=
  bool_decide (st ∈ claimed_order).

(** Immediate repetitions of a stage count once. *)
Fixpoint merge_repeats (t : list stage) : list stage :=
  match t with
  | [] => []
  | st :: t' =>
      match t' with
      | st' :: _ => if bool_decide (st = st') then merge_repeats t' else st :: merge_repeats t'
      | [] => [st]
      end
  end.

(** The run went through exactly the stages of the sentence, in its order. *)
Definition follows_claimed_order (t : list stage) : bool :=
  bool_decide (merge_repeats (filter (λ st, named_in_claim st = true) t) = claimed_order).

(** No evaluation comes before the adapter is configured. *)
Fixpoint no_evaluation_before_adapter (t : list stage) : bool :=
  match t with
  | [] => true
  | ConfigureAdapter :: _ => true
  | Evaluate :: _ => false
  | _ :: t' => no_evaluation_before_adapter t'
  end.

(** The step before a save is an evaluation (or another save). *)
Fixpoint save_follows_evaluation (prev : option stage) (t : list stage) : bool :=
  match t with
  | [] => true
  | Save :: t' =>
      match prev with
      | Some Evaluate | Some Save => save_follows_evaluation (Some Save) t'
      | _ => false
      end
  | st :: t' => save_follows_evaluation (Some st) t'
  end.

(** Model weights (with their configuration) and tokenizer files. *)
Definition weights_or_tokenizer (k : file_kind) : bool :=
  match k with
  | ModelWeights | ModelConfig | TokenizerFiles => true
  | _ => false
  end.

(** A file of kind [k] lies at [l]. *)
Definition on_disk {W} (l : location) (k : file_kind) (d : list (file W)) : bool :=
  bool_decide (Exists (λ f, loc f = l ∧ kind f = k) d).

(** A disk that holds an earlier model in the first notebook's save
    directory and a file in a directory of no notebook. *)
Definition earlier_disk : list (file nat) :=
  [ {| loc := Dir Part000.final_model_path; kind := ModelWeights; payload := None |};
    plain (Dir "./notes") TrainingArgsBin ].

(** The file at the place of [f], if [d] has one. *)
Definition file_at {W} (f : file W) (d : list (file W)) : option (file W) :=
  head (filter (λ g, same_place g f = true) d).

(** A label cell of the two-class data model: the integer 0 or 1. *)
Definition is_binary (c : cell) : bool :=
  match c with
  | CInt 0 | CInt 1 => true
  | _ => false
  end.

(** The label column of a table or batch, under either of the names the
    Trainer reads it by, holds binary labels only. *)
Definition binary_labels (cols : gmap string (list cell)) : Prop :=
  ∀ k col, k = "label" ∨ k = "labels" → cols !! k = Some col →
           Forall (λ c, is_binary c = true) col.

(** The hub's tables carry binary labels: the data model of the
    specification. *)
Definition binary_hub {W} (lib : Library W) : Prop :=
  ∀ name dd, hub_dataset lib name = Ok dd →
             Forall (λ kv, binary_labels (columns kv.2)) dd.

(** One of the two classes. *)
Definition binary_label (z : Z) : Prop := z = 0%Z ∨ z = 1%Z.

(** What the variables hold of the labels: tables with binary labels,
    Trainers on such tables, and predictions and label arrays with binary
    labels. *)
Definition binary_data {W} (x : string) (v : value W) : Prop :=
  match v with
  | VDataset ds => binary_labels (columns ds)
  | VDatasetDict dd => Forall (λ kv, binary_labels (columns kv.2)) dd
  | VTrainer t =>
      (∀ ds, t_train_dataset t = Some ds → binary_labels (columns ds)) ∧
      (∀ ds, t_eval_dataset t = Some ds → binary_labels (columns ds))
  | VPrediction out => ∀ l, po_label_ids out = Some l → Forall binary_label l
  | VLabels a => ∀ l, a = Some l → Forall binary_label l
  | _ => True
  end.

(** What [evaluate_model] hands to its reports: the labels and the predicted
    classes of a prediction loop around the given model, the labels binary. *)
Definition reported_on_binary {W} (lib : Library W) (model : Model W) (ds : Dataset)
    : Prop :=
  ∃ t out labels preds,
    t_model t = Some model ∧
    prediction_loop lib t ds = Ok out ∧
    po_label_ids out = Some labels ∧
    np_argmax_axis1 (po_predictions out) = Ok preds ∧
    length labels = length preds ∧
    Forall binary_label labels.

(** The batch function adds no label column. *)
Definition adds_no_labels
    (fn : gmap string (list cell) → result (gmap string (list cell))) : Prop :=
  ∀ b out, fn b = Ok out → out !! "label" = None ∧ out !! "labels" = None.

(** The labels of the last prediction the notebook stored. *)
Definition consumed_labels {W} (s : World W) : option (list Z) :=
  match globals s !! "test_output" with
  | Some (VPrediction out) => po_label_ids out
  | _ => None
  end.

(** The float is the number [q]. *)
Definition is_num (q : Q) (x : np_float) : Prop :=
  ∃ q', x = Num q' ∧ (q' == q)%Q.

(** The quotient of two counts.  A metric that is one such quotient is, as
    a double, that quotient rounded once. *)
Definition ratio (num den : nat) : Q :=
  inject_Z (Z.of_nat num) / inject_Z (Z.of_nat den).

(** The entries of all parameters, and of those that take gradients. *)
Definition all_entries (ps : list (string * Counting.Tensor)) : N :=
  foldr N.add 0%N ((λ p, Counting.numel p.2) <$> ps).

Definition trainable_entries (ps : list (string * Counting.Tensor)) : N :=
  foldr N.add 0%N
    ((λ p, Counting.numel p.2) <$> filter (λ p, Counting.requires_grad p.2 = true) ps).

(** Every column of the table has one entry per row. *)
Definition well_formed (ds : Dataset) : Prop :=
  ∀ c col, columns ds !! c = Some col → length col = num_rows ds.

(** The rows [j * 1000, (j + k) * 1000) of a column. *)
Definition window (j k : nat) (col : list cell) : list cell :=
  take (k * batch_size_default) (drop (j * batch_size_default) col).

(** The trainer [t] without its [compute_metrics]. *)
Definition without_metrics {W} (t : Trainer W) : Trainer W :=
  {| t_model := t_model t; t_args := t_args t;
     t_train_dataset := t_train_dataset t; t_eval_dataset := t_eval_dataset t;
     t_compute_metrics := None; t_callbacks := t_callbacks t;
     t_data_collator := t_data_collator t;
     t_processing_class := t_processing_class t |}.

(** The first notebook's training Trainer in small: the sample trainer with
    [compute_metrics]. *)
Definition metrics_trainer : Trainer nat :=
  {| t_model := Some sample_model;
     t_args := Part000.training_args Part000.ADAPTER_PATH;
     t_train_dataset := None; t_eval_dataset := Some sample_split;
     t_compute_metrics := Some (λ p, metrics_to_dict <$> compute_metrics p);
     t_callbacks := [Part000.early_stopping];
     t_data_collator := DataCollatorWithPadding char_tokenizer;
     t_processing_class := Some char_tokenizer |}.

(** The positions from [j] on where [x] and [y] differ. *)
Definition differing_from (j : nat) (x y : list Z) : list nat :=
  omap (λ p : nat * (Z * Z), if Z.eqb p.2.1 p.2.2 then None else Some p.1)
       (zip (seq j (length x)) (zip x y)).

(** The variables and the disk are those of [s0], and the log has only
    grown. *)
Definition untouched {W} (s0 s : World W) : Prop :=
  globals s = globals s0 ∧ disk s = disk s0 ∧ log s0 `prefix_of` log s.

(** A kernel in which the error analysis can run: the sample trainer, its
    tokenized test split, and the raw tweets as [split_dataset]. *)
Definition analysis_kernel : World nat :=
  {| globals :=
       {[ "trainer" := VTrainer sample_trainer;
          "tokenized_dataset" := VDatasetDict [("test", sample_split)];
          "split_dataset" := VDatasetDict [("test", political_tweets)] ]};
     disk := []; log := []; at_failure := None |}.

(** The variables of [g] are bound as in [g], and the disk is [d]. *)
Definition known {W} (g : gmap string (value W)) (d : list (file W)) (s : World W) : Prop :=
  g ⊆ globals s ∧ disk s = d.

(** A kernel after training, in small: the trainer holds an adapter model. *)
Definition adapter_model : Model nat :=
  {| config := config sample_model; weights := 1;
     peft_config := Some Part000.dora_config |}.

Definition trained_kernel : World nat :=
  {| globals :=
       {[ "trainer" := VTrainer
            {| t_model := Some adapter_model;
               t_args := Part000.training_args Part000.ADAPTER_PATH;
               t_train_dataset := Some sample_split; t_eval_dataset := Some sample_split;
               t_compute_metrics := None; t_callbacks := [];
               t_data_collator := DataCollatorWithPadding char_tokenizer;
               t_processing_class := Some char_tokenizer |};
          "tokenizer" := VTokenizer char_tokenizer;
          "base_model" := VModel sample_model ]};
     disk := []; log := []; at_failure := None |}.

(** What a tokenizing function returns on the column [col] of its batch,
    with the tokenizer's [max_length]: on an empty list the fast tokenizer
    raises [IndexError]; a list whose first entry is neither a string nor
    an empty list is refused with [ValueError]; a list that passed that
    check but holds something other than strings, with [TypeError]; a
    non-empty list of strings gives the two columns of its encoding. *)
Definition tokenized_column (tok : Tokenizer) (max_length : option nat)
    (col : list cell) (r : result (gmap string (list cell))) : Prop :=
  match col with
  | [] => r = Raise (IndexError "list index out of range")
  | _ :: _ =>
      (∀ out, r = Ok out ↔
              ∃ texts, col = CStr <$> texts ∧
                       out = encoding_columns
                               (batch_encode_plus tok texts true max_length DoNotPad)) ∧
      (is_valid_text_input col = false →
       r = Raise (ValueError "text input must be of type str")) ∧
      (is_valid_text_input col = true → (∀ texts, col ≠ CStr <$> texts) →
       r = Raise not_text_input)
  end.

(** * Proofs *)

Lemma count_if_cons {A} (f : A → bool) x l :
  count_if f (x :: l) = (if f x then 1 else 0) + count_if f l.
Proof.
  unfold count_if. rewrite filter_cons.
  destruct (f x); case_decide; simpl; congruence.
Qed.

Lemma count_if_le_length {A} (f : A → bool) l : (count_if f l ≤ length l)%nat.
Proof. unfold count_if. apply length_filter. Qed.

Lemma np_argmax_axis1_total (a : list (list Q)) :
  Forall (λ row, row ≠ []) a →
  ∃ preds, np_argmax_axis1 a = Ok preds ∧ length preds = length a.
Proof.
  induction 1 as [|row a Hrow _ [preds [IH Hlen]]]; simpl.
  - by exists [].
  - destruct row as [|x row]; [done|]. simpl. rewrite IH. simpl.
    eexists. split; [reflexivity|]. simpl. by rewrite Hlen.
Qed.

Lemma Qsum_indicator (x y : list Z) :
  (Qsum (bool_to_Q <$> np_eq x y)
   == inject_Z (Z.of_nat (count_if (λ p : Z * Z, Z.eqb p.1 p.2) (zip x y))))%Q.
Proof.
  revert y. induction x as [|a x IH]; intros [|b y]; simpl; try reflexivity.
  rewrite count_if_cons. simpl. rewrite IH.
  destruct (Z.eqb a b); simpl.
  - rewrite Nat2Z.inj_succ, <- Z.add_1_l, inject_Z_plus. reflexivity.
  - ring.
Qed.

Lemma inject_nat_pos n : n ≠ 0 → (0 < inject_Z (Z.of_nat n))%Q.
Proof. intros. change 0%Q with (inject_Z 0). rewrite <- Zlt_Qlt. lia. Qed.

Lemma ratio_unit (a b : nat) :
  (a ≤ b)%nat → b ≠ 0 →
  (0 <= inject_Z (Z.of_nat a) / inject_Z (Z.of_nat b) <= 1)%Q.
Proof.
  intros Hab Hb. pose proof (inject_nat_pos b Hb) as Hpos.
  split.
  - apply Qle_shift_div_l; [done|]. rewrite Qmult_0_l.
    change 0%Q with (inject_Z 0). rewrite <- Zle_Qle. lia.
  - apply Qle_shift_div_r; [done|]. rewrite Qmult_1_l.
    rewrite <- Zle_Qle. lia.
Qed.

Lemma prf_divide_unit (num den : nat) :
  (num ≤ den)%nat → (0 <= prf_divide num den 0 <= 1)%Q.
Proof.
  intros Hle. unfold prf_divide. destruct (Nat.eqb_spec den 0).
  - split; [apply Qle_refl | discriminate].
  - by apply ratio_unit.
Qed.

Lemma Qsum_bounds (l : list Q) :
  Forall (λ q, 0 <= q <= 1)%Q l →
  (0 <= Qsum l <= inject_Z (Z.of_nat (length l)))%Q.
Proof.
  induction 1 as [|q l [Hq0 Hq1] _ [IH0 IH1]]; simpl.
  - split; apply Qle_refl.
  - rewrite Nat2Z.inj_succ, <- Z.add_1_l, inject_Z_plus. split.
    + replace 0%Q with (0 + 0)%Q by reflexivity. by apply Qplus_le_compat.
    + by apply Qplus_le_compat.
Qed.

Lemma np_mean_unit (l : list Q) :
  l ≠ [] → Forall (λ q, 0 <= q <= 1)%Q l → unit_interval (np_mean l).
Proof.
  intros Hne Hall. destruct l as [|q l]; [done|].
  eexists. split; [reflexivity|].
  pose proof (Qsum_bounds _ Hall) as [H0 H1].
  assert (0 < inject_Z (Z.of_nat (length (q :: l))))%Q as Hpos
    by (apply inject_nat_pos; simpl; lia).
  split.
  - apply Qle_shift_div_l; [done|]. by rewrite Qmult_0_l.
  - apply Qle_shift_div_r; [done|]. by rewrite Qmult_1_l.
Qed.

Lemma true_positives_le_pred y_true y_pred c :
  (true_positives y_true y_pred c ≤ count_if (Z.eqb c) y_pred)%nat.
Proof.
  unfold true_positives. revert y_pred.
  induction y_true as [|a y IH]; intros [|b y_pred]; simpl;
    rewrite ?count_if_cons; try (unfold count_if; simpl; lia).
  specialize (IH y_pred). simpl.
  rewrite (Z.eqb_sym c b).
  destruct (Z.eqb a c), (Z.eqb b c); simpl; lia.
Qed.

Lemma true_positives_le_true y_true y_pred c :
  (true_positives y_true y_pred c ≤ count_if (Z.eqb c) y_true)%nat.
Proof.
  unfold true_positives. revert y_pred.
  induction y_true as [|a y IH]; intros [|b y_pred]; simpl;
    rewrite ?count_if_cons; try (unfold count_if; simpl; lia).
  specialize (IH y_pred). simpl.
  rewrite (Z.eqb_sym c a).
  destruct (Z.eqb a c), (Z.eqb b c); simpl; lia.
Qed.

Lemma unique_labels_nonempty y_true y_pred :
  y_true ≠ [] → unique_labels y_true y_pred ≠ [].
Proof.
  intros Hne Hnil. unfold unique_labels in Hnil.
  pose proof (merge_sort_Permutation Z.le (remove_dups (y_true ++ y_pred))) as Hp.
  rewrite Hnil in Hp. apply Permutation_nil_l in Hp.
  destruct y_true as [|a y]; [done|].
  assert (a ∈ remove_dups ((a :: y) ++ y_pred)) as Hin
    by (apply elem_of_remove_dups; set_solver).
  rewrite <- Hp in Hin. by apply elem_of_nil in Hin.
Qed.

Lemma class_scores_unit y_true y_pred c :
  (0 <= class_precision 0 y_true y_pred c <= 1)%Q ∧
  (0 <= class_recall 0 y_true y_pred c <= 1)%Q ∧
  (0 <= class_f1 0 y_true y_pred c <= 1)%Q.
Proof.
  pose proof (true_positives_le_pred y_true y_pred c).
  pose proof (true_positives_le_true y_true y_pred c).
  repeat split; apply prf_divide_unit; lia.
Qed.

(** C8, amended.  For logits and labels of the same non-zero length, each
    logit row having at least one entry, [compute_metrics] returns: the
    accuracy is the fraction of positions where the argmax equals the label,
    a number between 0 and 1, and precision, recall and F1 are the means over
    the classes present of the per-class scores with [zero_division=0], each
    between 0 and 1.  It does not raise. *)
Theorem compute_metrics_on_nonempty_arrays (p : EvalPrediction) :
  length (predictions p) = length (label_ids p) →
  predictions p ≠ [] →
  Forall (λ row, row ≠ []) (predictions p) →
  ∃ preds m acc,
    np_argmax_axis1 (predictions p) = Ok preds ∧
    compute_metrics p = Ok m ∧
    accuracy m = Num acc ∧
    (acc == matching_fraction preds (label_ids p))%Q ∧
    (0 <= acc <= 1)%Q ∧
    macro_precision m
      = np_mean (class_precision 0 (label_ids p) preds <$> unique_labels (label_ids p) preds) ∧
    macro_recall m
      = np_mean (class_recall 0 (label_ids p) preds <$> unique_labels (label_ids p) preds) ∧
    macro_f1 m
      = np_mean (class_f1 0 (label_ids p) preds <$> unique_labels (label_ids p) preds) ∧
    unit_interval (macro_precision m) ∧
    unit_interval (macro_recall m) ∧
    unit_interval (macro_f1 m).
Proof.
  destruct p as [logits labels]. simpl. intros Hlen Hne Hrows.
  destruct (np_argmax_axis1_total logits Hrows) as [preds [Hpreds Hplen]].
  assert (labels ≠ []) as Hlne by (destruct labels, logits; done).
  assert (length labels = length preds) as Hll by congruence.
  unfold compute_metrics. simpl. rewrite Hpreds. simpl.
  unfold precision_recall_fscore_support_macro.
  rewrite Hll, Nat.eqb_refl. simpl.
  pose proof (unique_labels_nonempty labels preds Hlne) as Hcls.
  destruct labels as [|l0 labels]; [done|].
  destruct preds as [|p0 preds]; [done|].
  eexists _, _, _. split; [reflexivity|]. split; [reflexivity|].
  split; [reflexivity|]. simpl accuracy.
  assert (Qsum (bool_to_Q <$> np_eq (p0 :: preds) (l0 :: labels))
            / inject_Z (Z.of_nat (length (bool_to_Q <$> np_eq (p0 :: preds) (l0 :: labels))))
          == matching_fraction (p0 :: preds) (l0 :: labels))%Q as Hacc.
  { unfold matching_fraction. rewrite Qsum_indicator.
    rewrite length_fmap. unfold np_eq. rewrite length_zip_with.
    rewrite Hll. rewrite Nat.min_id. reflexivity. }
  split; [exact Hacc|]. split.
  { rewrite Hacc. unfold matching_fraction. apply ratio_unit; [|done].
    etrans; [apply count_if_le_length|]. rewrite length_zip. lia. }
  split; [reflexivity|]. split; [reflexivity|]. split; [reflexivity|].
  simpl macro_precision. simpl macro_recall. simpl macro_f1.
  repeat split; (apply np_mean_unit;
    [ intros Hnil; apply fmap_nil_inv in Hnil; done
    | apply Forall_fmap, Forall_forall; intros c _; apply class_scores_unit ]).
Qed.

Lemma compute_metrics_nonempty_witness :
  ∃ preds m acc,
    np_argmax_axis1 [[1 # 2; 3 # 2]; [2; 1]; [0; 0]]%Q = Ok preds ∧
    compute_metrics {| predictions := [[1 # 2; 3 # 2]; [2; 1]; [0; 0]]%Q;
                       label_ids := [1; 1; 0]%Z |} = Ok m ∧
    accuracy m = Num acc ∧
    (acc == matching_fraction preds [1; 1; 0]%Z)%Q ∧
    (0 <= acc <= 1)%Q ∧
    macro_precision m
      = np_mean (class_precision 0 [1; 1; 0]%Z preds <$> unique_labels [1; 1; 0]%Z preds) ∧
    macro_recall m
      = np_mean (class_recall 0 [1; 1; 0]%Z preds <$> unique_labels [1; 1; 0]%Z preds) ∧
    macro_f1 m
      = np_mean (class_f1 0 [1; 1; 0]%Z preds <$> unique_labels [1; 1; 0]%Z preds) ∧
    unit_interval (macro_precision m) ∧
    unit_interval (macro_recall m) ∧
    unit_interval (macro_f1 m).
Proof.
  apply (compute_metrics_on_nonempty_arrays
           {| predictions := [[1 # 2; 3 # 2]; [2; 1]; [0; 0]]%Q;
              label_ids := [1; 1; 0]%Z |}).
  - reflexivity.
  - discriminate.
  - repeat constructor; discriminate.
Defined.

(** C8, as stated, fails on two pairs of arrays of equal length: on empty
    arrays the accuracy is not a number, and on a logit row without entries
    the argmax raises. *)
Lemma compute_metrics_degenerate_arrays :
  (length (predictions {| predictions := []; label_ids := [] |})
     = length (label_ids {| predictions := []; label_ids := [] |}) ∧
   accuracy <$> compute_metrics {| predictions := []; label_ids := [] |} = Ok NaN) ∧
  (length (predictions {| predictions := [[]]; label_ids := [0%Z] |})
     = length (label_ids {| predictions := [[]]; label_ids := [0%Z] |}) ∧
   compute_metrics {| predictions := [[]]; label_ids := [0%Z] |}
     = Raise (ValueError "attempt to get argmax of an empty sequence")).
Proof. repeat split. Qed.

Create HintDb notebook.
Hint Unfold load_dataset load_dataset_split AutoTokenizer_from_pretrained
  AutoModelForSequenceClassification_from_pretrained Dataset_train_test_split
  get_peft_model new_Trainer Trainer_predict Trainer_evaluate Trainer_train
  Trainer_save_model tokenizer_save_pretrained save_pretrained
  PeftModel_from_pretrained merge_and_unload classification_report
  argmax_axis1 shell wrong_type
  as_dataset_dict as_tokenizer as_str as_model as_model_or_None as_lora_config
  as_training_arguments as_callback as_list
  no_attribute trainer_with tokenizer_with model_with dataset_dict_with : notebook.
Hint Unfold Part000.cell_install Part000.cell_imports Part000.cell_configuration
  Part000.cell_dynamo Part000.cell_load_dataset Part000.cell_model
  Part000.plot_confusion_matrix Part000.evaluate_model
  Part000.cell_tokenize_and_evaluate Part000.cell_dora_config
  Part000.cell_apply_adapters Part000.cell_training_args
  Part000.cell_early_stopping Part000.cell_trainer Part000.cell_train
  Part000.cell_save Part000.cell_reload Part000.cell_post_evaluation
  Part000.error_case Part000.cell_error_analysis : notebook.
Hint Unfold Abhishek.cell_install Abhishek.cell_imports
  Abhishek.cell_load_dataset Abhishek.tokenize_split Abhishek.cell_tokenize
  Abhishek.print_number_of_trainable_model_parameters Abhishek.cell_model
  Abhishek.cell_pre_evaluation Abhishek.cell_lora Abhishek.cell_train
  Abhishek.cell_post_evaluation Abhishek.cell_save Abhishek.cell_reload
  Abhishek.cell_loaded_evaluation : notebook.

Section hoare_rules.
Context {W : Type} (lib : Library W).
Implicit Types (P : World W → Prop) (E : exn → World W → Prop).

Lemma hoare_ret {A} P (a : A) (Q : A → World W → Prop) E :
  (∀ s, P s → Q a s) → hoare P (mret a) Q E.
Proof. intros H s Hs. by apply H. Qed.

Lemma hoare_bind {A B} P (m : M W A) (f : A → M W B) Q R E :
  hoare P m Q E → (∀ a, hoare (Q a) (f a) R E) → hoare P (m ≫= f) R E.
Proof.
  intros Hm Hf s Hs. specialize (Hm s Hs).
  unfold mbind, M_bind. destruct (m s) as [[a|e] s']; [|done].
  by apply Hf.
Qed.

Lemma hoare_raise {A} P o e (Q : A → World W → Prop) E :
  (∀ s, P s → E e (raise (A:=A) o e s).2) → hoare P (raise o e) Q E.
Proof. intros H s Hs. by apply (H s Hs). Qed.

Lemma hoare_call {A} P o (r : result A) (Q : A → World W → Prop) E :
  (∀ s e, P s → E e (raise (A:=A) o e s).2) →
  (∀ s a, P s → r = Ok a → Q a (record_event (ECall o) s)) →
  hoare P (call lib o r) Q E.
Proof.
  intros HE HQ s Hs. unfold call.
  destruct (fault lib (log s) o) as [e|]; [by apply (HE s e Hs)|].
  destruct r as [a|e]; [by apply HQ | by apply (HE s e Hs)].
Qed.

Lemma hoare_for_each {A} P (body : A → M W unit) (l : list A) E :
  Forall (λ x, hoare P (body x) (λ _, P) E) l →
  hoare P (for_each l body) (λ _, P) E.
Proof.
  induction 1 as [|x l Hx Hl IH]; simpl.
  - by apply hoare_ret.
  - eapply hoare_bind; [exact Hx|]. intros ?. exact IH.
Qed.

(** *** Rules for the propagation of exceptions *)

Lemma clean_raise {A} o e (s : World W) :
  clean s → failed_with e (raise (A:=A) o e s).2.
Proof.
  intros [Hlog Hnone]. split; simpl; [|done].
  by exists o, (log s).
Qed.

Lemma clean_event o (s : World W) : clean s → clean (record_event (ECall o) s).
Proof.
  intros [Hlog Hnone]. split; simpl; [|done].
  apply Forall_app. split; [done|]. by repeat constructor.
Qed.

Lemma propagates_ret {A} (a : A) :
  hoare (W:=W) clean (mret a) (λ _, clean) failed_with.
Proof. by apply hoare_ret. Qed.

Lemma propagates_raise {A} o e :
  hoare (W:=W) (A:=A) clean (raise o e) (λ _, clean) failed_with.
Proof. apply hoare_raise. intros. by apply clean_raise. Qed.

Lemma propagates_call {A} o (r : result A) :
  hoare clean (call lib o r) (λ _, clean) failed_with.
Proof.
  apply hoare_call; intros.
  - by apply clean_raise.
  - by apply clean_event.
Qed.

Lemma propagates_assign x v :
  hoare (W:=W) clean (assign x v) (λ _, clean) failed_with.
Proof. intros s Hs. exact Hs. Qed.

Lemma propagates_read x :
  hoare (W:=W) clean (read x) (λ _, clean) failed_with.
Proof.
  intros s Hs. unfold read. destruct (globals s !! x); [done|].
  by apply (clean_raise (A:=value W)).
Qed.

Lemma propagates_write fs :
  hoare (W:=W) clean (write fs) (λ _, clean) failed_with.
Proof. intros s Hs. exact Hs. Qed.

Lemma propagates_get_disk :
  hoare (W:=W) clean get_disk (λ _, clean) failed_with.
Proof. intros s Hs. exact Hs. Qed.

Lemma propagates_for_each {A} (body : A → M W unit) (l : list A) :
  (∀ x, hoare clean (body x) (λ _, clean) failed_with) →
  hoare clean (for_each l body) (λ _, clean) failed_with.
Proof. intros H. apply hoare_for_each, Forall_forall. auto. Qed.

Lemma hoare_weaken {A} P P' (m : M W A) (Q Q' : A → World W → Prop) E :
  hoare P m Q E → (∀ s, P' s → P s) → (∀ a s, Q a s → Q' a s) → hoare P' m Q' E.
Proof.
  intros Hm HP HQ s Hs. specialize (Hm s (HP s Hs)).
  destruct (m s) as [[a|e] s']; [by apply HQ | done].
Qed.

Lemma hoare_weaken_exn {A} P (m : M W A) (Q : A → World W → Prop) E E' :
  hoare P m Q E → (∀ e s, E e s → E' e s) → hoare P m Q E'.
Proof.
  intros Hm HE s Hs. specialize (Hm s Hs).
  destruct (m s) as [[a|e] s']; [done | by apply HE].
Qed.

Lemma hoare_exists {A B} (P : B → World W → Prop) (m : M W A) Q E :
  (∀ n, hoare (P n) m Q E) → hoare (λ s, ∃ n, P n s) m Q E.
Proof. intros H s [n Hs]. by apply (H n). Qed.

Lemma hoare_ext {A} P (m m' : M W A) (Q : A → World W → Prop) E :
  (∀ s, m s = m' s) → hoare P m' Q E → hoare P m Q E.
Proof. intros Heq Hm s Hs. rewrite Heq. by apply Hm. Qed.

Lemma hoare_pure {A} (φ : Prop) P (m : M W A) (Q : A → World W → Prop) E :
  (φ → hoare P m Q E) → hoare (λ s, φ ∧ P s) m Q E.
Proof. intros H s [Hφ Hs]. by apply H. Qed.

Lemma hoare_false {A} (m : M W A) (Q : A → World W → Prop) E :
  hoare (λ _, False) m Q E.
Proof. by intros s []. Qed.

Lemma hoare_conj {A} P1 P2 (m : M W A) (Q1 Q2 : A → World W → Prop) E1 E2 :
  hoare P1 m Q1 E1 → hoare P2 m Q2 E2 →
  hoare (λ s, P1 s ∧ P2 s) m (λ a s, Q1 a s ∧ Q2 a s) (λ e s, E1 e s ∧ E2 e s).
Proof.
  intros H1 H2 s [Hs1 Hs2]. specialize (H1 s Hs1). specialize (H2 s Hs2).
  by destruct (m s) as [[a|e] s'].
Qed.

Lemma for_each_app {A} (l1 l2 : list A) (body : A → M W unit) s :
  for_each (l1 ++ l2) body s = (for_each l1 body;; for_each l2 body) s.
Proof.
  revert s. induction l1 as [|x l1 IH]; intros s; simpl; unfold mbind, M_bind.
  - done.
  - destruct (body x s) as [[[]|e] s1]; [|done]. apply IH.
Qed.

End hoare_rules.

(** One step of a proof that a notebook computation keeps an invariant:
    split a sequence, take a branch apart, use the rule of a primitive, or
    open a definition. *)
Ltac hoare_step prim :=
  first
    [ lazymatch goal with
      | |- hoare ?P _ _ _ =>
          let P' := eval cbv beta in P in
          lazymatch P' with (λ _, False) => apply hoare_false end
      end
    | lazymatch goal with
      | |- hoare _ (mbind _ _) _ _ => eapply hoare_bind; [|intros ?]
      | |- hoare _ (match ?x with _ => _ end) _ _ => destruct x
      | |- hoare _ _ _ _ => first [prim | progress autounfold with notebook]
      end ].

(** The same steps, taken through a sequence from its first statement to its
    last, so that each statement starts from what the one before it
    established. *)
Ltac hoare_steps prim :=
  try first
    [ lazymatch goal with
      | |- hoare ?P _ _ _ =>
          let P' := eval cbv beta in P in
          lazymatch P' with
          | (λ _, False) => apply hoare_false
          | ?Q _ => is_evar Q; apply hoare_false   (* after code that never returns *)
          end
      end
    | lazymatch goal with
      | |- hoare _ (mbind _ _) _ _ =>
          eapply hoare_bind; [hoare_steps prim | intros ?; hoare_steps prim]
      | |- hoare _ (match ?x with _ => _ end) _ _ => destruct x; hoare_steps prim
      | |- hoare _ _ _ _ =>
          first [ prim; hoare_steps prim
                | progress autounfold with notebook; hoare_steps prim ]
      end ].

Ltac propagates_prim :=
  idtac;
  lazymatch goal with
  | |- hoare _ (mret _) _ _ => apply propagates_ret
  | |- hoare _ (raise _ _) _ _ => apply propagates_raise
  | |- hoare _ (call _ _ _) _ _ => apply propagates_call
  | |- hoare _ (assign _ _) _ _ => apply propagates_assign
  | |- hoare _ (read _) _ _ => apply propagates_read
  | |- hoare _ (write _) _ _ => apply propagates_write
  | |- hoare _ get_disk _ _ => apply propagates_get_disk
  | |- hoare _ (for_each _ _) _ _ => apply propagates_for_each; intros ?
  end.

Ltac propagates := repeat hoare_step propagates_prim.

Lemma Part000_propagates {W} (lib : Library W) :
  hoare clean (Part000.notebook lib) (λ _, clean) failed_with.
Proof.
  unfold Part000.notebook. apply hoare_for_each.
  unfold Part000.cells. repeat apply Forall_cons_2; try apply Forall_nil_2.
  all: propagates.
Qed.

Lemma Abhishek_propagates {W} (lib : Library W) :
  hoare clean (Abhishek.notebook lib) (λ _, clean) failed_with.
Proof.
  unfold Abhishek.notebook. apply hoare_for_each.
  unfold Abhishek.cells. repeat apply Forall_cons_2; try apply Forall_nil_2.
  all: propagates.
Qed.

(** ** A variable that is not assigned keeps what it holds *)

Section kept_rules.
Context {W : Type} (lib : Library W) (x : string) (o : option (value W)).
Local Abbreviation Kept := (λ s : World W, globals s !! x = o).
Local Abbreviation KeptE := (λ (_ : exn) (s : World W), globals s !! x = o).

Lemma kept_ret {A} (a : A) : hoare Kept (mret a) (λ _, Kept) KeptE.
Proof. by apply hoare_ret. Qed.

Lemma kept_raise {A} o' e : hoare (A:=A) Kept (raise o' e) (λ _, Kept) KeptE.
Proof. by apply hoare_raise. Qed.

Lemma kept_call {A} o' (r : result A) : hoare Kept (call lib o' r) (λ _, Kept) KeptE.
Proof. by apply hoare_call. Qed.

Lemma kept_assign y u : x ≠ y → hoare Kept (assign y u) (λ _, Kept) KeptE.
Proof. intros Hne s Hs. simpl. by rewrite lookup_insert_ne. Qed.

Lemma kept_read y : hoare Kept (read y) (λ _, Kept) KeptE.
Proof. intros s Hs. unfold read. by destruct (globals s !! y). Qed.

Lemma kept_write fs : hoare Kept (write fs) (λ _, Kept) KeptE.
Proof. intros s Hs. exact Hs. Qed.

Lemma kept_get_disk : hoare Kept get_disk (λ _, Kept) KeptE.
Proof. intros s Hs. exact Hs. Qed.

Lemma kept_for_each {A} (body : A → M W unit) (l : list A) :
  (∀ a, hoare Kept (body a) (λ _, Kept) KeptE) →
  hoare Kept (for_each l body) (λ _, Kept) KeptE.
Proof. intros H. apply hoare_for_each, Forall_forall. auto. Qed.

End kept_rules.

Ltac kept_prim :=
  idtac;
  lazymatch goal with
  | |- hoare _ (mret _) _ _ => apply kept_ret
  | |- hoare _ (raise _ _) _ _ => apply kept_raise
  | |- hoare _ (call _ _ _) _ _ => apply kept_call
  | |- hoare _ (assign _ _) _ _ => apply kept_assign; done
  | |- hoare _ (read _) _ _ => apply kept_read
  | |- hoare _ (write _) _ _ => apply kept_write
  | |- hoare _ get_disk _ _ => apply kept_get_disk
  | |- hoare _ (for_each _ _) _ _ => apply kept_for_each; intros ?
  end.

Ltac kept := repeat hoare_step kept_prim.

Lemma hoare_run {W A} (P : World W → Prop) (m : M W A) (s : World W) :
  hoare P m (λ _, P) (λ _, P) → P s → P (m s).2.
Proof.
  intros Hm Hs. specialize (Hm s Hs). by destruct (m s) as [[a|e] s'].
Qed.

(** ** Running a computation with some variables known *)

Section wpb_rules.
Context {W : Type} (lib : Library W).
Implicit Types (g : gmap string (value W)).

Lemma wpb_ret {A} g (a : A) (Q : A → gmap string (value W) → Prop) :
  Q a g → wpb g (mret a) Q.
Proof. intros HQ s Hs. by exists g. Qed.

Lemma wpb_bind {A B} g (m : M W A) (f : A → M W B) Q :
  wpb g m (λ a g', wpb g' (f a) Q) → wpb g (m ≫= f) Q.
Proof.
  intros Hm s Hs. specialize (Hm s Hs). unfold mbind, M_bind.
  destruct (m s) as [[a|e] s']; [|done]. destruct Hm as (g' & Hs' & Hf).
  by apply Hf.
Qed.

Lemma wpb_raise {A} g o e (Q : A → gmap string (value W) → Prop) :
  wpb g (raise o e) Q.
Proof. by intros s Hs. Qed.

Lemma wpb_call {A} g o (r : result A) (Q : A → gmap string (value W) → Prop) :
  (∀ a, r = Ok a → Q a g) → wpb g (call lib o r) Q.
Proof.
  intros HQ s Hs. unfold call.
  destruct (fault lib (log s) o); [done|].
  destruct r as [a|e]; [|done]. exists g. split; [exact Hs | by apply HQ].
Qed.

Lemma wpb_assign g x v (Q : unit → gmap string (value W) → Prop) :
  Q () (<[x := v]> g) → wpb g (assign x v) Q.
Proof.
  intros HQ s Hs. exists (<[x := v]> g). split; [|done]. by apply insert_mono.
Qed.

Lemma wpb_read g x v (Q : value W → gmap string (value W) → Prop) :
  g !! x = Some v → Q v g → wpb g (read x) Q.
Proof.
  intros Hx HQ s Hs. unfold read. rewrite (lookup_weaken _ _ _ _ Hx Hs).
  by exists g.
Qed.

Lemma wpb_read_any g x (Q : value W → gmap string (value W) → Prop) :
  (∀ v, Q v g) → wpb g (read x) Q.
Proof.
  intros HQ s Hs. unfold read. destruct (globals s !! x) as [v|]; [|done].
  by exists g.
Qed.

Lemma wpb_write g fs (Q : unit → gmap string (value W) → Prop) :
  Q () g → wpb g (write fs) Q.
Proof. intros HQ s Hs. by exists g. Qed.

Lemma wpb_get_disk g (Q : list (file W) → gmap string (value W) → Prop) :
  (∀ d, Q d g) → wpb g get_disk Q.
Proof. intros HQ s Hs. by exists g. Qed.

Lemma wpb_hoare {A} g (m : M W A) (Q : A → gmap string (value W) → Prop) :
  wpb g m Q → hoare (bound g) m (λ a s, ∃ g', bound g' s ∧ Q a g') anyhow.
Proof. intros Hm s Hs. specialize (Hm s Hs). by destruct (m s) as [[a|e] s']. Qed.

End wpb_rules.

(** One step of running a computation from a state in which some variables
    are known. *)
Ltac wpb_step :=
  lazymatch goal with
  | |- wpb _ (mbind _ _) _ => apply wpb_bind
  | |- wpb _ (mret _) _ => apply wpb_ret
  | |- wpb _ (raise _ _) _ => apply wpb_raise
  | |- wpb _ (call _ _ _) _ => apply wpb_call; intros ? ?
  | |- wpb _ (assign _ _) _ => apply wpb_assign
  | |- wpb _ (read _) _ =>
      first [ eapply wpb_read; [by simplify_map_eq|]
            | apply wpb_read_any; intros ? ]
  | |- wpb _ (write _) _ => apply wpb_write
  | |- wpb _ get_disk _ => apply wpb_get_disk; intros ?
  | |- wpb _ (match ?x with _ => _ end) _ => destruct x eqn:?
  | |- wpb _ _ _ => progress autounfold with notebook
  end.

(** ** Predicted classes *)

Lemma argmax_from_bound best best_i i row :
  (best_i < i)%nat → (argmax_from best best_i i row < i + length row)%nat.
Proof.
  revert best best_i i. induction row as [|x row IH]; intros best best_i i Hi; simpl.
  - lia.
  - destruct (Qltb best x).
    + specialize (IH x i (S i)). lia.
    + specialize (IH best best_i (S i)). lia.
Qed.

Lemma np_argmax_bound row c :
  np_argmax row = Ok c → (0 ≤ c < Z.of_nat (length row))%Z.
Proof.
  destruct row as [|x row]; simpl; [done|]. intros [= <-].
  pose proof (argmax_from_bound x 0 1 row). lia.
Qed.

Lemma np_argmax_axis1_bound n a preds :
  Forall (λ row : list Q, length row = n) a →
  np_argmax_axis1 a = Ok preds →
  Forall (λ c, 0 ≤ c < Z.of_nat n)%Z preds.
Proof.
  intros Ha. revert preds. induction Ha as [|row a Hrow _ IH]; intros preds; simpl.
  - by intros [= <-].
  - destruct (np_argmax row) as [c|] eqn:Hc; simpl; [|done].
    destruct (np_argmax_axis1 a) as [rest|]; simpl; [|done].
    intros [= <-]. constructor; [|by apply IH].
    rewrite <- Hrow. by apply np_argmax_bound.
Qed.

Lemma logits_of_batch_width {W} (lib : Library W) m b :
  Forall (λ row : list Q, length row = num_labels (config m)) (logits_of_batch lib m b).
Proof.
  unfold logits_of_batch. apply Forall_forall. intros row Hrow.
  apply elem_of_lookup_zip_with in Hrow as (i & ids & mask & -> & _ & _).
  by rewrite length_fmap, length_seq.
Qed.

Lemma prediction_loop_width {W} (lib : Library W) t m ds out :
  t_model t = Some m → prediction_loop lib t ds = Ok out →
  Forall (λ row : list Q, length row = num_labels (config m)) (po_predictions out).
Proof.
  unfold prediction_loop. intros ->.
  destruct (features_of ds) as [enc|]; simpl; [|done].
  destruct (labels_of ds) as [labels|]; simpl; [|done].
  do 2 (destruct (Nat.eqb _ 0); [done|]).
  destruct (negb _); [done|].
  set (logits := mjoin _).
  assert (Forall (λ row : list Q, length row = num_labels (config m)) logits) as Hw.
  { apply Forall_forall. intros row Hrow. unfold logits in Hrow.
    apply list_elem_of_join in Hrow as (rows & Hrow & Hrows).
    apply list_elem_of_fmap in Hrows as (b & -> & _).
    by eapply (proj1 (Forall_forall _ _) (logits_of_batch_width lib m _)). }
  destruct (t_compute_metrics t) as [f|], labels as [l|]; simpl;
    try (intros [= <-]; exact Hw).
  destruct (f _); simpl; [|done]. intros [= <-]. exact Hw.
Qed.

Lemma label_key_of_bound i2l (c : Z) :
  dom i2l = {[ 0%Z; 1%Z ]} → (0 ≤ c < 2)%Z → label_key i2l c.
Proof.
  intros Hdom Hc. split; [lia|]. apply elem_of_dom. rewrite Hdom.
  assert (c = 0 ∨ c = 1)%Z as [-> | ->] by lia; set_solver.
Qed.

Lemma argmax_of_predictions_in_keys {W} (lib : Library W) i2l t ds out preds :
  dom i2l = {[ 0%Z; 1%Z ]} →
  (∀ m, t_model t = Some m → two_class i2l m) →
  prediction_loop lib t ds = Ok out →
  np_argmax_axis1 (po_predictions out) = Ok preds →
  Forall (label_key i2l) preds.
Proof.
  intros Hdom Ht Hout Hpreds.
  destruct (t_model t) as [m|] eqn:Hm; [|by unfold prediction_loop in Hout; rewrite Hm in Hout].
  destruct (Ht m eq_refl) as [Hn _].
  pose proof (prediction_loop_width lib t m ds out Hm Hout) as Hw.
  rewrite Hn in Hw.
  eapply Forall_impl; [exact (np_argmax_axis1_bound 2 _ _ Hw Hpreds)|].
  intros c Hc. by apply label_key_of_bound.
Qed.

Lemma argmax_of_predictions_total {W} (lib : Library W) t m ds out :
  t_model t = Some m → (0 < num_labels (config m))%nat →
  prediction_loop lib t ds = Ok out →
  ∃ preds, np_argmax_axis1 (po_predictions out) = Ok preds
           ∧ length preds = length (po_predictions out).
Proof.
  intros Hm Hn Hout. apply np_argmax_axis1_total.
  eapply Forall_impl; [exact (prediction_loop_width lib t m ds out Hm Hout)|].
  intros row Hrow ->. simpl in Hrow. lia.
Qed.

(** ** Rules for invariants over the notebook's variables *)

Section wp_rules.
Context {W : Type} (lib : Library W) (φ : string → value W → Prop).

Lemma wp_ret {A} (a : A) (Q : A → Prop) : Q a → wp φ (mret a) Q.
Proof. intros HQ s Hs. by split. Qed.

Lemma wp_bind {A B} (m : M W A) (f : A → M W B) (Q : B → Prop) :
  wp φ m (λ a, wp φ (f a) Q) → wp φ (m ≫= f) Q.
Proof.
  intros Hm s Hs. specialize (Hm s Hs). unfold mbind, M_bind.
  destruct (m s) as [[a|e] s']; [|done]. destruct Hm as [Hs' Hf].
  by apply Hf.
Qed.

Lemma wp_raise {A} o e (Q : A → Prop) : wp φ (raise o e) Q.
Proof. intros s Hs. exact Hs. Qed.

Lemma wp_call {A} o (r : result A) (Q : A → Prop) :
  (∀ a, r = Ok a → Q a) → wp φ (call lib o r) Q.
Proof.
  intros HQ s Hs. unfold call.
  destruct (fault lib (log s) o); [exact Hs|].
  destruct r as [a|e]; [|exact Hs]. split; [exact Hs | by apply HQ].
Qed.

Lemma wp_assign x v (Q : unit → Prop) : φ x v → Q () → wp φ (assign x v) Q.
Proof.
  intros Hv HQ s Hs. split; [|done]. intros y u. simpl.
  destruct (decide (x = y)) as [<-|Hne].
  - rewrite lookup_insert_eq. by intros [= <-].
  - rewrite lookup_insert_ne by done. apply Hs.
Qed.

Lemma wp_read x (Q : value W → Prop) : (∀ v, φ x v → Q v) → wp φ (read x) Q.
Proof.
  intros HQ s Hs. unfold read.
  destruct (globals s !! x) as [v|] eqn:Hx; [|exact Hs].
  split; [exact Hs|]. apply HQ. by apply (Hs x).
Qed.

Lemma wp_write fs (Q : unit → Prop) : Q () → wp φ (write fs) Q.
Proof. intros HQ s Hs. by split. Qed.

Lemma wp_get_disk (Q : list (file W) → Prop) : (∀ d, Q d) → wp φ get_disk Q.
Proof. intros HQ s Hs. by split. Qed.

Lemma wp_mono {A} (m : M W A) (Q Q' : A → Prop) :
  wp φ m Q → (∀ a, Q a → Q' a) → wp φ m Q'.
Proof.
  intros Hm HQ s Hs. specialize (Hm s Hs).
  destruct (m s) as [[a|e] s']; [|done]. destruct Hm. split; auto.
Qed.

Lemma wp_for_each {A} (body : A → M W unit) (l : list A) (Q : unit → Prop) :
  (∀ x, wp φ (body x) (λ _, True)) → Q () → wp φ (for_each l body) Q.
Proof.
  intros Hbody HQ. induction l as [|x l IH]; simpl.
  - by apply wp_ret.
  - apply wp_bind. eapply wp_mono; [apply Hbody|]. intros ? _. exact IH.
Qed.

End wp_rules.

(** Facts about returned values are equations [r = Ok a]; [use_results]
    turns them into facts about [a]. *)
Ltac use_results :=
  repeat
    match goal with
    | H : Ok _ = Ok _ |- _ => injection H as H; subst
    | H : Raise _ = Ok _ |- _ => discriminate H
    | H : (match ?x with _ => _ end) = Ok _ |- _ => destruct x eqn:?
    | H : (_, _) = (_, _) |- _ => injection H as ? ?; subst
    end.

Lemma Part000_id2label_dom : dom Part000.id2label_arg = {[ 0%Z; 1%Z ]}.
Proof. unfold Part000.id2label_arg. by rewrite dom_insert_L, dom_singleton_L. Qed.

Lemma Abhishek_id2label_dom : dom Abhishek.id2label_arg = {[ 0%Z; 1%Z ]}.
Proof. unfold Abhishek.id2label_arg. by rewrite dom_insert_L, dom_singleton_L. Qed.

Ltac wp_side :=
  use_results; unfold binary_value, two_class in *; simpl in *;
  first
    [ done
    | by (intros; simplify_eq/=; eauto)
    | by (intros _; eapply argmax_of_predictions_in_keys;
          eauto using Part000_id2label_dom, Abhishek_id2label_dom) ].

(** One step of a proof that a computation keeps the variables within an
    invariant; [side] shows that an assigned value is within it. *)
Ltac wp_step_with side :=
  lazymatch goal with
  | |- wp _ (mbind _ _) _ => apply wp_bind
  | |- wp _ (mret _) _ => apply wp_ret
  | |- wp _ (raise _ _) _ => apply wp_raise
  | |- wp _ (call _ _ _) _ => apply wp_call; intros ? ?
  | |- wp _ (assign _ _) _ => apply wp_assign; [side|]
  | |- wp _ (read _) _ => apply wp_read; intros ? ?
  | |- wp _ (write _) _ => apply wp_write
  | |- wp _ get_disk _ => apply wp_get_disk; intros ?
  | |- wp _ (for_each _ _) _ => apply wp_for_each; [intros ?|]
  | |- wp _ (match ?x with _ => _ end) _ => destruct x eqn:?
  | |- wp _ _ _ => progress autounfold with notebook
  | |- True => exact I
  end.

Ltac wp_step := wp_step_with wp_side.

Ltac wp_go := repeat wp_step.

Lemma wp_for_each_Forall {W A} (φ : string → value W → Prop)
    (body : A → M W unit) (l : list A) (Q : unit → Prop) :
  Forall (λ x, wp φ (body x) (λ _, True)) l → Q () → wp φ (for_each l body) Q.
Proof.
  intros Hbody HQ. induction Hbody as [|x l Hx Hl IH]; simpl.
  - by apply wp_ret.
  - apply wp_bind. eapply wp_mono; [apply Hx|]. intros ? _. exact IH.
Qed.

Lemma Part000_binary {W} (lib : Library W) :
  wp (binary_value Part000.id2label_arg) (Part000.notebook lib) (λ _, True).
Proof.
  unfold Part000.notebook. apply wp_for_each_Forall; [|done].
  unfold Part000.cells. repeat apply Forall_cons_2; try apply Forall_nil_2.
  all: wp_go.
Qed.

Lemma Abhishek_binary {W} (lib : Library W) :
  wp (binary_value Abhishek.id2label_arg) (Abhishek.notebook lib) (λ _, True).
Proof.
  unfold Abhishek.notebook. apply wp_for_each_Forall; [|done].
  unfold Abhishek.cells. repeat apply Forall_cons_2; try apply Forall_nil_2.
  all: wp_go.
Qed.

Lemma governed_fresh {W} (φ : string → value W → Prop) : governed φ fresh_kernel.
Proof. intros x v. simpl. by rewrite lookup_empty. Qed.

Lemma wp_run {W A} (φ : string → value W → Prop) (m : M W A) (Q : A → Prop) :
  wp φ m Q → governed φ (m fresh_kernel).2.
Proof.
  intros Hm. specialize (Hm fresh_kernel (governed_fresh φ)).
  destruct (m fresh_kernel) as [[a|e] s']; [by destruct Hm | done].
Qed.

(** ** Writing over a disk *)

Lemma same_place_spec {W} (f g : file W) :
  same_place f g = true ↔ loc f = loc g ∧ kind f = kind g.
Proof. unfold same_place. apply bool_decide_eq_true. Qed.

Lemma same_place_trans {W} (f g h : file W) :
  same_place f g = true → same_place g h = true → same_place f h = true.
Proof. rewrite !same_place_spec. intros [-> ->] [-> ->]. done. Qed.

Lemma replaced_spec {W} (fs : list (file W)) (f : file W) :
  existsb (same_place f) fs = true ↔ ∃ g, g ∈ fs ∧ same_place f g = true.
Proof.
  rewrite existsb_exists. split; intros (g & Hg & Hfg); exists g; split; try done.
  - by apply list_elem_of_In.
  - by apply list_elem_of_In.
Qed.

Lemma elem_of_overwrite {W} (fs d : list (file W)) (f : file W) :
  f ∈ overwrite fs d ↔ f ∈ fs ∨ (f ∈ d ∧ existsb (same_place f) fs = false).
Proof.
  unfold overwrite. rewrite elem_of_app, list_elem_of_filter. tauto.
Qed.

Lemma changed_from_refl {W} ok (d0 : list (file W)) : changed_from ok d0 d0.
Proof. split; intros f Hf; by left. Qed.

Lemma changed_from_overwrite {W} ok (d0 d fs : list (file W)) :
  Forall (λ f, written_at ok f = true) fs →
  changed_from ok d0 d → changed_from ok d0 (overwrite fs d).
Proof.
  rewrite Forall_forall. intros Hfs [Hnew Hold]. split.
  - intros f [Hf|[Hf _]]%elem_of_overwrite; [right; by apply Hfs | by apply Hnew].
  - intros f Hf.
    assert (∀ g, g ∈ d → same_place f g = true →
                 (g = f ∨ written_at ok g = true) →
                 f ∈ overwrite fs d ∨
                 ∃ h, h ∈ overwrite fs d ∧ same_place f h = true ∧ written_at ok h = true)
      as Hcase.
    { intros g Hg Hfg Hwhat.
      destruct (existsb (same_place g) fs) eqn:Hrep.
      - apply replaced_spec in Hrep as (h & Hh & Hgh). right. exists h.
        split; [apply elem_of_overwrite; by left|].
        split; [by eapply same_place_trans | by apply Hfs].
      - destruct Hwhat as [->|Hw].
        + left. apply elem_of_overwrite. by right.
        + right. exists g. split; [apply elem_of_overwrite; by right | done]. }
    destruct (Hold f Hf) as [Hin|(g & Hg & Hfg & Hw)].
    + apply (Hcase f Hin); [by apply same_place_spec | by left].
    + apply (Hcase g Hg Hfg). by right.
Qed.

(** A file at a place the run does not write to is kept as it was. *)
Lemma changed_from_elsewhere {W} ok (d0 d : list (file W)) (f : file W) :
  changed_from ok d0 d → f ∈ d0 → ok (loc f) = false → f ∈ d.
Proof.
  intros [_ Hold] Hf Hok. destruct (Hold f Hf) as [|(g & _ & Hfg & Hw)]; [done|].
  apply same_place_spec in Hfg as [Hloc _]. unfold written_at in Hw.
  apply andb_true_iff in Hw as [_ Hg]. congruence.
Qed.

Lemma changed_from_nil_placed {W} ok (s : World W) :
  changed_from ok [] (disk s) → placed ok s.
Proof.
  intros [Hnew _]. apply Forall_forall. intros f Hf.
  destruct (Hnew f Hf) as [Hnil|Hw]; [by apply elem_of_nil in Hnil|].
  unfold written_at in Hw. by apply andb_true_iff in Hw as [_ ?].
Qed.

(** ** Rules for what a computation writes *)

Section wpd_rules.
Context {W : Type} (lib : Library W) (φ : string → value W → Prop).
Context (ok : location → bool) (d0 : list (file W)).

Lemma wpd_ret {A} (a : A) (Q : A → Prop) : Q a → wpd φ ok d0 (mret a) Q.
Proof. intros HQ s Hs Hd. by split; [|split]. Qed.

Lemma wpd_bind {A B} (m : M W A) (f : A → M W B) (Q : B → Prop) :
  wpd φ ok d0 m (λ a, wpd φ ok d0 (f a) Q) → wpd φ ok d0 (m ≫= f) Q.
Proof.
  intros Hm s Hs Hd. specialize (Hm s Hs Hd). unfold mbind, M_bind.
  destruct (m s) as [[a|e] s']; [|done]. destruct Hm as (Hs' & Hd' & Hf).
  by apply Hf.
Qed.

Lemma wpd_raise {A} o e (Q : A → Prop) : wpd φ ok d0 (raise o e) Q.
Proof. intros s Hs Hd. by split. Qed.

Lemma wpd_call {A} o (r : result A) (Q : A → Prop) :
  (∀ a, r = Ok a → Q a) → wpd φ ok d0 (call lib o r) Q.
Proof.
  intros HQ s Hs Hd. unfold call.
  destruct (fault lib (log s) o); [by split|].
  destruct r as [a|e]; [|by split]. split; [done|]. split; [done|]. by apply HQ.
Qed.

Lemma wpd_assign x v (Q : unit → Prop) : φ x v → Q () → wpd φ ok d0 (assign x v) Q.
Proof.
  intros Hv HQ s Hs Hd. split; [|by split]. intros y u. simpl.
  destruct (decide (x = y)) as [<-|Hne].
  - rewrite lookup_insert_eq. by intros [= <-].
  - rewrite lookup_insert_ne by done. apply Hs.
Qed.

Lemma wpd_read x (Q : value W → Prop) : (∀ v, φ x v → Q v) → wpd φ ok d0 (read x) Q.
Proof.
  intros HQ s Hs Hd. unfold read.
  destruct (globals s !! x) as [v|] eqn:Hx; [|by split].
  split; [done|]. split; [done|]. apply HQ. by apply (Hs x).
Qed.

Lemma wpd_write fs (Q : unit → Prop) :
  Forall (λ f, written_at ok f = true) fs → Q () → wpd φ ok d0 (write fs) Q.
Proof.
  intros Hfs HQ s Hs Hd. split; [done|]. split; [|done]. simpl.
  by apply changed_from_overwrite.
Qed.

Lemma wpd_get_disk (Q : list (file W) → Prop) : (∀ d, Q d) → wpd φ ok d0 get_disk Q.
Proof. intros HQ s Hs Hd. by split; [|split]. Qed.

Lemma wpd_mono {A} (m : M W A) (Q Q' : A → Prop) :
  wpd φ ok d0 m Q → (∀ a, Q a → Q' a) → wpd φ ok d0 m Q'.
Proof.
  intros Hm HQ s Hs Hd. specialize (Hm s Hs Hd).
  destruct (m s) as [[a|e] s']; [|done]. destruct Hm as (? & ? & ?). auto.
Qed.

Lemma wpd_for_each {A} (body : A → M W unit) (l : list A) (Q : unit → Prop) :
  Forall (λ x, wpd φ ok d0 (body x) (λ _, True)) l → Q () →
  wpd φ ok d0 (for_each l body) Q.
Proof.
  intros Hbody HQ. induction Hbody as [|x l Hx Hl IH]; simpl.
  - by apply wpd_ret.
  - apply wpd_bind. eapply wpd_mono; [apply Hx|]. intros ? _. exact IH.
Qed.

Lemma written_model_files l (m : Model W) :
  is_save_dir l = true → ok l = true →
  Forall (λ f, written_at ok f = true) (model_files l m).
Proof.
  intros Hl Hok. unfold model_files, written_at.
  destruct l; try discriminate; destruct (peft_config m);
    repeat constructor; simpl; by rewrite Hok.
Qed.

Lemma written_saved_by_Trainer l (t : Trainer W) (m : Model W) :
  is_save_dir l = true → ok l = true →
  Forall (λ f, written_at ok f = true) (saved_by_Trainer l t m).
Proof.
  intros Hl Hok. unfold saved_by_Trainer.
  apply Forall_app; split; [by apply written_model_files|].
  unfold written_at.
  destruct l; try discriminate; destruct (t_processing_class t);
    repeat constructor; simpl; by rewrite Hok.
Qed.

Lemma written_checkpoints out (t : Trainer W) (m : Model W) (ks : list nat) :
  (∀ k, ok (Checkpoint out k) = true) →
  Forall (λ f, written_at ok f = true)
    (mjoin ((λ k, checkpoint_files (Checkpoint out k) t m) <$> ks)).
Proof.
  intros Hout. induction ks as [|k ks IH]; [constructor|].
  rewrite fmap_cons. change (mjoin (?x :: ?l)) with (x ++ mjoin l).
  apply Forall_app; split; [|exact IH]. unfold checkpoint_files.
  apply Forall_app; split; [by apply written_saved_by_Trainer|].
  unfold written_at. repeat constructor; simpl; by rewrite Hout.
Qed.

End wpd_rules.

(** What is known of the directories: the facts read off the variables,
    with their trivial premises discharged. *)
Ltac path_facts :=
  use_results; unfold part000_paths in *; simpl in *;
  repeat match goal with H : _ ∧ _ |- _ => destruct H end;
  repeat match goal with H : ?x = ?x → _ |- _ => specialize (H eq_refl) end;
  subst.

Ltac written_files :=
  path_facts;
  first
    [ apply written_checkpoints; intros ?; simpl;
      repeat match goal with H : _ = _ |- _ => rewrite H end; reflexivity
    | apply written_saved_by_Trainer; simpl; reflexivity
    | apply written_model_files; simpl; reflexivity
    | by repeat constructor
    | done ].

Ltac paths_side :=
  path_facts;
  first
    [ done
    | by (repeat split; intros; simplify_eq/=; eauto)
    | by (intros; simplify_eq/=; eauto) ].

Ltac wpd_step :=
  lazymatch goal with
  | |- wpd _ _ _ (mbind _ _) _ => apply wpd_bind
  | |- wpd _ _ _ (mret _) _ => apply wpd_ret
  | |- wpd _ _ _ (raise _ _) _ => apply wpd_raise
  | |- wpd _ _ _ (call _ _ _) _ => apply wpd_call; intros ? ?
  | |- wpd _ _ _ (assign _ _) _ => apply wpd_assign; [paths_side|]
  | |- wpd _ _ _ (read _) _ => apply wpd_read; intros ? ?
  | |- wpd _ _ _ (write _) _ => apply wpd_write; [written_files|]
  | |- wpd _ _ _ get_disk _ => apply wpd_get_disk; intros ?
  | |- wpd _ _ _ (for_each _ _) _ => apply wpd_for_each; [|done]
  | |- wpd _ _ _ (match ?x with _ => _ end) _ => destruct x eqn:?
  | |- wpd _ _ _ _ _ => progress autounfold with notebook
  | |- Forall _ _ => apply Forall_forall; intros ? _
  | |- True => exact I
  end.

Lemma Part000_placed {W} (lib : Library W) d0 :
  wpd part000_paths part000_place d0 (Part000.notebook lib) (λ _, True).
Proof.
  unfold Part000.notebook. apply wpd_for_each; [|done].
  unfold Part000.cells. repeat apply Forall_cons_2; try apply Forall_nil_2.
  all: repeat wpd_step.
Qed.

Lemma Abhishek_placed {W} (lib : Library W) d0 :
  wpd (λ _ _, True) abhishek_place d0 (Abhishek.notebook lib) (λ _, True).
Proof.
  unfold Abhishek.notebook. apply wpd_for_each; [|done].
  unfold Abhishek.cells. repeat apply Forall_cons_2; try apply Forall_nil_2.
  all: repeat wpd_step.
Qed.

Lemma governed_kernel_on {W} (φ : string → value W → Prop) d0 : governed φ (kernel_on d0).
Proof. intros x v. simpl. by rewrite lookup_empty. Qed.

Lemma wpd_run {W A} (φ : string → value W → Prop) ok d0 (m : M W A) (Q : A → Prop) :
  wpd φ ok d0 m Q → changed_from ok d0 (disk (m (kernel_on d0)).2).
Proof.
  intros Hm. specialize (Hm (kernel_on d0) (governed_kernel_on φ d0) (changed_from_refl _ _)).
  destruct (m (kernel_on d0)) as [[a|e] s']; simpl; [by destruct Hm as (_ & ? & _)|].
  by destruct Hm.
Qed.

Lemma stages_snoc_call (l : list event) o :
  stages (l ++ [ECall o]) = stages l ++ from_option (λ st, [st]) [] (stage_of o).
Proof.
  unfold stages. rewrite omap_app. simpl. by destruct (stage_of o).
Qed.

Lemma stages_snoc_fail (l : list event) o e : stages (l ++ [EFail o e]) = stages l.
Proof. unfold stages. rewrite omap_app. simpl. by rewrite app_nil_r. Qed.

Section stage_rules.
Context {W : Type} (lib : Library W) (done todo : list stage).
Context (E : World W → Prop).
Context (Hlog : ∀ s s' : World W, stages (log s) = stages (log s') → E s → E s').
Context (HE : ∀ k s, at_stage done todo k s → E s).
Local Abbreviation at_ := (at_stage (W:=W) done todo).

Lemma at_stage_raise {A} k o e (s : World W) :
  at_ k s → E (raise (A:=A) o e s).2.
Proof using Hlog HE.
  intros Hs. apply (Hlog s); [|by apply (HE k)].
  simpl. by rewrite stages_snoc_fail.
Qed.

Lemma staged_ret {A} k (a : A) : hoare (at_ k) (mret a) (λ _, at_ k) (λ _, E).
Proof using Hlog HE. by apply hoare_ret. Qed.
Lemma staged_raise {A} k o e : hoare (A:=A) (at_ k) (raise o e) (λ _, at_ k) (λ _, E).
Proof using Hlog HE. apply hoare_raise. intros. by eapply at_stage_raise. Qed.
Lemma staged_assign k x v : hoare (at_ k) (assign x v) (λ _, at_ k) (λ _, E).
Proof using Hlog HE. intros s Hs. exact Hs. Qed.
Lemma staged_write k fs : hoare (at_ k) (write fs) (λ _, at_ k) (λ _, E).
Proof using Hlog HE. intros s Hs. exact Hs. Qed.
Lemma staged_get_disk k : hoare (at_ k) get_disk (λ _, at_ k) (λ _, E).
Proof using Hlog HE. intros s Hs. exact Hs. Qed.
Lemma staged_read k x : hoare (at_ k) (read x) (λ _, at_ k) (λ _, E).
Proof using Hlog HE.
  intros s Hs. unfold read. destruct (globals s !! x); [done|].
  by apply (at_stage_raise (A:=value W) k).
Qed.

Lemma staged_call_none {A} k o (r : result A) :
  stage_of o = None → hoare (at_ k) (call lib o r) (λ _, at_ k) (λ _, E).
Proof using Hlog HE.
  intros Ho. apply hoare_call; intros.
  - by eapply at_stage_raise.
  - unfold at_stage in *. simpl. rewrite stages_snoc_call, Ho. simpl.
    by rewrite app_nil_r.
Qed.

Lemma staged_call_some {A} k o st (r : result A) :
  stage_of o = Some st → todo !! k = Some st →
  hoare (at_ k) (call lib o r) (λ _, at_ (S k)) (λ _, E).
Proof using Hlog HE.
  intros Ho Hk. apply hoare_call; intros.
  - by eapply at_stage_raise.
  - unfold at_stage in *. simpl. rewrite stages_snoc_call, Ho. simpl.
    rewrite (take_S_r _ _ _ Hk), (assoc_L (++)). congruence.
Qed.

Lemma staged_call_stuck {A} k o (r : result A) :
  (∀ a, r ≠ Ok a) → hoare (at_ k) (call lib o r) (λ _ _, False) (λ _, E).
Proof using Hlog HE.
  intros Hr. apply hoare_call; intros.
  - by eapply at_stage_raise.
  - by eapply Hr.
Qed.

Lemma staged_for_each {A} k (body : A → M W unit) (l : list A) :
  (∀ x, hoare (at_ k) (body x) (λ _, at_ k) (λ _, E)) →
  hoare (at_ k) (for_each l body) (λ _, at_ k) (λ _, E).
Proof using Hlog HE. intros H. apply hoare_for_each, Forall_forall. auto. Qed.

End stage_rules.

Ltac staged_prim Hlog HE :=
  idtac;
  lazymatch goal with
  | |- hoare _ (mret _) _ _ => apply (staged_ret _ _ _ Hlog HE)
  | |- hoare _ (raise _ _) _ _ => apply (staged_raise _ _ _ Hlog HE)
  | |- hoare _ (call _ _ _) _ _ =>
      first [ eapply (staged_call_some _ _ _ _ Hlog HE); reflexivity
            | eapply (staged_call_none _ _ _ _ Hlog HE); reflexivity
            | apply (staged_call_stuck _ _ _ _ Hlog HE); by intros ? ]
  | |- hoare _ (assign _ _) _ _ => apply (staged_assign _ _ _ Hlog HE)
  | |- hoare _ (read _) _ _ => apply (staged_read _ _ _ Hlog HE)
  | |- hoare _ (write _) _ _ => apply (staged_write _ _ _ Hlog HE)
  | |- hoare _ get_disk _ _ => apply (staged_get_disk _ _ _ Hlog HE)
  | |- hoare _ (for_each _ _) _ _ => apply (staged_for_each _ _ _ Hlog HE); intros ?
  end.

Ltac staged Hlog HE := repeat hoare_step ltac:(staged_prim Hlog HE).

Lemma within_log {W} todo (s s' : World W) :
  stages (log s) = stages (log s') → within todo s → within todo s'.
Proof. unfold within. by intros <-. Qed.

Lemma within_at_stage {W} todo k (s : World W) : at_stage [] todo k s → within todo s.
Proof.
  unfold at_stage, within. simpl. intros ->. exists (drop k todo).
  by rewrite take_drop.
Qed.

Lemma Part000_staged {W} (lib : Library W) :
  hoare (at_stage [] part000_stages 0) (Part000.notebook lib)
        (λ _, at_stage [] part000_stages 12) (λ _, within part000_stages).
Proof.
  unfold Part000.notebook, Part000.cells. cbn [for_each].
  staged (within_log (W:=W) part000_stages) (within_at_stage (W:=W) part000_stages).
Qed.

(** *** The second notebook: one tokenization per split, and no save *)

(** The notebook regrouped around the loop over the splits. *)
Lemma Abhishek_notebook_regrouped {W} (lib : Library W) s :
  Abhishek.notebook lib s
  = ((Abhishek.cell_install;; Abhishek.cell_imports lib;;
      Abhishek.cell_load_dataset lib;;
      tokenizer ← AutoTokenizer_from_pretrained lib "distilbert-base-uncased";
      assign "tokenizer" (VTokenizer tokenizer);;
      assign "tokenized_dataset" (VDatasetDict []);;
      read "splits" ≫= as_list)
     ≫= λ splits,
       for_each splits (Abhishek.tokenize_split lib);;
       for_each (drop 4 (Abhishek.cells lib)) (λ c, c)) s.
Proof.
  unfold Abhishek.notebook, Abhishek.cells. cbn [for_each drop].
  unfold Abhishek.cell_tokenize. unfold mbind, M_bind. cbv beta.
  repeat
    match goal with
    | |- context [let (_, _) := ?x in _] =>
        lazymatch x with
        | context [match _ with _ => _ end] => fail
        | _ => destruct x as [[?|?] ?]; try reflexivity
        end
    end.
Qed.

Lemma Abhishek_head_staged {W} (lib : Library W) :
  hoare (at_stage [] abhishek_stages 0)
        (Abhishek.cell_install;; Abhishek.cell_imports lib;;
         Abhishek.cell_load_dataset lib;;
         tokenizer ← AutoTokenizer_from_pretrained lib "distilbert-base-uncased";
         assign "tokenizer" (VTokenizer tokenizer);;
         assign "tokenized_dataset" (VDatasetDict []);;
         read "splits" ≫= as_list)
        (λ _, at_stage [] abhishek_stages 2) (λ _, within abhishek_stages).
Proof.
  staged (within_log (W:=W) abhishek_stages) (within_at_stage (W:=W) abhishek_stages).
Qed.

(** The loop runs over the two splits that cell 3 has named. *)
Lemma Abhishek_head_splits {W} (lib : Library W) :
  hoare (bound ∅)
        (Abhishek.cell_install;; Abhishek.cell_imports lib;;
         Abhishek.cell_load_dataset lib;;
         tokenizer ← AutoTokenizer_from_pretrained lib "distilbert-base-uncased";
         assign "tokenizer" (VTokenizer tokenizer);;
         assign "tokenized_dataset" (VDatasetDict []);;
         read "splits" ≫= as_list)
        (λ splits _, splits = ["train"; "test"]) anyhow.
Proof.
  eapply hoare_weaken;
    [apply (wpb_hoare ∅ _ (λ splits _, splits = ["train"; "test"]))
    |done
    |by intros splits s (g & _ & ->)].
  repeat wpb_step. by simplify_eq.
Qed.

Lemma Abhishek_tail_staged {W} (lib : Library W) :
  hoare (at_stage [] abhishek_stages 2)
        (for_each ["train"; "test"] (Abhishek.tokenize_split lib);;
         for_each (drop 4 (Abhishek.cells lib)) (λ c, c))
        (λ _ _, False) (λ _, within abhishek_stages).
Proof.
  unfold Abhishek.cells. cbn [drop for_each].
  hoare_steps
    ltac:(staged_prim (within_log (W:=W) abhishek_stages)
            (within_at_stage (W:=W) abhishek_stages)).
Qed.

Lemma Abhishek_staged {W} (lib : Library W) :
  hoare (at_stage [] abhishek_stages 0) (Abhishek.notebook lib)
        (λ _ _, False) (λ _, within abhishek_stages).
Proof.
  eapply hoare_ext; [apply Abhishek_notebook_regrouped|].
  apply (hoare_bind _ _ _
           (λ splits s, splits = ["train"; "test"] ∧ at_stage [] abhishek_stages 2 s)).
  - eapply hoare_weaken_exn;
      [eapply hoare_weaken;
         [exact (hoare_conj _ _ _ _ _ _ _ (Abhishek_head_splits lib)
                   (Abhishek_head_staged lib))
         |intros s Hs; split; [apply map_empty_subseteq | exact Hs]
         |intros splits s Hs; exact Hs]
      |by intros e s [_ Hs]].
  - intros splits. apply hoare_pure. intros ->. apply Abhishek_tail_staged.
Qed.

(** ** Tokenizing a batch *)

Lemma texts_of_strings (texts : list string) : texts_of (CStr <$> texts) = Ok texts.
Proof.
  unfold texts_of.
  assert (is_valid_text_input (CStr <$> texts) = true) as -> by (by destruct texts).
  induction texts as [|t texts IH]; csimpl; [done|]. by rewrite IH.
Qed.

Lemma encoder_inputs_inv (col : list cell) (texts : list string) :
  encoder_inputs col = Ok texts → col = CStr <$> texts.
Proof.
  revert texts. induction col as [|c col IH]; intros texts; simpl.
  - by intros [= <-].
  - destruct c as [s| |]; simpl; try done.
    destruct (encoder_inputs col) as [rest|e]; simpl; [|done].
    intros [= <-]. csimpl. f_equal. by apply IH.
Qed.

Lemma texts_of_inv (col : list cell) (texts : list string) :
  texts_of col = Ok texts → col = CStr <$> texts.
Proof.
  unfold texts_of. destruct (is_valid_text_input col); [|done].
  apply encoder_inputs_inv.
Qed.

Lemma tokenizer_call_inv tok texts truncation max_length padding enc :
  tokenizer_call tok texts truncation max_length padding = Ok enc →
  texts ≠ [] ∧ enc = batch_encode_plus tok texts truncation max_length padding.
Proof. destruct texts; [done|]. by intros [= <-]. Qed.

Lemma tokenizer_call_nonempty tok texts truncation max_length padding :
  texts ≠ [] →
  tokenizer_call tok texts truncation max_length padding
  = Ok (batch_encode_plus tok texts truncation max_length padding).
Proof. by destruct texts. Qed.

Lemma tokenize_function_tokenizes tok :
  tokenizes tok "text" (Some 128) (Part000.tokenize_function tok).
Proof.
  intros b out. unfold Part000.tokenize_function, getitem.
  destruct (b !! "text") as [col|]; [|done]. simpl.
  destruct (texts_of col) as [texts|e] eqn:Htexts; simpl; [|done].
  destruct (tokenizer_call _ _ _ _ _) as [enc|e] eqn:Henc; simpl; [|done].
  intros [= <-]. apply tokenizer_call_inv in Henc as [_ ->].
  exists texts. by rewrite (texts_of_inv _ _ Htexts).
Qed.

Lemma tokenize_lambda_tokenizes tok :
  tokenizes tok "sms" None (Abhishek.tokenize_lambda tok).
Proof.
  intros b out. unfold Abhishek.tokenize_lambda, getitem.
  destruct (b !! "sms") as [col|]; [|done]. simpl.
  destruct (texts_of col) as [texts|e] eqn:Htexts; simpl; [|done].
  destruct (tokenizer_call _ _ _ _ _) as [enc|e] eqn:Henc; simpl; [|done].
  intros [= <-]. apply tokenizer_call_inv in Henc as [_ ->].
  exists texts. by rewrite (texts_of_inv _ _ Htexts).
Qed.

Lemma encode_one_within tok limit text :
  (2 ≤ limit)%nat →
  tokenized_within tok limit (encode_one tok true limit text)
    (replicate (length (encode_one tok true limit text)) 1%Z).
Proof.
  intros Hlimit. unfold encode_one. split; [|split].
  - simpl. rewrite length_app, length_take. simpl. lia.
  - reflexivity.
  - change (cls_token_id tok :: ?l ++ [?x]) with ((cls_token_id tok :: l) ++ [x]).
    apply last_snoc.
Qed.

Lemma encoded_within tok limit (texts : list string) :
  (2 ≤ limit)%nat →
  Forall2 (tokenized_within tok limit)
    (encode_one tok true limit <$> texts)
    ((λ r : list Z, replicate (length r) 1%Z) <$> (encode_one tok true limit <$> texts)).
Proof.
  intros Hlimit. apply Forall2_fmap_r, Forall2_same_length_lookup. split; [done|].
  intros i ids ids' Hi Hi'. assert (ids' = ids) as -> by congruence.
  apply list_lookup_fmap_Some in Hi as (text & -> & _).
  by apply encode_one_within.
Qed.

(** ** Mapping a tokenizer over a table *)

Lemma lookup_remove_keys {V} (ks : list string) (d : gmap string V) (c : string) :
  remove_keys ks d !! c = if bool_decide (c ∈ ks) then None else d !! c.
Proof.
  unfold remove_keys. induction ks as [|k ks IH]; simpl; [done|].
  destruct (decide (c = k)) as [->|Hne].
  - rewrite lookup_delete_eq. symmetry. rewrite bool_decide_eq_true_2; [done|].
    by left.
  - rewrite lookup_delete_ne, IH by done.
    erewrite (bool_decide_ext (c ∈ k :: ks)); [done|].
    rewrite elem_of_cons. tauto.
Qed.

Lemma tokenized_columns_app tok key max_length a b ta tb :
  tokenized_columns tok key max_length a ta →
  tokenized_columns tok key max_length b tb →
  tokenized_columns tok key max_length (concat_columns a b) (ta ++ tb).
Proof.
  intros (Ha1 & Ha2 & Ha3) (Hb1 & Hb2 & Hb3). unfold concat_columns.
  repeat split; rewrite lookup_union_with.
  - rewrite Ha1, Hb1. simpl. by rewrite fmap_app.
  - rewrite Ha2, Hb2. simpl. by rewrite !fmap_app.
  - rewrite Ha3, Hb3. simpl. by rewrite !fmap_app.
Qed.

Lemma map_batches_tokenized tok key max_length fn rc (bs : list (gmap string (list cell)))
    cols :
  tokenizes tok key max_length fn →
  key ∉ rc → key ≠ "input_ids" → key ≠ "attention_mask" →
  bs ≠ [] →
  map_batches fn rc bs = Ok cols →
  ∃ texts, tokenized_columns tok key max_length cols texts.
Proof.
  intros Hfn Hrc Hk1 Hk2. revert cols.
  induction bs as [|b bs IH]; intros cols Hne; [done|]. simpl.
  destruct (fn b) as [out|e] eqn:Hout; simpl; [|done].
  destruct (map_batches fn rc bs) as [rest|e] eqn:Hrest; simpl; [|done].
  intros [= <-]. destruct (Hfn b out Hout) as (tb & Hb & ->).
  assert (tokenized_columns tok key max_length
            (encoding_columns (batch_encode_plus tok tb true max_length DoNotPad)
             ∪ remove_keys rc b) tb) as Hhead.
  { unfold encoding_columns. repeat split.
    - rewrite lookup_union_r.
      + rewrite lookup_remove_keys, bool_decide_eq_false_2 by done. exact Hb.
      + by rewrite lookup_insert_ne, lookup_singleton_ne.
    - apply lookup_union_Some_l. by rewrite lookup_insert_eq.
    - apply lookup_union_Some_l.
      by rewrite lookup_insert_ne, lookup_singleton_eq. }
  destruct bs as [|b' bs].
  - simpl in Hrest. injection Hrest as <-. exists tb.
    assert (concat_columns
              (encoding_columns (batch_encode_plus tok tb true max_length DoNotPad)
               ∪ remove_keys rc b) ∅
            = encoding_columns (batch_encode_plus tok tb true max_length DoNotPad)
              ∪ remove_keys rc b) as ->; [|exact Hhead].
    apply map_eq. intros c. unfold concat_columns.
    rewrite lookup_union_with, lookup_empty. by destruct (_ !! c).
  - destruct (IH rest) as (tr & Hr); [done..|].
    exists (tb ++ tr). by apply tokenized_columns_app.
Qed.

Lemma batch_starts_nonempty (n : nat) : n ≠ 0 → batch_starts n ≠ [].
Proof.
  intros Hn. unfold batch_starts, batch_size_default.
  assert (1 ≤ (n + 1000 - 1) / 1000)%nat
    by (apply Nat.div_le_lower_bound; lia).
  destruct ((n + 1000 - 1) / 1000); [lia | done].
Qed.

Lemma Dataset_map_tokenized tok key limit max_length fn rc (ds mapped : Dataset) :
  tokenizes tok key max_length fn →
  default (model_max_length tok) max_length = limit → (2 ≤ limit)%nat →
  key ∉ rc → key ≠ "input_ids" → key ≠ "attention_mask" →
  Dataset_map fn rc ds = Ok mapped →
  tokenized_table tok key limit mapped.
Proof.
  intros Hfn Hlimit Htwo Hrc Hk1 Hk2. unfold Dataset_map.
  destruct (filter _ rc); [|done].
  destruct (Nat.eqb_spec (num_rows ds) 0) as [Hz|Hnz].
  { intros [= <-]. by left. }
  destruct (map_batches _ _ _) as [cols|e] eqn:Hcols; simpl; [|done].
  intros [= <-]. right.
  destruct (map_batches_tokenized tok key max_length fn rc
              (Dataset_batch ds <$> batch_starts (num_rows ds)) cols Hfn Hrc Hk1 Hk2)
    as (texts & H1 & H2 & H3); [|exact Hcols|].
  { intros Hnil%fmap_nil_inv. by apply (batch_starts_nonempty (num_rows ds)). }
  unfold batch_encode_plus in H2, H3. rewrite Hlimit in H2, H3. simpl in H2, H3.
  eexists texts, _, _. simpl. repeat split; [exact H1 | exact H2 | exact H3 |].
  by apply encoded_within.
Qed.

Lemma DatasetDict_map_each fn rc (dd mapped : DatasetDict) :
  DatasetDict_map fn rc dd = Ok mapped →
  Forall2 (λ kv kv', kv'.1 = kv.1 ∧ Dataset_map fn rc kv.2 = Ok kv'.2) dd mapped.
Proof.
  revert mapped. induction dd as [|[k ds] dd IH]; intros mapped; simpl.
  - intros [= <-]. constructor.
  - destruct (Dataset_map fn rc ds) as [ds'|e] eqn:Hds; simpl; [|done].
    destruct (DatasetDict_map fn rc dd) as [rest|e]; simpl; [|done].
    intros [= <-]. constructor; [done | by apply IH].
Qed.

Lemma assoc_get_elem_of {V} (d : list (string * V)) k v :
  assoc_get d k = Ok v → (k, v) ∈ d.
Proof.
  induction d as [|[k' v'] d IH]; simpl; [done|].
  destruct (String.eqb_spec k' k) as [->|_].
  - intros [= ->]. by left.
  - intros H. right. by apply IH.
Qed.

Lemma assoc_set_Forall {V} (P : string * V → Prop) (d : list (string * V)) k v :
  Forall P d → P (k, v) → Forall P (assoc_set d k v).
Proof.
  intros Hd Hv. induction Hd as [|[k' v'] d Hx Hd IH]; simpl.
  - by constructor.
  - destruct (String.eqb k' k); constructor; done.
Qed.

Lemma assoc_get_Forall {V} (P : V → Prop) (d : list (string * V)) k v :
  Forall (λ kv, P kv.2) d → assoc_get d k = Ok v → P v.
Proof.
  intros Hd Hv%assoc_get_elem_of.
  exact (proj1 (Forall_forall _ _) Hd (k, v) Hv).
Qed.

Lemma DatasetDict_map_tokenized tok key limit max_length fn rc (dd mapped : DatasetDict) :
  tokenizes tok key max_length fn →
  default (model_max_length tok) max_length = limit → (2 ≤ limit)%nat →
  key ∉ rc → key ≠ "input_ids" → key ≠ "attention_mask" →
  DatasetDict_map fn rc dd = Ok mapped →
  Forall (λ kv, tokenized_table tok key limit kv.2) mapped.
Proof.
  intros Hfn Hlimit Htwo Hrc Hk1 Hk2 Hmap%DatasetDict_map_each.
  induction Hmap as [|[k ds] [k' ds'] dd mapped [Hk Hds] _ IH]; [done|].
  constructor; [|done]. simpl in *. by eapply Dataset_map_tokenized.
Qed.

Lemma DatasetDict_map_keys fn rc (dd mapped : DatasetDict) :
  DatasetDict_map fn rc dd = Ok mapped → mapped.*1 = dd.*1.
Proof.
  intros Hmap%DatasetDict_map_each.
  induction Hmap as [|[k ds] [k' ds'] dd mapped [Hk Hds] _ IH]; [done|].
  simpl in *. subst k'. csimpl. by f_equal.
Qed.

Lemma train_test_split_keys perm entropy size seed ds dd :
  train_test_split perm entropy size seed ds = Ok dd → dd.*1 = ["train"; "test"].
Proof.
  unfold train_test_split. destruct (Nat.eqb _ 0); [by intros [= <-]|].
  destruct (_ || _); [done|]. destruct (Nat.eqb _ 0); [done|]. by intros [= <-].
Qed.

Lemma text_is_not_removed : "text" ∉ Part000.remove_columns.
Proof.
  unfold Part000.remove_columns. rewrite not_elem_of_cons. split; [done|].
  apply not_elem_of_nil.
Qed.

(** ** The runs keep their tokenizer, tokenized splits and collator *)

Ltac tok_facts :=
  repeat
    match goal with
    | H : _ ∧ _ |- _ => destruct H
    | H : ∃ _, _ |- _ => destruct H
    | H : ?x = ?x → _ |- _ => specialize (H eq_refl)
    | H : ?x = ?x ∨ _ → _ |- _ => specialize (H (or_introl eq_refl))
    | H : _ ∨ ?x = ?x → _ |- _ => specialize (H (or_intror eq_refl))
    | H : Some _ = Some _ |- _ => injection H as H
    | H : Ok ?a = Ok ?b |- _ => injection H as H
    | H : ?r = Ok ?a, H' : ?r = Ok ?b |- _ =>
        assert (a = b) by congruence; clear H'
    end;
  subst.

Ltac tok_goal :=
  lazymatch goal with
  | |- True => exact I
  | |- _ ∧ _ => split; tok_goal
  | |- _ = _ → _ => first [ by intros ? | intros _; tok_goal ]
  | |- _ ∨ _ → _ => first [ by intros [?|?] | intros _; tok_goal ]
  | |- ∃ tok, hub_tokenizer _ _ = Ok tok ∧ _ => eexists; split; [eassumption|]; tok_goal
  | |- Forall _ [] => constructor
  | |- Forall _ (assoc_set _ _ _) => apply assoc_set_Forall; [assumption | simpl; tok_goal]
  | |- Forall _ _ =>
      eapply DatasetDict_map_tokenized;
        [apply tokenize_function_tokenizes|reflexivity|lia|apply text_is_not_removed
        |done|done|eassumption]
  | |- _.*1 = _ =>
      first [ by eapply train_test_split_keys
            | by erewrite DatasetDict_map_keys by eassumption ]
  | |- ∀ ds, Some _ = Some ds → _ => intros ? [= <-]; tok_goal
  | |- tokenized_table _ _ _ _ =>
      first [ by eauto
            | by eapply (assoc_get_Forall (λ ds, tokenized_table _ _ _ ds))
            | eapply Dataset_map_tokenized;
                [apply tokenize_lambda_tokenizes|reflexivity|by eauto
                |apply not_elem_of_nil|done|done|eassumption] ]
  | |- _ => by eauto
  end.

Ltac tok_side :=
  use_results;
  unfold part000_tokenized, abhishek_tokenized, tokenized_run, train_and_test in *;
  simpl in *; tok_facts; tok_goal.

Lemma Part000_tokenized_run {W} (lib : Library W) :
  wp (part000_tokenized lib) (Part000.notebook lib) (λ _, True).
Proof.
  unfold Part000.notebook. apply wp_for_each_Forall; [|done].
  unfold Part000.cells. repeat apply Forall_cons_2; try apply Forall_nil_2.
  all: repeat wp_step_with tok_side.
Qed.

Lemma Abhishek_tokenized_run {W} (lib : Library W) :
  (∀ tok, hub_tokenizer lib "distilbert-base-uncased" = Ok tok →
          (2 ≤ model_max_length tok)%nat) →
  wp (abhishek_tokenized lib) (Abhishek.notebook lib) (λ _, True).
Proof.
  intros Hmax.
  unfold Abhishek.notebook. apply wp_for_each_Forall; [|done].
  unfold Abhishek.cells. repeat apply Forall_cons_2; try apply Forall_nil_2.
  all: repeat wp_step_with tok_side.
Qed.

(** ** The second notebook tokenizes both splits *)

Lemma hoare_known {W A} (g : gmap string (value W)) (P : World W → Prop) (m : M W A)
    (Q : A → gmap string (value W) → Prop) (R : A → World W → Prop)
    (E : exn → World W → Prop) :
  hoare P m (λ _, P) (λ _, P) → wpb g m Q →
  (∀ a s g', P s → bound g' s → Q a g' → R a s) →
  (∀ e s, P s → E e s) →
  hoare (λ s, P s ∧ bound g s) m R E.
Proof.
  intros HP Hg HR HE s [Hs Hb]. specialize (HP s Hs). specialize (Hg s Hb).
  destruct (m s) as [[a|e] s']; [|by apply HE].
  destruct Hg as (g' & Hb' & HQ). by eapply HR.
Qed.

Lemma Abhishek_tail_keeps {W} (lib : Library W) (x : string) (o : option (value W)) :
  x ∈ ["tokenized_dataset"; "dataset"; "tokenizer"] →
  hoare (λ s, globals s !! x = o) (for_each (drop 4 (Abhishek.cells lib)) (λ c, c))
        (λ _ s, globals s !! x = o) (λ _ s, globals s !! x = o).
Proof.
  intros Hx. apply hoare_for_each. unfold Abhishek.cells. cbn [drop].
  repeat apply Forall_cons_2; try apply Forall_nil_2.
  all: apply elem_of_cons in Hx as [->|Hx];
    [|apply elem_of_cons in Hx as [->|Hx];
      [|apply list_elem_of_singleton in Hx as ->]].
  all: kept.
Qed.

Lemma Abhishek_tokenizes_both {W} (lib : Library W) :
  hoare (λ s, globals s !! "model" = None) (Abhishek.notebook lib)
        (λ _, both_splits) (λ _ s, globals s !! "model" = None ∨ both_splits s).
Proof.
  eapply hoare_ext; [apply Abhishek_notebook_regrouped|].
  apply (hoare_bind _ _ _
           (λ splits s, splits = ["train"; "test"] ∧
                        globals s !! "model" = None ∧
                        bound {[ "tokenized_dataset" := VDatasetDict [] ]} s)).
  - eapply hoare_weaken;
      [apply (hoare_known ∅ (λ s, globals s !! "model" = None) _
                (λ splits g, splits = ["train"; "test"] ∧
                             g !! "tokenized_dataset" = Some (VDatasetDict [])))
      |intros s Hs; split; [exact Hs | apply map_empty_subseteq]
      |intros a s Hs; exact Hs].
    + kept.
    + repeat wpb_step. split; [by simplify_eq | by simplify_map_eq].
    + intros splits s g' Hs Hb [-> Hg]. split; [done|]. split; [done|].
      apply map_singleton_subseteq_l. by eapply lookup_weaken.
    + intros e s Hs. by left.
  - intros splits. apply hoare_pure. intros ->.
    apply (hoare_bind _ _ _ (λ _, both_splits)).
    + apply (hoare_known _ (λ s, globals s !! "model" = None) _
               (λ _ g, ∃ train test,
                  g !! "tokenized_dataset"
                  = Some (VDatasetDict [("train", train); ("test", test)]))).
      * kept.
      * cbn [for_each]. repeat wpb_step. eexists _, _. by simplify_map_eq.
      * intros _ s g' _ Hb (train & test & Hg). exists train, test.
        by eapply lookup_weaken.
      * intros e s Hs. by left.
    + intros _. apply hoare_exists. intros train. apply hoare_exists. intros test.
      eapply hoare_weaken_exn;
        [eapply hoare_weaken;
           [apply (Abhishek_tail_keeps lib "tokenized_dataset"); by left
           |intros s Hs; exact Hs
           |intros a s Hs; by exists train, test]
        |intros e s Hs; right; by exists train, test].
Qed.

(** ** Padding happens in the prediction loop, batch by batch *)

Lemma evaluate_model_collates {W} (lib : Library W) tok model ds name :
  wpb {[ "tokenizer" := VTokenizer tok ]} (Part000.evaluate_model lib model ds name)
      (λ _ _, evaluated_through lib tok model ds).
Proof.
  unfold Part000.evaluate_model. repeat wpb_step. use_results.
  repeat match goal with
         | H : negb (Nat.eqb _ _) = false |- _ =>
             apply negb_false_iff, Nat.eqb_eq in H
         end.
  match goal with
  | H : prediction_loop _ ?t _ = Ok ?out, Hl : po_label_ids ?out = Some ?l,
    Hp : np_argmax_axis1 _ = Ok ?preds |- _ =>
      exists t, out, l, preds; repeat split; done
  end.
Qed.

Lemma mapM_as_ids (rows : list (list Z)) : mapM_result as_ids (CIds <$> rows) = Ok rows.
Proof. induction rows as [|r rows IH]; csimpl; [done|]. by rewrite IH. Qed.

Lemma max_len_ge (rows : list (list Z)) row :
  row ∈ rows → (length row ≤ max_len rows)%nat.
Proof.
  unfold max_len. induction 1 as [row rows|row row' rows _ IH]; csimpl.
  - apply Nat.le_max_l.
  - etrans; [exact IH | apply Nat.le_max_r].
Qed.

Lemma pad_row_padded fill width row :
  (length row ≤ width)%nat → padded_to fill width row (pad_row fill width row).
Proof.
  intros Hle. unfold pad_row. split.
  - rewrite length_app, length_replicate. lia.
  - by eexists.
Qed.

Lemma collator_pads_batch tok (batch : BatchEncoding) :
  Forall2 (λ ids mask : list Z, length mask = length ids)
    (input_ids batch) (attention_mask batch) →
  Forall2 (padded_to (pad_token_id tok) (max_len (input_ids batch)))
    (input_ids batch) (input_ids (DataCollatorWithPadding tok batch)) ∧
  Forall2 (padded_to 0 (max_len (input_ids batch)))
    (attention_mask batch) (attention_mask (DataCollatorWithPadding tok batch)).
Proof.
  intros Hmask. unfold DataCollatorWithPadding, pad_encoding. simpl. split.
  - apply Forall2_fmap_r, Forall2_same_length_lookup. split; [done|].
    intros i row row' Hi Hi'. assert (row' = row) as -> by congruence.
    apply pad_row_padded, max_len_ge. by eapply list_elem_of_lookup_2.
  - apply Forall2_fmap_r, Forall2_same_length_lookup. split; [done|].
    intros i row row' Hi Hi'. assert (row' = row) as -> by congruence.
    destruct (Forall2_lookup_r _ _ _ _ _ Hmask Hi) as (ids & Hids & Hlen).
    apply pad_row_padded. rewrite Hlen. apply max_len_ge.
    by eapply list_elem_of_lookup_2.
Qed.

(** The batches hold the rows of the table in order, at most [size] each,
    ids and masks side by side. *)
Lemma chunked_rows (R : list Z → list Z → Prop) (size : nat) :
  (0 < size)%nat →
  ∀ fuel (ids masks : list (list Z)),
    Forall2 R ids masks → (length ids ≤ fuel)%nat → (length masks ≤ fuel)%nat →
    let bs := zip_with (λ i m, {| input_ids := i; attention_mask := m |})
                (chunks fuel size ids) (chunks fuel size masks) in
    mjoin (input_ids <$> bs) = ids ∧
    mjoin (attention_mask <$> bs) = masks ∧
    Forall (λ b, (length (input_ids b) ≤ size)%nat ∧
                 Forall2 R (input_ids b) (attention_mask b)) bs.
Proof.
  intros Hsize. induction fuel as [|fuel IH]; intros ids masks HR Hfuel Hfuel'.
  - destruct HR; [done | simpl in Hfuel; lia].
  - destruct HR as [|x y ids masks Hxy HR]; [done|].
    cbn [chunks]. cbn [zip_with]. cbv zeta. rewrite !fmap_cons.
    change (mjoin (?a :: ?l)) with (a ++ mjoin l). cbn [input_ids attention_mask].
    assert (Forall2 R (x :: ids) (y :: masks)) as Hall by (by constructor).
    destruct (IH (drop size (x :: ids)) (drop size (y :: masks))) as (H1 & H2 & H3).
    + by apply Forall2_drop.
    + rewrite length_drop. simpl in *. lia.
    + rewrite length_drop. simpl in *. lia.
    + cbv zeta in H1, H2, H3. rewrite H1, H2, !take_drop.
      split; [done|]. split; [done|]. constructor; [|exact H3].
      cbn [input_ids attention_mask]. split.
      * rewrite length_take. lia.
      * by apply Forall2_take.
Qed.

Lemma prediction_loop_pads_per_batch {W} (lib : Library W) tok key limit
    (t : Trainer W) (m : Model W) (ds : Dataset) (out : PredictionOutput) :
  t_model t = Some m →
  t_data_collator t = DataCollatorWithPadding tok →
  tokenized_split tok key limit ds →
  prediction_loop lib t ds = Ok out →
  ∃ enc,
    features_of ds = Ok enc ∧
    Forall2 (tokenized_within tok limit) (input_ids enc) (attention_mask enc) ∧
    mjoin (input_ids <$> batches (per_device_eval_batch_size (t_args t)) enc)
    = input_ids enc ∧
    Forall (padded_per_batch tok (per_device_eval_batch_size (t_args t)))
      (batches (per_device_eval_batch_size (t_args t)) enc) ∧
    po_predictions out
    = mjoin (logits_of_batch lib m
               <$> (DataCollatorWithPadding tok
                      <$> batches (per_device_eval_batch_size (t_args t)) enc)).
Proof.
  intros Hm Hcoll (texts & ids & masks & _ & Hids & Hmasks & _ & Hwithin).
  assert (features_of ds = Ok {| input_ids := ids; attention_mask := masks |}) as Henc.
  { unfold features_of, column. rewrite Hids, Hmasks. simpl.
    by rewrite !mapM_as_ids. }
  unfold prediction_loop. rewrite Hm, Henc. simpl.
  destruct (labels_of ds) as [labels|e]; simpl; [|done].
  destruct (Nat.eqb_spec (per_device_eval_batch_size (t_args t)) 0) as [|Hsize]; [done|].
  destruct (Nat.eqb _ 0); [done|].
  destruct (negb _); [done|].
  set (size := per_device_eval_batch_size (t_args t)) in *.
  intros Hout.
  assert (po_predictions out
          = mjoin ((λ b, logits_of_batch lib m (t_data_collator t b))
                     <$> batches size {| input_ids := ids; attention_mask := masks |}))
    as Hlogits.
  { destruct (t_compute_metrics t) as [f|], labels as [l|]; simpl in Hout;
      try (by injection Hout as <-).
    destruct (f _); simpl in Hout; [|done]. by injection Hout as <-. }
  eexists. split; [reflexivity|]. split; [exact Hwithin|].
  pose proof (Forall2_length _ _ _ Hwithin) as Hlen.
  destruct (chunked_rows (tokenized_within tok limit) size ltac:(lia)
              (length ids) ids masks Hwithin ltac:(lia) ltac:(lia)) as (H1 & _ & H3).
  unfold batches. cbn [input_ids attention_mask]. rewrite <- Hlen.
  split; [exact H1|]. split.
  - eapply Forall_impl; [exact H3|]. intros b [Hb1 Hb2]. split; [exact Hb1|].
    apply collator_pads_batch. eapply Forall2_impl; [exact Hb2|].
    intros r r' (_ & -> & _). by rewrite length_replicate.
  - rewrite Hlogits, Hcoll. unfold batches. cbn [input_ids attention_mask].
    rewrite <- Hlen. by rewrite <- list_fmap_compose.
Qed.



(** What the second notebook has tokenized when it stops, with the willing
    library: both splits, each row cut and unpadded. *)
Example willing_run_tokenizes :
  ∃ train test,
    globals (Abhishek.notebook willing_library fresh_kernel).2 !! "tokenized_dataset"
    = Some (VDatasetDict [("train", train); ("test", test)]) ∧
    columns test !! "input_ids"
    = Some [CIds [101; 115; 101; 101; 32; 121; 111; 117; 32; 97; 116; 32; 53; 102]%Z].
Proof. eexists _, _. split; vm_compute; reflexivity. Qed.

(** ** Reproducible splits *)

Lemma agree_refl {W A} (m : M W A) : agree m m.
Proof. done. Qed.

Lemma agree_bind {W A B} (m1 m2 : M W A) (f1 f2 : A → M W B) :
  agree m1 m2 → (∀ a, agree (f1 a) (f2 a)) → agree (m1 ≫= f1) (m2 ≫= f2).
Proof.
  intros Hm Hf s. unfold mbind, M_bind. rewrite (Hm s).
  destruct (m2 s) as [[a|e] s']; [apply Hf | done].
Qed.

Lemma agree_call {W A} (lib1 lib2 : Library W) o (r1 r2 : result A) :
  same_but_entropy lib1 lib2 → r1 = r2 → agree (call lib1 o r1) (call lib2 o r2).
Proof. intros (_ & _ & Hfault) -> s. unfold call. by rewrite Hfault. Qed.

Lemma train_test_split_seeded (perm1 perm2 : Z → nat → list nat) e1 e2 size seed ds :
  (∀ z n, perm1 z n = perm2 z n) →
  train_test_split perm1 e1 size (Some seed) ds
  = train_test_split perm2 e2 size (Some seed) ds.
Proof. intros Hperm. unfold train_test_split. simpl. by rewrite Hperm. Qed.

Lemma ceiling_fifth (n : nat) :
  (n ≤ 5 * Z.to_nat (Qceiling ((2 # 10) * inject_Z (Z.of_nat n))) < n + 5)%nat.
Proof.
  assert (Qceiling ((2 # 10) * inject_Z (Z.of_nat n)) = - ((- (2 * Z.of_nat n)) / 10))%Z
    as -> by reflexivity.
  pose proof (Z.div_mod (- (2 * Z.of_nat n)) 10 ltac:(lia)) as Hdm.
  pose proof (Z.mod_pos_bound (- (2 * Z.of_nat n)) 10 ltac:(lia)) as Hb.
  lia.
Qed.

Lemma train_test_split_sizes perm entropy seed ds dd :
  (∀ z n, length (perm z n) = n) →
  train_test_split perm entropy (2 # 10) seed ds = Ok dd →
  ∃ train test,
    dd = [("train", train); ("test", test)] ∧
    (num_rows ds ≤ 5 * num_rows test < num_rows ds + 5)%nat ∧
    (num_rows train + num_rows test = num_rows ds)%nat.
Proof.
  intros Hperm. unfold train_test_split.
  set (n := num_rows ds).
  set (n_test := Z.to_nat (Qceiling ((2 # 10) * inject_Z (Z.of_nat n)))).
  assert (n ≤ 5 * n_test < n + 5)%nat as Hceil by apply ceiling_fifth.
  destruct (Nat.eqb_spec n 0) as [Hz|Hnz].
  { intros [= <-]. eexists _, _. split; [reflexivity|]. fold n. lia. }
  assert (Qle_bool (2 # 10) 0 || Qle_bool 1 (2 # 10) = false) as -> by reflexivity.
  destruct (Nat.eqb_spec (n - n_test) 0) as [|Hne]; [done|].
  intros [= <-]. eexists _, _. split; [reflexivity|]. simpl.
  rewrite !length_take, length_drop, !Hperm. lia.
Qed.

Lemma seeded_split_intro {W} (lib : Library W) name seed hub table dd :
  (∀ z n, length (rng_permutation lib z n) = n) →
  hub_dataset lib name = Ok hub →
  assoc_get hub "train" = Ok table →
  train_test_split (rng_permutation lib) (os_entropy lib) (2 # 10) (Some seed) table
  = Ok dd →
  seeded_split lib name seed (VDatasetDict dd).
Proof.
  intros Hperm Hhub Htable Hsplit.
  destruct (train_test_split_sizes _ _ _ _ _ Hperm Hsplit) as (train & test & -> & Hsizes).
  exists hub, table, train, test. repeat split; first [done | lia].
Qed.

Lemma seeded_split_agree {W} (lib1 lib2 : Library W) name seed v1 v2 :
  same_but_entropy lib1 lib2 →
  seeded_split lib1 name seed v1 → seeded_split lib2 name seed v2 → v1 = v2.
Proof.
  intros (Hhub & Hrng & _).
  intros (hub1 & table1 & train1 & test1 & Hh1 & Ht1 & -> & Hs1 & _).
  intros (hub2 & table2 & train2 & test2 & Hh2 & Ht2 & -> & Hs2 & _).
  rewrite Hhub, Hh2 in Hh1. injection Hh1 as <-.
  rewrite Ht2 in Ht1. injection Ht1 as <-.
  specialize (Hs1 0%Z). specialize (Hs2 0%Z).
  rewrite (train_test_split_seeded _ (rng_permutation lib2) _ 0%Z) in Hs1 by done.
  congruence.
Qed.

Lemma result_bind_Ok {A B} (r : result A) (f : A → result B) b :
  r ≫= f = Ok b → ∃ a, r = Ok a ∧ f a = Ok b.
Proof. destruct r as [a|e]; [|done]. intros H. by exists a. Qed.

Ltac seeded_side Hperm :=
  use_results; unfold part000_split, abhishek_split in *; simpl in *;
  first
    [ done
    | by (intros; simplify_eq/=)
    | by (split; intros; simplify_eq/=)
    | repeat match goal with
             | H : _ ≫= _ = Ok _ |- _ => apply result_bind_Ok in H as (? & ? & ?)
             end;
      tok_facts; simplify_eq;
      repeat match goal with
             | |- _ ∧ _ => split
             | |- _ = _ → _ => first [by intros ? | intros _]
             end;
      by eapply (seeded_split_intro _ _ _ _ _ _ Hperm) ].

Section splits.
Context {W : Type} (lib : Library W).
Context (Hperm : ∀ z n, length (rng_permutation lib z n) = n).

Lemma Part000_split_run : wp (part000_split lib) (Part000.notebook lib) (λ _, True).
Proof using Hperm.
  unfold Part000.notebook. apply wp_for_each_Forall; [|done].
  unfold Part000.cells. repeat apply Forall_cons_2; try apply Forall_nil_2.
  all: repeat wp_step_with ltac:(seeded_side Hperm).
Qed.

Lemma Abhishek_split_run : wp (abhishek_split lib) (Abhishek.notebook lib) (λ _, True).
Proof using Hperm.
  unfold Abhishek.notebook. apply wp_for_each_Forall; [|done].
  unfold Abhishek.cells. repeat apply Forall_cons_2; try apply Forall_nil_2.
  all: repeat wp_step_with ltac:(seeded_side Hperm).
Qed.

End splits.



(** The recorded run of the second notebook holds the split of the five
    messages in [dataset], also when the library would draw another
    entropy. *)
Example recorded_split_is_bound :
  globals (Abhishek.notebook recorded_library fresh_kernel).2 !! "dataset"
  = Some (VDatasetDict sms_split) ∧
  globals (Abhishek.notebook (with_entropy 99 recorded_library) fresh_kernel).2
    !! "dataset" = Some (VDatasetDict sms_split).
Proof. split; vm_compute; reflexivity. Qed.

(** ** The first notebook cannot finish on a table without that column *)

Lemma train_test_split_lacks perm entropy size seed ds dd :
  columns ds !! "index, date, id, username, text, party" = None →
  train_test_split perm entropy size seed ds = Ok dd →
  lacks_joined_column dd.
Proof.
  intros Hds. unfold train_test_split.
  destruct (Nat.eqb (num_rows ds) 0).
  { intros [= <-]. by eexists _, _, _. }
  destruct (_ || _); [done|]. destruct (Nat.eqb _ 0); [done|].
  intros [= <-]. eexists _, _, _. split; [reflexivity|]. simpl.
  by rewrite lookup_fmap, Hds.
Qed.

Lemma DatasetDict_map_lacks fn dd :
  lacks_joined_column dd →
  DatasetDict_map fn Part000.remove_columns dd
  = Raise (ValueError "Column to remove not in the dataset").
Proof.
  intros (k & ds & rest & -> & Hds). simpl. unfold Dataset_map, Part000.remove_columns.
  rewrite filter_cons, decide_True by done. reflexivity.
Qed.

Lemma wp_for_each_stuck {W A} (φ : string → value W → Prop)
    (body : A → M W unit) (l1 l2 : list A) (x : A) :
  Forall (λ y, wp φ (body y) (λ _, True)) l1 →
  wp φ (body x) (λ _, False) →
  wp φ (for_each (l1 ++ x :: l2) body) (λ _, False).
Proof.
  intros Hl1 Hx. induction Hl1 as [|y l1 Hy Hl1 IH]; simpl.
  - apply wp_bind. eapply wp_mono; [exact Hx|]. by intros ? [].
  - apply wp_bind. eapply wp_mono; [exact Hy|]. intros ? _. exact IH.
Qed.

Ltac split_side Hhub :=
  use_results; unfold split_lacks_joined_column; simpl in *;
  first
    [ done
    | by (intros _; eexists; split; [reflexivity|];
          eapply train_test_split_lacks; [eapply Hhub|]; eauto) ].

Ltac split_step Hhub :=
  lazymatch goal with
  | |- wp _ (mbind _ _) _ => apply wp_bind
  | |- wp _ (mret _) _ => apply wp_ret
  | |- wp _ (raise _ _) _ => apply wp_raise
  | |- wp _ (call _ _ _) _ => apply wp_call; intros ? ?
  | |- wp _ (assign _ _) _ => apply wp_assign; [split_side Hhub|]
  | |- wp _ (read _) _ => apply wp_read; intros ? ?
  | |- wp _ (write _) _ => apply wp_write
  | |- wp _ (match ?x with _ => _ end) _ => destruct x eqn:?
  | |- wp _ _ _ => progress autounfold with notebook
  | |- True => exact I
  end.

Lemma Part000_never_completes_on_such_hubs {W} (lib : Library W) :
  hub_lacks_joined_column lib →
  (Part000.notebook lib fresh_kernel).1 ≠ Ok ().
Proof.
  intros Hhub.
  assert (wp split_lacks_joined_column (Part000.notebook lib) (λ _, False)) as Hwp.
  { unfold Part000.notebook, Part000.cells.
    apply (wp_for_each_stuck split_lacks_joined_column (λ c, c)
             [ Part000.cell_install; Part000.cell_imports lib;
               Part000.cell_configuration lib; Part000.cell_dynamo;
               Part000.cell_load_dataset lib; Part000.cell_model lib ]).
    - repeat apply Forall_cons_2; try apply Forall_nil_2.
      all: repeat split_step Hhub.
    - unfold Part000.cell_tokenize_and_evaluate.
      repeat
        lazymatch goal with
        | |- wp _ (call _ op_map _) _ =>
            apply wp_call; intros a Ha; exfalso;
            match goal with
            | H : split_lacks_joined_column "split_dataset" _ |- _ =>
                destruct (H eq_refl) as (dd & Hdd & Hlacks)
            end;
            simplify_eq; by rewrite (DatasetDict_map_lacks _ _ Hlacks) in Ha
        | |- _ => split_step Hhub
        end. }
  specialize (Hwp fresh_kernel (governed_fresh _)).
  destruct (Part000.notebook lib fresh_kernel) as [[[]|e] s']; [by destruct Hwp | done].
Qed.

Lemma recorded_hub_lacks_joined_column : hub_lacks_joined_column recorded_library.
Proof.
  intros name dd ds. simpl. unfold recorded_hub.
  destruct (String.eqb name "Jacobvs/PoliticalTweets").
  { intros [= <-]. simpl. by intros [= <-]. }
  destruct (String.eqb name "sms_spam"); [|done].
  intros [= <-]. simpl. by intros [= <-].
Qed.

(** ** Neither notebook runs to its end on the recorded inputs *)

Lemma for_each_reaches {W A} (l1 l2 : list A) (x : A) (body : A → M W unit) s s' :
  for_each (l1 ++ x :: l2) body s = (Ok (), s') →
  ∃ s1 s2, body x s1 = (Ok (), s2).
Proof.
  revert s. induction l1 as [|y l1 IH]; intros s; simpl; unfold mbind, M_bind.
  - destruct (body x s) as [[[]|e] s2] eqn:Hx; [|done]. eauto.
  - destruct (body y s) as [[[]|e] s1]; [|done]. apply IH.
Qed.

Lemma Abhishek_cell_save_raises {W} (lib : Library W) s :
  (Abhishek.cell_save lib s).1 ≠ Ok ().
Proof.
  unfold Abhishek.cell_save, save_pretrained, read, model_with, no_attribute, wrong_type, call.
  unfold mbind, M_bind, mret, M_ret.
  destruct (globals s !! "peft_model") as [[]|]; simpl; try done.
  by destruct (fault lib (log s) op_save_pretrained).
Qed.

Lemma Abhishek_never_completes {W} (lib : Library W) s :
  (Abhishek.notebook lib s).1 ≠ Ok ().
Proof.
  destruct (Abhishek.notebook lib s) as [[[]|e] s'] eqn:Hrun; [|done].
  unfold Abhishek.notebook, Abhishek.cells in Hrun.
  apply (for_each_reaches
           [ Abhishek.cell_install; Abhishek.cell_imports lib;
             Abhishek.cell_load_dataset lib; Abhishek.cell_tokenize lib;
             Abhishek.cell_model lib; Abhishek.cell_pre_evaluation;
             Abhishek.cell_lora lib; Abhishek.cell_train lib;
             Abhishek.cell_post_evaluation lib ]
           [ Abhishek.cell_reload; Abhishek.cell_loaded_evaluation lib ]
           (Abhishek.cell_save lib)) in Hrun as (s1 & s2 & Hsave).
  pose proof (Abhishek_cell_save_raises lib s1) as Hne. by rewrite Hsave in Hne.
Qed.

(** C1 (the code does not do what the claim says).  On the recorded inputs
    neither notebook reaches its later stages.  The first stops in cell 7:
    [remove_columns] names one column, "index, date, id, username, text,
    party", which the dataset does not have, so [map] raises before anything
    is tokenized or evaluated.  The second stops in cell 8, where
    [get_peft_model] is given [target_modules=None], after a cell 7 whose
    evaluation is a placeholder: its stages never include [Train],
    [Evaluate] or [Save]. *)
Theorem notebooks_abort_on_recorded_inputs :
  (Part000.notebook recorded_library fresh_kernel).1
    = Raise (ValueError "Column to remove not in the dataset") ∧
  log (Part000.notebook recorded_library fresh_kernel).2
    = [ ECall op_import; ECall op_load_dataset; ECall op_subscript;
        ECall op_train_test_split; ECall op_AutoTokenizer_from_pretrained;
        ECall op_AutoModel_from_pretrained;
        EFail op_map (ValueError "Column to remove not in the dataset") ] ∧
  (Abhishek.notebook recorded_library fresh_kernel).1
    = Raise (ValueError "Please specify `target_modules` in `peft_config`") ∧
  stages (log (Abhishek.notebook recorded_library fresh_kernel).2)
    = [LoadDataset; LoadTokenizer; Tokenize; Tokenize; LoadModel; ConfigureAdapter].
Proof. repeat split; vm_compute; reflexivity. Qed.

(** ** Exceptions leave the notebook as they are raised *)

Lemma clean_fresh {W} : clean (fresh_kernel (Weights:=W)).
Proof. split; [constructor | reflexivity]. Qed.

(** C2.  Whatever the libraries do, a run of either notebook from a fresh
    kernel ends in one of two ways.  Either no call failed at all, or the
    run ends with the exception [e] of the one call that failed: that
    failure is the last event of the run, so nothing was caught, retried or
    cleaned up after it, and the notebook's variables are those of the moment
    the call raised. *)
Theorem exceptions_propagate_unhandled {W} (lib : Library W) :
  (match Part000.notebook lib fresh_kernel with
   | (Ok _, s) => clean s
   | (Raise e, s) => failed_with e s
   end) ∧
  (match Abhishek.notebook lib fresh_kernel with
   | (Ok _, s) => clean s
   | (Raise e, s) => failed_with e s
   end).
Proof.
  split.
  - apply (Part000_propagates lib fresh_kernel clean_fresh).
  - apply (Abhishek_propagates lib fresh_kernel clean_fresh).
Qed.

(** ** The order of the stages *)



(** ** What a run writes *)

(** C5, as stated, fails: a complete run of the first notebook leaves the
    training arguments beside the saved model and optimizer state in a
    checkpoint under the output directory, and even runs that abort have
    installed packages and filled the hub cache. *)
Lemma more_than_weights_is_written :
  forallb (λ f, weights_or_tokenizer (kind f))
    (disk (Part000.notebook obliging_library fresh_kernel).2) = false ∧
  on_disk (Dir Part000.final_model_path) TrainingArgsBin
    (disk (Part000.notebook obliging_library fresh_kernel).2) = true ∧
  on_disk (Checkpoint Part000.ADAPTER_PATH 50) OptimizerState
    (disk (Part000.notebook obliging_library fresh_kernel).2) = true ∧
  on_disk SitePackages Package
    (disk (Part000.notebook recorded_library fresh_kernel).2) = true ∧
  on_disk HubCache CachedDataset
    (disk (Abhishek.notebook recorded_library fresh_kernel).2) = true.
Proof. repeat split; vm_compute; reflexivity. Qed.

(** C5, amended.  From any state of the disk, a run of either notebook
    changes the disk only by writing files that the libraries write where
    they write them ([allowed_file]): packages in site-packages, downloads
    and map results in the hub cache, in a save directory the model's
    weights, configuration and card, the tokenizer files and the training
    arguments, and in a checkpoint directory those plus optimizer,
    scheduler, random generator and trainer state; and only at the places
    of that notebook.  Every file of the disk after the run was there
    before or was so written; every file that was there before is still
    there as it was, unless a file so written has taken its name and place;
    and a file at any other place is kept.  On [earlier_disk] the complete
    run of the first notebook replaces the earlier model by the trained
    adapter and keeps the other file. *)
Theorem disk_changes_only_by_library_files {W} (lib : Library W) (d0 : list (file W)) :
  changed_from part000_place d0 (disk (Part000.notebook lib (kernel_on d0)).2) ∧
  changed_from abhishek_place d0 (disk (Abhishek.notebook lib (kernel_on d0)).2) ∧
  (∀ f, f ∈ d0 → part000_place (loc f) = false →
        f ∈ disk (Part000.notebook lib (kernel_on d0)).2) ∧
  (∀ f, f ∈ d0 → abhishek_place (loc f) = false →
        f ∈ disk (Abhishek.notebook lib (kernel_on d0)).2) ∧
  (payload <$> file_at {| loc := Dir Part000.final_model_path; kind := ModelWeights;
                          payload := None |}
                 (disk (Part000.notebook obliging_library (kernel_on earlier_disk)).2))
  = Some (Some {| config := {| name_or_path := Part000.MODEL_ID; num_labels := 2;
                               id2label := Part000.id2label_arg; label2id := None |};
                  weights := 1; peft_config := Some Part000.dora_config |}) ∧
  file_at (plain (Dir "./notes") TrainingArgsBin)
    (disk (Part000.notebook obliging_library (kernel_on earlier_disk)).2)
  = Some (plain (Dir "./notes") TrainingArgsBin).
Proof.
  pose proof (wpd_run _ _ _ _ _ (Part000_placed lib d0)) as Hp.
  pose proof (wpd_run _ _ _ _ _ (Abhishek_placed lib d0)) as Ha.
  split; [exact Hp|]. split; [exact Ha|]. split; [|split; [|split]].
  - intros f Hf Hok. by eapply changed_from_elsewhere.
  - intros f Hf Hok. by eapply changed_from_elsewhere.
  - vm_compute. reflexivity.
  - vm_compute. reflexivity.
Qed.

(** ** Two classes, and labels as the dataset has them *)

Lemma prediction_loop_labels {W} (lib : Library W) t ds out :
  prediction_loop lib t ds = Ok out →
  labels_of ds = Ok (po_label_ids out) ∧
  ∀ d, po_metrics out = Some d →
    ∃ f l, t_compute_metrics t = Some f ∧ labels_of ds = Ok (Some l) ∧
           f {| predictions := po_predictions out; label_ids := l |} = Ok d.
Proof.
  unfold prediction_loop. destruct (t_model t); [|done].
  destruct (features_of ds); simpl; [|done].
  destruct (labels_of ds) as [labels|]; simpl; [|done].
  do 2 (destruct (Nat.eqb _ 0); [done|]).
  destruct (negb _); [done|].
  destruct (t_compute_metrics t) as [f|], labels as [l|]; simpl;
    try (by intros [= <-]).
  destruct (f _) as [d|] eqn:Hf; simpl; [|done]. intros [= <-]. simpl.
  split; [done|]. intros d' [= <-]. by exists f, l.
Qed.

Lemma binary_ints (col : list cell) (l : list Z) :
  Forall (λ c, is_binary c = true) col → mapM_result as_int col = Ok l →
  Forall binary_label l.
Proof.
  intros Hcol. revert l. induction Hcol as [|c col Hc _ IH]; intros l; simpl.
  - by intros [= <-].
  - destruct c as [|z|]; simpl; try done.
    destruct (mapM_result as_int col) as [rest|e]; simpl; [|done].
    intros [= <-]. constructor; [|by apply IH].
    unfold binary_label. destruct z as [|[]|]; simpl in Hc; try done; auto.
Qed.

Lemma labels_of_binary (ds : Dataset) (l : list Z) :
  binary_labels (columns ds) → labels_of ds = Ok (Some l) → Forall binary_label l.
Proof.
  intros Hds. unfold labels_of.
  destruct (columns ds !! "label") as [col|] eqn:H1.
  - destruct (mapM_result as_int col) as [k|e] eqn:Hk; simpl; [|done].
    intros [= <-]. eapply binary_ints; [|exact Hk]. eapply Hds; [by left | done].
  - destruct (columns ds !! "labels") as [col|] eqn:H2; [|done].
    destruct (mapM_result as_int col) as [k|e] eqn:Hk; simpl; [|done].
    intros [= <-]. eapply binary_ints; [|exact Hk]. eapply Hds; [by right | done].
Qed.

Lemma prediction_loop_binary {W} (lib : Library W) (t : Trainer W) ds out :
  binary_labels (columns ds) → prediction_loop lib t ds = Ok out →
  (∀ l, po_label_ids out = Some l → Forall binary_label l) ∧
  (∀ d, po_metrics out = Some d →
     ∃ f l, t_compute_metrics t = Some f ∧ Forall binary_label l ∧
            f {| predictions := po_predictions out; label_ids := l |} = Ok d).
Proof.
  intros Hds [Hlabels Hmetrics]%prediction_loop_labels. split.
  - intros l Hl. rewrite Hl in Hlabels. by eapply labels_of_binary.
  - intros d Hd. destruct (Hmetrics d Hd) as (f & l & Hf & Hl & Hfd).
    exists f, l. split; [done|]. split; [by eapply labels_of_binary | done].
Qed.

(** *** Splitting and mapping keep the labels *)

Lemma binary_select (idx : list nat) (ds : Dataset) :
  binary_labels (columns ds) → binary_labels (columns (Dataset_select idx ds)).
Proof.
  intros Hds k col Hk. simpl. rewrite lookup_fmap.
  destruct (columns ds !! k) as [c|] eqn:Hc; simpl; [|done]. intros [= <-].
  apply Forall_forall. intros x (i & _ & Hx)%list_elem_of_omap.
  apply list_elem_of_lookup_2 in Hx.
  by apply (proj1 (Forall_forall _ _) (Hds k c Hk Hc)).
Qed.

Lemma train_test_split_binary perm entropy size seed ds dd :
  binary_labels (columns ds) →
  train_test_split perm entropy size seed ds = Ok dd →
  Forall (λ kv, binary_labels (columns kv.2)) dd.
Proof.
  intros Hds. unfold train_test_split.
  destruct (Nat.eqb _ 0); [intros [= <-]; by repeat constructor|].
  destruct (_ || _); [done|]. destruct (Nat.eqb _ 0); [done|].
  intros [= <-]. repeat constructor; simpl; by apply binary_select.
Qed.

Lemma binary_batch (ds : Dataset) (start : nat) :
  binary_labels (columns ds) → binary_labels (Dataset_batch ds start).
Proof.
  intros Hds k col Hk. unfold Dataset_batch. rewrite lookup_fmap.
  destruct (columns ds !! k) as [c|] eqn:Hc; simpl; [|done]. intros [= <-].
  apply Forall_take, Forall_drop. by eapply Hds.
Qed.

Lemma binary_remove_keys rc (cols : gmap string (list cell)) :
  binary_labels cols → binary_labels (remove_keys rc cols).
Proof.
  intros Hcols k col Hk. rewrite lookup_remove_keys.
  destruct (bool_decide _); [done|]. by apply Hcols.
Qed.

Lemma binary_concat (a b : gmap string (list cell)) :
  binary_labels a → binary_labels b → binary_labels (concat_columns a b).
Proof.
  intros Ha Hb k col Hk. unfold concat_columns. rewrite lookup_union_with.
  destruct (a !! k) as [x|] eqn:Hx, (b !! k) as [y|] eqn:Hy; simpl; try done.
  - intros [= <-]. apply Forall_app. split; [by eapply Ha | by eapply Hb].
  - intros [= <-]. by eapply Ha.
  - intros [= <-]. by eapply Hb.
Qed.

Lemma tokenizes_adds_no_labels tok key max_length fn :
  tokenizes tok key max_length fn → adds_no_labels fn.
Proof. intros Hfn b out Hout. by destruct (Hfn b out Hout) as (texts & _ & ->). Qed.

Lemma map_batches_binary fn rc (bs : list (gmap string (list cell))) cols :
  adds_no_labels fn → Forall binary_labels bs →
  map_batches fn rc bs = Ok cols → binary_labels cols.
Proof.
  intros Hfn Hbs. revert cols. induction Hbs as [|b bs Hb _ IH]; intros cols; simpl.
  - intros [= <-]. intros k col _. by rewrite lookup_empty.
  - destruct (fn b) as [out|e] eqn:Hout; simpl; [|done].
    destruct (map_batches fn rc bs) as [rest|e]; simpl; [|done].
    intros [= <-]. apply binary_concat; [|by apply IH].
    destruct (Hfn b out Hout) as [H1 H2].
    intros k col Hk. rewrite lookup_union_r by (by destruct Hk as [-> | ->]).
    by apply binary_remove_keys.
Qed.

Lemma Dataset_map_binary fn rc (ds mapped : Dataset) :
  adds_no_labels fn → binary_labels (columns ds) →
  Dataset_map fn rc ds = Ok mapped → binary_labels (columns mapped).
Proof.
  intros Hfn Hds. unfold Dataset_map. destruct (filter _ rc); [|done].
  destruct (Nat.eqb _ 0).
  { intros [= <-]. simpl. by apply binary_remove_keys. }
  destruct (map_batches _ _ _) as [cols|e] eqn:Hcols; simpl; [|done].
  intros [= <-]. simpl. eapply map_batches_binary; [exact Hfn| |exact Hcols].
  apply Forall_fmap, Forall_forall. intros start _. by apply binary_batch.
Qed.

Lemma DatasetDict_map_binary fn rc (dd mapped : DatasetDict) :
  adds_no_labels fn → Forall (λ kv, binary_labels (columns kv.2)) dd →
  DatasetDict_map fn rc dd = Ok mapped →
  Forall (λ kv, binary_labels (columns kv.2)) mapped.
Proof.
  intros Hfn Hdd Hmap%DatasetDict_map_each.
  induction Hmap as [|[k ds] [k' ds'] dd mapped [Hk Hds] _ IH]; [done|].
  apply Forall_cons in Hdd as [Hd Hdd].
  constructor; [|by apply IH]. simpl in *. by eapply Dataset_map_binary.
Qed.

Lemma binary_assoc_get (dd : DatasetDict) k ds :
  Forall (λ kv, binary_labels (columns kv.2)) dd → assoc_get dd k = Ok ds →
  binary_labels (columns ds).
Proof. apply (assoc_get_Forall (λ ds, binary_labels (columns ds))). Qed.

Ltac binary_goal Hhub :=
  lazymatch goal with
  | |- True => exact I
  | |- _ ∧ _ => split; binary_goal Hhub
  | |- ∀ ds, Some _ = Some ds → _ => intros ? [= <-]; binary_goal Hhub
  | |- Forall _ [] => constructor
  | |- Forall _ (assoc_set _ _ _) =>
      apply assoc_set_Forall; [assumption | simpl; binary_goal Hhub]
  | |- Forall (λ kv, binary_labels _) _ =>
      first [ assumption
            | by eapply Hhub
            | eapply train_test_split_binary; [|eassumption]; binary_goal Hhub
            | eapply DatasetDict_map_binary; [|eassumption|eassumption];
              eapply tokenizes_adds_no_labels; apply tokenize_function_tokenizes ]
  | |- binary_labels _ =>
      first [ assumption
            | by eauto
            | by eapply binary_assoc_get; [|eassumption]; first [assumption | eapply Hhub]
            | eapply Dataset_map_binary; [|  |eassumption];
              [eapply tokenizes_adds_no_labels; apply tokenize_lambda_tokenizes
              |binary_goal Hhub] ]
  | |- ∀ l, _ = Some l → Forall binary_label l =>
      first [ by eapply prediction_loop_binary; [|eassumption]; binary_goal Hhub
            | by eauto ]
  | |- _ => by eauto
  end.

Ltac binary_side Hhub :=
  use_results; unfold binary_data in *; simpl in *;
  repeat match goal with
         | H : _ ≫= _ = Ok _ |- _ => apply result_bind_Ok in H as (? & ? & ?)
         end;
  tok_facts; binary_goal Hhub.

Section binary.
Context {W : Type} (lib : Library W) (Hhub : binary_hub lib).

Lemma Part000_binary_data : wp binary_data (Part000.notebook lib) (λ _, True).
Proof using Hhub.
  unfold Part000.notebook. apply wp_for_each_Forall; [|done].
  unfold Part000.cells. repeat apply Forall_cons_2; try apply Forall_nil_2.
  all: repeat wp_step_with ltac:(binary_side Hhub).
Qed.

Lemma Abhishek_binary_data : wp binary_data (Abhishek.notebook lib) (λ _, True).
Proof using Hhub.
  unfold Abhishek.notebook. apply wp_for_each_Forall; [|done].
  unfold Abhishek.cells. repeat apply Forall_cons_2; try apply Forall_nil_2.
  all: repeat wp_step_with ltac:(binary_side Hhub).
Qed.

End binary.

Lemma evaluate_model_reports_binary {W} (lib : Library W) model ds name :
  binary_labels (columns ds) →
  wpb ∅ (Part000.evaluate_model lib model ds name)
      (λ _ _, reported_on_binary lib model ds).
Proof.
  intros Hds. unfold Part000.evaluate_model. repeat wpb_step. use_results.
  match goal with
  | H : prediction_loop _ ?t _ = Ok ?out, Hl : po_label_ids ?out = Some ?l,
    Hp : np_argmax_axis1 _ = Ok ?preds |- _ =>
      exists t, out, l, preds; repeat split; try done;
      [|by eapply prediction_loop_binary]
  end.
  match goal with
  | H : negb (Nat.eqb ?a ?b) = false |- _ =>
      apply negb_false_iff, Nat.eqb_eq in H; exact H
  end.
Qed.


Lemma binary_labels_check (ds : Dataset) :
  forallb is_binary (default [] (columns ds !! "label")) = true →
  forallb is_binary (default [] (columns ds !! "labels")) = true →
  binary_labels (columns ds).
Proof.
  intros H1 H2 k col [-> | ->] Hcol; rewrite Hcol in *; simpl in *.
  - apply Forall_forall. intros c Hc%list_elem_of_In.
    by apply (proj1 (forallb_forall _ _) H1).
  - apply Forall_forall. intros c Hc%list_elem_of_In.
    by apply (proj1 (forallb_forall _ _) H2).
Qed.


(** The complete run of the first notebook on that hub has stored the
    labels of its test split. *)
Example willing_run_consumes_binary_labels :
  (Part000.notebook willing_library fresh_kernel).1 = Ok () ∧
  consumed_labels (Part000.notebook willing_library fresh_kernel).2
  = Some ((λ i, if Nat.even i then 1 else 0)%Z <$> reverse (seq 158 50)).
Proof. split; vm_compute; reflexivity. Qed.

(** ** Predicted classes are keys of the label mapping *)

(** C10.  In every run of the first notebook the models and trainers its
    variables hold are two-class models with the notebook's [id2label]; and
    for such a model each prediction the loop returns has its argmax, every
    predicted class is 0 or 1, and it is a key of the model's [id2label]. *)
Theorem predicted_classes_are_label_keys {W} (lib : Library W)
    (t : Trainer W) (m : Model W) (ds : Dataset) (out : PredictionOutput) :
  t_model t = Some m →
  two_class Part000.id2label_arg m →
  prediction_loop lib t ds = Ok out →
  governed (binary_value Part000.id2label_arg) (Part000.notebook lib fresh_kernel).2 ∧
  ∃ preds,
    np_argmax_axis1 (po_predictions out) = Ok preds ∧
    length preds = length (po_predictions out) ∧
    Forall (λ c, (c = 0 ∨ c = 1)%Z ∧ is_Some (id2label (config m) !! c)) preds.
Proof.
  intros Hm Hcfg Hout. split.
  - pose proof (Part000_binary lib fresh_kernel (governed_fresh _)) as H.
    destruct (Part000.notebook lib fresh_kernel) as [[[]|e] s']; [apply H | exact H].
  - destruct (argmax_of_predictions_total lib t m ds out Hm) as (preds & Hpreds & Hlen);
      [destruct Hcfg as [-> _]; lia | done |].
    exists preds. split; [done|]. split; [done|].
    destruct Hcfg as [Hn Hi2l]. rewrite Hi2l.
    apply (argmax_of_predictions_in_keys lib Part000.id2label_arg t ds out preds);
      [apply Part000_id2label_dom | | done | done].
    intros m' Hm'. assert (m' = m) as -> by congruence. by split.
Qed.

Lemma predicted_classes_witness :
  governed (binary_value Part000.id2label_arg)
    (Part000.notebook recorded_library fresh_kernel).2 ∧
  ∃ preds,
    np_argmax_axis1 (po_predictions sample_output) = Ok preds ∧
    length preds = length (po_predictions sample_output) ∧
    Forall (λ c, (c = 0 ∨ c = 1)%Z ∧ is_Some (id2label (config sample_model) !! c)) preds.
Proof.
  apply (predicted_classes_are_label_keys recorded_library sample_trainer sample_model
           sample_split sample_output).
  - reflexivity.
  - split; reflexivity.
  - vm_compute. reflexivity.
Defined.

(** ** More on [compute_metrics] *)

Lemma np_argmax_axis1_length (a : list (list Q)) preds :
  np_argmax_axis1 a = Ok preds → length preds = length a.
Proof.
  revert preds. induction a as [|row a IH]; intros preds; simpl.
  - by intros [= <-].
  - destruct (np_argmax row) as [i|e]; simpl; [|done].
    destruct (np_argmax_axis1 a) as [rest|e]; simpl; [|done].
    intros [= <-]. simpl. f_equal. by apply IH.
Qed.

Lemma np_argmax_axis1_inv (a : list (list Q)) :
  match np_argmax_axis1 a with
  | Ok _ => Forall (λ row, row ≠ []) a
  | Raise e =>
      e = ValueError "attempt to get argmax of an empty sequence" ∧
      Exists (λ row, row = []) a
  end.
Proof.
  induction a as [|row a IH]; simpl; [constructor|].
  destruct row as [|x row]; simpl.
  - split; [done|]. by left.
  - destruct (np_argmax_axis1 a) as [rest|e]; simpl.
    + by constructor.
    + destruct IH as [-> IH]. split; [done|]. by right.
Qed.

Lemma compute_metrics_total (p : EvalPrediction) :
  length (predictions p) = length (label_ids p) →
  Forall (λ row, row ≠ []) (predictions p) →
  ∃ ms, compute_metrics p = Ok ms.
Proof.
  destruct p as [logits labels]. simpl. intros Hlen Hrows.
  destruct (np_argmax_axis1_total logits Hrows) as [preds [Hpreds Hplen]].
  unfold compute_metrics. simpl. rewrite Hpreds. simpl.
  unfold precision_recall_fscore_support_macro.
  replace (length labels) with (length preds) by congruence.
  rewrite Nat.eqb_refl. simpl. by eexists.
Qed.

(** X6.  [compute_metrics] returns exactly when there are as many logit rows as
    labels and no row is empty; in every other case it raises a
    [ValueError] (from the argmax or from sklearn's length check), so it
    never returns metrics for arrays that do not line up. *)
Theorem compute_metrics_returns_iff (p : EvalPrediction) :
  match compute_metrics p with
  | Ok _ =>
      length (predictions p) = length (label_ids p) ∧
      Forall (λ row, row ≠ []) (predictions p)
  | Raise e =>
      (∃ msg, e = ValueError msg) ∧
      (length (predictions p) ≠ length (label_ids p) ∨
       Exists (λ row, row = []) (predictions p))
  end.
Proof.
  destruct p as [logits labels]. unfold compute_metrics. simpl.
  pose proof (np_argmax_axis1_inv logits) as Hinv.
  pose proof (np_argmax_axis1_length logits) as Hlen.
  destruct (np_argmax_axis1 logits) as [preds|e]; simpl.
  - specialize (Hlen preds eq_refl).
    unfold precision_recall_fscore_support_macro.
    destruct (Nat.eqb_spec (length labels) (length preds)) as [Heq|Hne]; simpl.
    + split; [congruence | done].
    + split; [by eexists|]. left. congruence.
  - destruct Hinv as [-> Hex]. split; [by eexists|]. by right.
Qed.

Lemma count_if_elem (c : Z) (l : list Z) : c ∈ l → (0 < count_if (Z.eqb c) l)%nat.
Proof.
  induction l as [|y l IH]; [by intros ?%elem_of_nil|].
  rewrite count_if_cons. intros [->|Hin]%elem_of_cons.
  - rewrite Z.eqb_refl. lia.
  - specialize (IH Hin). lia.
Qed.

Lemma count_if_replicate (c a : Z) n :
  count_if (Z.eqb c) (replicate n a) = if Z.eqb c a then n else 0.
Proof.
  induction n as [|n IH]; simpl.
  - by destruct (Z.eqb c a).
  - rewrite count_if_cons, IH. by destruct (Z.eqb c a).
Qed.

Lemma true_positives_diag (l : list Z) c :
  true_positives l l c = count_if (Z.eqb c) l.
Proof.
  unfold true_positives. induction l as [|a l IH]; simpl; [done|].
  rewrite !count_if_cons, IH. simpl. rewrite (Z.eqb_sym c a).
  by destruct (Z.eqb a c).
Qed.

Lemma true_positives_replicate (l : list Z) a c :
  true_positives l (replicate (length l) a) c
  = if Z.eqb c a then count_if (Z.eqb c) l else 0.
Proof.
  unfold true_positives. induction l as [|x l IH]; simpl.
  - by destruct (Z.eqb c a).
  - rewrite !count_if_cons, IH. simpl.
    rewrite (Z.eqb_sym c x), (Z.eqb_sym c a).
    destruct (Z.eqb x c), (Z.eqb a c); simpl; lia.
Qed.

Lemma matches_replicate (l : list Z) a :
  count_if (λ p : Z * Z, Z.eqb p.1 p.2) (zip (replicate (length l) a) l)
  = count_if (Z.eqb a) l.
Proof.
  induction l as [|x l IH]; simpl; [done|].
  by rewrite !count_if_cons, IH.
Qed.

Lemma elem_of_unique_labels y_true y_pred c :
  c ∈ unique_labels y_true y_pred ↔ c ∈ y_true ∨ c ∈ y_pred.
Proof.
  unfold unique_labels. rewrite merge_sort_Permutation, elem_of_remove_dups.
  apply elem_of_app.
Qed.

Lemma NoDup_unique_labels y_true y_pred : NoDup (unique_labels y_true y_pred).
Proof.
  unfold unique_labels. rewrite merge_sort_Permutation. apply NoDup_remove_dups.
Qed.

Lemma Qsum_const (l : list Q) q :
  Forall (λ x, x == q)%Q l → (Qsum l == inject_Z (Z.of_nat (length l)) * q)%Q.
Proof.
  induction 1 as [|x l Hx _ IH]; simpl.
  - ring.
  - rewrite Nat2Z.inj_succ, <- Z.add_1_l, inject_Z_plus, IH, Hx. ring.
Qed.

Lemma np_mean_const (l : list Q) q :
  l ≠ [] → Forall (λ x, x == q)%Q l → is_num q (np_mean l).
Proof.
  intros Hne Hall. destruct l as [|x l]; [done|].
  eexists. split; [reflexivity|].
  rewrite (Qsum_const _ q Hall).
  assert (0 < inject_Z (Z.of_nat (length (x :: l))))%Q as Hpos
    by (apply inject_nat_pos; simpl; lia).
  field. intros H0. rewrite H0 in Hpos. by apply Qlt_irrefl in Hpos.
Qed.

Lemma prf_divide_same n : n ≠ 0 → (prf_divide n n 0 == 1)%Q.
Proof.
  intros Hn. unfold prf_divide. destruct (Nat.eqb_spec n 0); [done|].
  pose proof (inject_nat_pos n Hn) as Hpos.
  field. intros H0. rewrite H0 in Hpos. by apply Qlt_irrefl in Hpos.
Qed.

Lemma prf_divide_zero den : (prf_divide 0 den 0 == 0)%Q.
Proof.
  unfold prf_divide. destruct (Nat.eqb den 0); [reflexivity|].
  simpl. unfold Qdiv. ring.
Qed.

(** X7.  When the argmax of every logit row is the row's label, whatever the
    number of classes, the accuracy and the macro precision, recall and F1
    are all exactly 1. *)
Theorem compute_metrics_of_perfect_predictions (p : EvalPrediction) :
  label_ids p ≠ [] →
  np_argmax_axis1 (predictions p) = Ok (label_ids p) →
  ∃ m, compute_metrics p = Ok m ∧
       is_num 1 (accuracy m) ∧
       is_num 1 (macro_precision m) ∧
       is_num 1 (macro_recall m) ∧
       is_num 1 (macro_f1 m).
Proof.
  destruct p as [logits labels]. simpl. intros Hne Hpreds.
  unfold compute_metrics. simpl. rewrite Hpreds. simpl.
  unfold precision_recall_fscore_support_macro. rewrite Nat.eqb_refl. simpl.
  eexists. split; [reflexivity|]. simpl.
  assert (∀ c, c ∈ unique_labels labels labels → count_if (Z.eqb c) labels ≠ 0) as Hpos.
  { intros c Hc. apply elem_of_unique_labels in Hc.
    assert (c ∈ labels) as Hin by tauto.
    apply count_if_elem in Hin. lia. }
  pose proof (unique_labels_nonempty labels labels Hne) as Hcls.
  split; [|split; [|split]].
  - apply np_mean_const.
    + destruct labels; [done|]. discriminate.
    + apply Forall_fmap, Forall_forall. intros b Hb. unfold np_eq in Hb.
      apply elem_of_lookup_zip_with in Hb as (i & x & y & -> & Hx & Hy).
      assert (x = y) as -> by congruence. simpl. by rewrite Z.eqb_refl.
  - apply np_mean_const; [by intros ?%fmap_nil_inv|].
    apply Forall_fmap, Forall_forall. intros c Hc. simpl. unfold class_precision.
    rewrite true_positives_diag. apply prf_divide_same. by apply Hpos.
  - apply np_mean_const; [by intros ?%fmap_nil_inv|].
    apply Forall_fmap, Forall_forall. intros c Hc. simpl. unfold class_recall.
    rewrite true_positives_diag. apply prf_divide_same. by apply Hpos.
  - apply np_mean_const; [by intros ?%fmap_nil_inv|].
    apply Forall_fmap, Forall_forall. intros c Hc. simpl. unfold class_f1.
    rewrite true_positives_diag.
    replace (2 * count_if (Z.eqb c) labels)
      with (count_if (Z.eqb c) labels + count_if (Z.eqb c) labels) by lia.
    apply prf_divide_same. specialize (Hpos c Hc). lia.
Qed.

Lemma compute_metrics_perfect_witness :
  ∃ m, compute_metrics {| predictions := [[0; 1]; [3; 2]; [1 # 2; 1]]%Q;
                          label_ids := [1; 0; 1]%Z |} = Ok m ∧
       is_num 1 (accuracy m) ∧
       is_num 1 (macro_precision m) ∧
       is_num 1 (macro_recall m) ∧
       is_num 1 (macro_f1 m).
Proof.
  apply (compute_metrics_of_perfect_predictions
           {| predictions := [[0; 1]; [3; 2]; [1 # 2; 1]]%Q;
              label_ids := [1; 0; 1]%Z |}).
  - discriminate.
  - reflexivity.
Defined.

Lemma Qsum_Permutation (l l' : list Q) : l ≡ₚ l' → (Qsum l == Qsum l')%Q.
Proof.
  induction 1 as [|x l l' _ IH|x y l|l l' l'' _ IH1 _ IH2]; simpl.
  - reflexivity.
  - by rewrite IH.
  - ring.
  - by rewrite IH1.
Qed.

Lemma unique_labels_two (y_true y_pred : list Z) (a b : Z) :
  a ≠ b →
  (∀ c, c ∈ y_true ∨ c ∈ y_pred ↔ c = a ∨ c = b) →
  unique_labels y_true y_pred ≡ₚ [a; b].
Proof.
  intros Hab Hcls. apply NoDup_Permutation.
  - apply NoDup_unique_labels.
  - apply NoDup_cons. split; [by intros ->%list_elem_of_singleton|].
    apply NoDup_singleton.
  - intros c. rewrite elem_of_unique_labels, Hcls.
    rewrite elem_of_cons, list_elem_of_singleton. done.
Qed.

Lemma np_mean_two (f : Z → Q) (u : list Z) (a b : Z) :
  u ≡ₚ [a; b] → is_num ((f a + f b) / 2) (np_mean (f <$> u)).
Proof.
  intros Hu.
  assert (length u = 2) as Hlen by (by rewrite Hu).
  destruct u as [|x [|y [|z u]]]; try discriminate.
  eexists. split; [reflexivity|].
  assert (Qsum (f <$> [x; y]) == Qsum (f <$> [a; b]))%Q as ->
    by (apply Qsum_Permutation; by rewrite Hu).
  simpl. field.
Qed.

Lemma count_if_two (l : list Z) (a b : Z) :
  a ≠ b → Forall (λ z, z = a ∨ z = b) l →
  count_if (Z.eqb a) l + count_if (Z.eqb b) l = length l.
Proof.
  intros Hab. induction 1 as [|z l Hz _ IH]; [done|].
  rewrite !count_if_cons. simpl.
  destruct Hz as [->| ->].
  - rewrite Z.eqb_refl. destruct (Z.eqb_spec b a); [congruence|]. lia.
  - rewrite Z.eqb_refl. destruct (Z.eqb_spec a b); [congruence|]. lia.
Qed.

(** X8.  A model that answers the same class [a] for every example, on labels
    that hold exactly two classes [a] and [b], [k] of the [n] labels being
    [a]: nothing raises and nothing is [nan]; the accuracy is k / n, the
    macro recall is 1/2, the macro precision is k / 2n and the macro F1 is
    k / (n + k), the class that is never predicted counting as 0
    ([zero_division=0]).  Each value is stated as one quotient of two whole
    numbers: the per-class scores are such quotients (the F1 of a class is
    2 tp / (true + predicted)), and averaging one of them with 0 halves
    it. *)
Theorem compute_metrics_of_constant_predictions (p : EvalPrediction) (a b : Z) :
  a ≠ b →
  a ∈ label_ids p →
  b ∈ label_ids p →
  Forall (λ z, z = a ∨ z = b) (label_ids p) →
  np_argmax_axis1 (predictions p) = Ok (replicate (length (label_ids p)) a) →
  let k := count_if (Z.eqb a) (label_ids p) in
  let n := length (label_ids p) in
  ∃ m, compute_metrics p = Ok m ∧
       is_num (ratio k n) (accuracy m) ∧
       is_num (ratio 1 2) (macro_recall m) ∧
       is_num (ratio k (2 * n)) (macro_precision m) ∧
       is_num (ratio k (n + k)) (macro_f1 m).
Proof.
  destruct p as [logits labels]. simpl. intros Hab Ha Hb Hall Hpreds.
  set (n := length labels). set (preds := replicate n a).
  assert (length preds = n) as Hplen by apply length_replicate.
  pose proof (count_if_elem a labels Ha) as Hca.
  pose proof (count_if_elem b labels Hb) as Hcb.
  pose proof (count_if_two labels a b Hab Hall) as Hsum. fold n in Hsum.
  assert (n ≠ 0) as Hn by lia.
  pose proof (inject_nat_pos n Hn) as Hnpos.
  pose proof (inject_nat_pos (count_if (Z.eqb a) labels) ltac:(lia)) as Hapos.
  assert (unique_labels labels preds ≡ₚ [a; b]) as Hu.
  { apply unique_labels_two; [done|]. intros c. split.
    - intros [Hc|Hc].
      + rewrite Forall_forall in Hall. by apply Hall.
      + apply elem_of_replicate in Hc as [-> _]. by left.
    - intros [->| ->]; by left. }
  unfold compute_metrics. simpl. rewrite Hpreds. simpl.
  unfold precision_recall_fscore_support_macro.
  fold n preds. rewrite Hplen, Nat.eqb_refl. simpl.
  eexists. split; [reflexivity|]. simpl.
  assert (Z.eqb b a = false) as Hba by (apply Z.eqb_neq; congruence).
  split; [|split; [|split]].
  - unfold np_mean. destruct (bool_to_Q <$> np_eq preds labels) eqn:Heq.
    { apply (f_equal length) in Heq. unfold np_eq in Heq.
      rewrite length_fmap, length_zip_with, Hplen in Heq. simpl in Heq. lia. }
    rewrite <- Heq. eexists. split; [reflexivity|].
    rewrite Qsum_indicator, length_fmap. unfold np_eq.
    rewrite length_zip_with, Hplen, Nat.min_id.
    unfold preds, n. rewrite matches_replicate. reflexivity.
  - destruct (np_mean_two (class_recall 0 labels preds) _ a b Hu) as (q & -> & Hq).
    eexists. split; [reflexivity|]. rewrite Hq.
    unfold class_recall, preds, n. rewrite !true_positives_replicate.
    rewrite Z.eqb_refl, Hba. rewrite prf_divide_same by lia.
    rewrite prf_divide_zero. reflexivity.
  - destruct (np_mean_two (class_precision 0 labels preds) _ a b Hu) as (q & -> & Hq).
    eexists. split; [reflexivity|]. rewrite Hq.
    unfold class_precision, preds, n. rewrite !true_positives_replicate.
    rewrite !count_if_replicate. rewrite Z.eqb_refl, Hba.
    rewrite prf_divide_zero. unfold prf_divide, ratio.
    destruct (Nat.eqb_spec (length labels) 0); [done|].
    rewrite ?Nat.add_0_r, ?Nat2Z.inj_mul, ?Nat2Z.inj_add, ?inject_Z_mult, ?inject_Z_plus.
    field. unfold n in Hnpos. repeat split; lra.
  - destruct (np_mean_two (class_f1 0 labels preds) _ a b Hu) as (q & -> & Hq).
    eexists. split; [reflexivity|]. rewrite Hq.
    unfold class_f1, preds, n. rewrite !true_positives_replicate.
    rewrite !count_if_replicate. rewrite Z.eqb_refl, Hba.
    rewrite prf_divide_zero. unfold prf_divide, ratio.
    destruct (Nat.eqb_spec (count_if (Z.eqb a) labels + length labels) 0); [lia|].
    rewrite ?Nat.add_0_r, ?Nat2Z.inj_mul, ?Nat2Z.inj_add, ?inject_Z_mult, ?inject_Z_plus.
    fold n. change (inject_Z (Z.of_nat 2)) with 2%Q.
    field. repeat split; lra.
Qed.

Lemma compute_metrics_constant_witness :
  let k := count_if (Z.eqb 0) [0; 1; 0; 0]%Z in
  let n := length [0; 1; 0; 0]%Z in
  ∃ m, compute_metrics {| predictions := [[1; 0]; [1; 0]; [1; 0]; [1; 0]]%Q;
                          label_ids := [0; 1; 0; 0]%Z |} = Ok m ∧
       is_num (ratio k n) (accuracy m) ∧
       is_num (ratio 1 2) (macro_recall m) ∧
       is_num (ratio k (2 * n)) (macro_precision m) ∧
       is_num (ratio k (n + k)) (macro_f1 m).
Proof.
  apply (compute_metrics_of_constant_predictions
           {| predictions := [[1; 0]; [1; 0]; [1; 0]; [1; 0]]%Q;
              label_ids := [0; 1; 0; 0]%Z |} 0 1).
  - discriminate.
  - simpl. set_solver.
  - simpl. set_solver.
  - simpl. repeat (apply Forall_cons_2; [first [by left | by right]|]).
    apply Forall_nil_2.
  - reflexivity.
Defined.

(** ** The predicted class *)

Lemma Qltb_lt (x y : Q) : Qltb x y = true ↔ (x < y)%Q.
Proof.
  unfold Qltb. rewrite negb_true_iff, <- not_true_iff_false, Qle_bool_iff.
  split; [apply Qnot_le_lt | apply Qlt_not_le].
Qed.

Lemma argmax_from_spec (row : list Q) (best : Q) (best_i i : nat) :
  (argmax_from best best_i i row = best_i ∧ Forall (λ y, y <= best)%Q row) ∨
  (∃ k x, argmax_from best best_i i row = i + k ∧ row !! k = Some x ∧
          (best < x)%Q ∧ Forall (λ y, y <= x)%Q row ∧
          Forall (λ y, y < x)%Q (take k row)).
Proof.
  revert best best_i i. induction row as [|x row IH]; intros best best_i i; simpl.
  - left. by split.
  - destruct (Qltb best x) eqn:Hlt.
    + apply Qltb_lt in Hlt. right.
      destruct (IH x i (S i)) as [[-> Hall]|(k & x' & -> & Hk & Hx & Hall & Htake)].
      * exists 0, x. rewrite Nat.add_0_r. repeat split; try done.
        constructor; [apply Qle_refl | done].
      * exists (S k), x'. repeat split; try done.
        -- lia.
        -- by eapply Qlt_trans.
        -- constructor; [by apply Qlt_le_weak | done].
        -- simpl. by constructor.
    + assert (x <= best)%Q as Hle.
      { apply Qnot_lt_le. intros H%Qltb_lt. congruence. }
      destruct (IH best best_i (S i)) as [[-> Hall]|(k & x' & -> & Hk & Hx & Hall & Htake)].
      * left. split; [done|]. by constructor.
      * right. exists (S k), x'. repeat split; try done.
        -- lia.
        -- constructor; [|done]. apply Qlt_le_weak. by eapply Qle_lt_trans.
        -- simpl. constructor; [|done]. by eapply Qle_lt_trans.
Qed.

(** X19.  The class taken as the prediction of a non-empty logit row is the
    position of a largest logit, and every earlier logit is strictly
    smaller: when logits tie, the lowest class index wins. *)
Theorem np_argmax_first_maximum (row : list Q) :
  row ≠ [] →
  ∃ i x, np_argmax row = Ok (Z.of_nat i) ∧ row !! i = Some x ∧
         Forall (λ y, y <= x)%Q row ∧ Forall (λ y, y < x)%Q (take i row).
Proof.
  destruct row as [|x row]; [done|]. intros _. simpl.
  destruct (argmax_from_spec row x 0 1)
    as [[-> Hall]|(k & x' & -> & Hk & Hx & Hall & Htake)].
  - exists 0, x. repeat split; try done.
    constructor; [apply Qle_refl | done].
  - exists (S k), x'. repeat split; try done.
    + constructor; [by apply Qlt_le_weak | done].
    + simpl. by constructor.
Qed.

Lemma np_argmax_first_maximum_witness :
  ∃ i x, np_argmax [1 # 2; 3; 3; 1]%Q = Ok (Z.of_nat i) ∧
         [1 # 2; 3; 3; 1]%Q !! i = Some x ∧
         Forall (λ y, y <= x)%Q [1 # 2; 3; 3; 1]%Q ∧
         Forall (λ y, y < x)%Q (take i [1 # 2; 3; 3; 1]%Q).
Proof.
  apply (np_argmax_first_maximum [1 # 2; 3; 3; 1]%Q). discriminate.
Defined.

(** ** Counting parameters *)

Lemma count_parameters_sums ps t a :
  foldl Counting.count_parameter (t, a) ps
  = ((t + trainable_entries ps)%N, (a + all_entries ps)%N).
Proof.
  revert t a. induction ps as [|[name p] ps IH]; intros t a.
  - unfold trainable_entries, all_entries. cbn [foldl foldr fmap list_fmap filter].
    by rewrite !N.add_0_r.
  - cbn [foldl]. unfold Counting.count_parameter at 2. cbn [snd].
    unfold trainable_entries, all_entries in *. rewrite filter_cons.
    destruct p as [n [|]]; cbn [Counting.requires_grad Counting.numel snd];
      rewrite IH.
    + rewrite decide_True by done. rewrite !fmap_cons. cbn [foldr snd Counting.numel].
      f_equal; lia.
    + rewrite decide_False by done. rewrite !fmap_cons. cbn [foldr snd Counting.numel].
      f_equal; lia.
Qed.

Lemma trainable_le_all ps : (trainable_entries ps ≤ all_entries ps)%N.
Proof.
  unfold trainable_entries, all_entries.
  induction ps as [|[name p] ps IH]; [done|].
  rewrite filter_cons. case_decide; rewrite !fmap_cons; cbn [foldr]; lia.
Qed.

Lemma all_entries_zero ps :
  all_entries ps = 0%N ↔ Forall (λ p, Counting.numel p.2 = 0%N) ps.
Proof.
  unfold all_entries. induction ps as [|[name p] ps IH].
  - split; [constructor | done].
  - rewrite Forall_cons, <- IH, fmap_cons. cbn [foldr snd]. lia.
Qed.

(** X9.  [print_number_of_trainable_model_parameters] raises
    [ZeroDivisionError] exactly when the model has no parameter entry at
    all.  Otherwise it returns its three lines of text: the number of
    entries that take gradients, the number of all entries (which is not
    smaller), and the percentage, which is the double nearest to
    100 * trainable / all printed with two decimals.  The printed
    percentage is rounded: with 199999 of 200000 entries taking gradients
    the text reads 100.00%, and for the model of the notebook's recorded
    output, all of whose 66955010 entries take gradients, it is the
    recorded text. *)
Theorem trainable_parameters_report (ps : list (string * Counting.Tensor)) :
  (match Counting.print_number_of_trainable_model_parameters ps with
   | Raise e =>
       e = ZeroDivisionError "division by zero" ∧
       Forall (λ p, Counting.numel p.2 = 0%N) ps
   | Ok text =>
       Exists (λ p, Counting.numel p.2 ≠ 0%N) ps ∧
       (trainable_entries ps ≤ all_entries ps)%N ∧
       text = "trainable model parameters: " +:+ pretty (trainable_entries ps)
              +:+ Counting.newline +:+ "all model parameters: "
              +:+ pretty (all_entries ps)
              +:+ Counting.newline +:+ "percentage of trainable model parameters: "
              +:+ Counting.format_2f
                    (SpecFloat.SFdiv 53 1024
                       (Counting.operand (100 * trainable_entries ps))
                       (Counting.operand (all_entries ps)))
              +:+ "%"
   end) ∧
  Counting.print_number_of_trainable_model_parameters
    [ ("encoder.weight", {| Counting.numel := 199999; Counting.requires_grad := true |});
      ("encoder.bias", {| Counting.numel := 1; Counting.requires_grad := false |}) ]
  = Ok ("trainable model parameters: 199999" +:+ Counting.newline
        +:+ "all model parameters: 200000" +:+ Counting.newline
        +:+ "percentage of trainable model parameters: 100.00%") ∧
  Counting.print_number_of_trainable_model_parameters
    [ ("distilbert", {| Counting.numel := 66955010; Counting.requires_grad := true |}) ]
  = Ok ("trainable model parameters: 66955010" +:+ Counting.newline
        +:+ "all model parameters: 66955010" +:+ Counting.newline
        +:+ "percentage of trainable model parameters: 100.00%").
Proof.
  split; [|split; vm_compute; reflexivity].
  unfold Counting.print_number_of_trainable_model_parameters.
  rewrite count_parameters_sums. rewrite !N.add_0_l.
  pose proof (trainable_le_all ps) as Hle.
  unfold Counting.true_divide.
  destruct (N.eqb_spec (all_entries ps) 0) as [H0|Hne]; simpl.
  - split; [done|]. by apply all_entries_zero.
  - split; [|done].
    apply not_Forall_Exists; [intros p; apply _|].
    intros Hall. apply Hne, all_entries_zero.
    eapply Forall_impl; [exact Hall|]. simpl. intros p Hp.
    destruct (decide (Counting.numel p.2 = 0%N)); [done|]. by destruct Hp.
Qed.

(** ** Tables with full columns *)

Lemma well_formed_decide (ds : Dataset) :
  bool_decide (map_Forall (λ _ col, length col = num_rows ds) (columns ds)) = true →
  well_formed ds.
Proof. intros H%bool_decide_eq_true c col Hc. by apply (H c col). Qed.

(** ** The split is a partition of the rows *)

Lemma omap_lookup_seq {A} (pre col : list A) :
  omap (λ i, (pre ++ col) !! i) (seq (length pre) (length col)) = col.
Proof.
  revert pre. induction col as [|x col IH]; intros pre; [done|].
  csimpl. rewrite list_lookup_middle by done.
  f_equal. specialize (IH (pre ++ [x])).
  rewrite <- (assoc_L (++)), length_app in IH. simpl in IH.
  by rewrite Nat.add_1_r in IH.
Qed.

Lemma select_all_rows {A} (col : list A) (rows : list nat) :
  rows ≡ₚ seq 0 (length col) → omap (λ i, col !! i) rows ≡ₚ col.
Proof.
  intros ->. pose proof (omap_lookup_seq [] col) as H. simpl in H. by rewrite H.
Qed.

(** X16.  [train_test_split] as both notebooks call it, with a shuffle that is a
    permutation of the row numbers: the rows selected for the test part
    followed by those selected for the train part are the row numbers of
    the table, each once.  So no row is in both parts and none is lost, and
    for a table whose columns are full the two parts of a column together
    hold the entries of that column.  The parts are the selections of
    those rows; a table without rows is handed back as it is for both
    parts, with no row selected. *)
Theorem train_and_test_partition_the_rows
    (perm : Z → nat → list nat) (entropy : Z) (seed : option Z)
    (ds : Dataset) (dd : DatasetDict) :
  perm (default entropy seed) (num_rows ds) ≡ₚ seq 0 (num_rows ds) →
  train_test_split perm entropy (2 # 10) seed ds = Ok dd →
  ∃ train test train_part test_part,
    dd = [("train", train_part); ("test", test_part)] ∧
    (if Nat.eqb (num_rows ds) 0 then train_part = ds ∧ test_part = ds
     else train_part = Dataset_select train ds ∧ test_part = Dataset_select test ds) ∧
    test ++ train ≡ₚ seq 0 (num_rows ds) ∧
    NoDup (test ++ train) ∧
    (well_formed ds →
     ∀ c col, columns ds !! c = Some col →
       ∃ tr te,
         columns train_part !! c = Some tr ∧
         columns test_part !! c = Some te ∧
         te ++ tr ≡ₚ col).
Proof.
  intros Hperm. unfold train_test_split.
  set (n := num_rows ds) in *.
  set (n_test := Z.to_nat (Qceiling ((2 # 10) * inject_Z (Z.of_nat n)))).
  set (p := perm (default entropy seed) n) in *.
  assert (length p = n) as Hlen by (by rewrite Hperm, length_seq).
  destruct (Nat.eqb_spec n 0) as [Hz|Hnz].
  { intros [= <-]. exists [], [], ds, ds. split; [done|]. split; [done|].
    rewrite Hz. split; [done|]. split; [constructor|].
    intros Hwf c col Hc. exists col, col. split; [done|]. split; [done|].
    pose proof (Hwf c col Hc) as Hcol. fold n in Hcol. rewrite Hz in Hcol.
    by apply nil_length_inv in Hcol as ->. }
  assert (Qle_bool (2 # 10) 0 || Qle_bool 1 (2 # 10) = false) as -> by reflexivity.
  destruct (Nat.eqb_spec (n - n_test) 0) as [|Hne]; [done|].
  intros [= <-].
  assert (take n_test p ++ take (n - n_test) (drop n_test p) = p) as Hp.
  { rewrite (take_ge (drop n_test p)) by (rewrite length_drop; lia).
    apply take_drop. }
  eexists _, _, _, _. split; [reflexivity|]. split; [by split|]. rewrite Hp.
  split; [done|]. split; [rewrite Hperm; apply NoDup_seq|].
  intros Hwf c col Hc. simpl. rewrite !lookup_fmap, Hc. simpl.
  eexists _, _. split; [reflexivity|]. split; [reflexivity|].
  rewrite <- omap_app, Hp. apply select_all_rows.
  by rewrite (Hwf c col Hc).
Qed.

Lemma train_and_test_partition_witness :
  ∃ train test train_part test_part,
    sms_split = [("train", train_part); ("test", test_part)] ∧
    (if Nat.eqb (num_rows sms_spam) 0 then train_part = sms_spam ∧ test_part = sms_spam
     else train_part = Dataset_select train sms_spam ∧
          test_part = Dataset_select test sms_spam) ∧
    test ++ train ≡ₚ seq 0 (num_rows sms_spam) ∧
    NoDup (test ++ train) ∧
    (well_formed sms_spam →
     ∀ c col, columns sms_spam !! c = Some col →
       ∃ tr te,
         columns train_part !! c = Some tr ∧
         columns test_part !! c = Some te ∧
         te ++ tr ≡ₚ col).
Proof.
  apply (train_and_test_partition_the_rows
           (rng_permutation recorded_library) 7 (Some 23%Z) sms_spam sms_split).
  - apply NoDup_Permutation.
    + change (NoDup [1; 0; 4; 3; 2]).
      repeat (apply NoDup_cons_2; [rewrite ?elem_of_cons, elem_of_nil; lia|]).
      apply NoDup_nil_2.
    + apply NoDup_seq.
    + intros x.
      change (x ∈ [1; 0; 4; 3; 2] ↔ x ∈ [0; 1; 2; 3; 4]).
      rewrite !elem_of_cons, !elem_of_nil. tauto.
  - vm_compute. reflexivity.
Defined.

(** ** Mapping a tokenizing function over a table *)

Lemma batch_size_default_pos : (0 < batch_size_default)%nat.
Proof. unfold batch_size_default. lia. Qed.

Lemma map_batches_cons fn rc b bs :
  map_batches fn rc (b :: bs)
  = (out ← fn b; rest ← map_batches fn rc bs;
     Ok (concat_columns (out ∪ remove_keys rc b) rest)).
Proof. reflexivity. Qed.

Lemma window_window (j k : nat) (col : list cell) :
  window j 1 col ++ window (S j) k col = window j (S k) col.
Proof.
  unfold window.
  replace (S j * batch_size_default) with (j * batch_size_default + batch_size_default) by lia.
  rewrite <- drop_drop, Nat.mul_1_l, take_take_drop. f_equal.
Qed.

Lemma map_batches_windows fn rc (ds : Dataset) (enc : gmap string (list cell)) :
  ∀ k j,
    (∀ i, (j ≤ i < j + k)%nat →
          fn (Dataset_batch ds (i * batch_size_default)) = Ok (window i 1 <$> enc)) →
    map_batches fn rc
      (Dataset_batch ds <$> ((λ i, i * batch_size_default) <$> seq j k))
    = Ok (match k with
          | 0 => ∅
          | S _ => window j k <$> (enc ∪ remove_keys rc (columns ds))
          end).
Proof.
  induction k as [|k IH]; intros j Hfn; [done|].
  cbn [seq]. rewrite !fmap_cons, map_batches_cons, Hfn, IH by (intros; try apply Hfn; lia).
  change (Ok (concat_columns
                ((window j 1 <$> enc)
                 ∪ remove_keys rc (Dataset_batch ds (j * batch_size_default)))
                match k with
                | 0 => ∅
                | S _ => window (S j) k <$> (enc ∪ remove_keys rc (columns ds))
                end)
          = Ok (window j (S k) <$> (enc ∪ remove_keys rc (columns ds)))).
  f_equal. apply map_eq. intros c.
  unfold concat_columns. rewrite lookup_union_with.
  assert (((window j 1 <$> enc)
           ∪ remove_keys rc (Dataset_batch ds (j * batch_size_default))) !! c
          = window j 1 <$> (enc ∪ remove_keys rc (columns ds)) !! c) as ->.
  { rewrite !lookup_union, !lookup_fmap, !lookup_remove_keys.
    unfold Dataset_batch. rewrite lookup_fmap.
    destruct (enc !! c) as [x|], (bool_decide (c ∈ rc)); simpl; try done;
      destruct (columns ds !! c) as [y|]; simpl; try done.
    all: unfold window; by rewrite Nat.mul_1_l. }
  rewrite lookup_fmap.
  destruct k as [|k].
  - rewrite lookup_empty. by destruct ((enc ∪ remove_keys rc (columns ds)) !! c).
  - rewrite lookup_fmap.
    destruct ((enc ∪ remove_keys rc (columns ds)) !! c) as [col|]; simpl; [|done].
    by rewrite window_window.
Qed.

Lemma batches_cover (n : nat) :
  (n ≤ (n + batch_size_default - 1) / batch_size_default * batch_size_default)%nat.
Proof.
  pose proof batch_size_default_pos as Hpos.
  pose proof (Nat.div_mod (n + batch_size_default - 1) batch_size_default ltac:(lia)) as Hdm.
  pose proof (Nat.mod_upper_bound (n + batch_size_default - 1) batch_size_default ltac:(lia)).
  lia.
Qed.

Lemma batches_within (n i : nat) :
  (i < (n + batch_size_default - 1) / batch_size_default)%nat →
  (i * batch_size_default < n)%nat.
Proof.
  pose proof batch_size_default_pos as Hpos. intros Hi.
  pose proof (Nat.div_mod (n + batch_size_default - 1) batch_size_default ltac:(lia)) as Hdm.
  pose proof (Nat.mod_upper_bound (n + batch_size_default - 1) batch_size_default ltac:(lia)).
  nia.
Qed.

(** A function that treats the rows of a batch one by one can be mapped in
    batches or over the whole table alike. *)
Lemma Dataset_map_rowwise fn rc (ds : Dataset) (enc : gmap string (list cell)) :
  well_formed ds →
  (0 < num_rows ds)%nat →
  Forall (λ c, is_Some (columns ds !! c)) rc →
  (∀ c col, enc !! c = Some col → length col = num_rows ds) →
  (∀ i, (i * batch_size_default < num_rows ds)%nat →
        fn (Dataset_batch ds (i * batch_size_default)) = Ok (window i 1 <$> enc)) →
  Dataset_map fn rc ds
  = Ok {| columns := enc ∪ remove_keys rc (columns ds); num_rows := num_rows ds |}.
Proof.
  intros Hwf Hrows Hrc Henc Hfn. unfold Dataset_map.
  assert (filter (λ c, columns ds !! c = None) rc = []) as ->.
  { induction Hrc as [|c rc [col Hc] _ IH]; [done|].
    rewrite filter_cons, decide_False by (by rewrite Hc). exact IH. }
  destruct (Nat.eqb_spec (num_rows ds) 0) as [|_]; [lia|].
  unfold batch_starts. rewrite (map_batches_windows fn rc ds enc).
  2:{ intros i Hi. apply Hfn, batches_within. lia. }
  pose proof (batches_cover (num_rows ds)) as Hcover.
  destruct ((num_rows ds + batch_size_default - 1) / batch_size_default) as [|k] eqn:Hk;
    [simpl in Hcover; lia|].
  change (Ok {| columns := window 0 (S k) <$> (enc ∪ remove_keys rc (columns ds));
                num_rows := num_rows ds |}
          = Ok {| columns := enc ∪ remove_keys rc (columns ds); num_rows := num_rows ds |}).
  do 2 f_equal. apply map_eq. intros c. rewrite lookup_fmap.
  destruct ((enc ∪ remove_keys rc (columns ds)) !! c) as [col|] eqn:Hc; [|done].
  simpl. f_equal. unfold window. rewrite Nat.mul_0_l, drop_0. apply take_ge.
  assert (length col = num_rows ds) as ->; [|done].
  apply lookup_union_Some_raw in Hc as [Hc|[_ Hc]]; [by eapply Henc|].
  rewrite lookup_remove_keys in Hc. destruct (bool_decide (c ∈ rc)); [done|].
  by eapply Hwf.
Qed.

Lemma window_nonempty {A} (l : list A) (i : nat) :
  (i * batch_size_default < length l)%nat →
  take batch_size_default (drop (i * batch_size_default) l) ≠ [].
Proof.
  intros Hi Hnil. apply (f_equal length) in Hnil.
  rewrite length_take, length_drop in Hnil. unfold batch_size_default in *.
  change (length (@nil A)) with 0 in Hnil. lia.
Qed.

Lemma batch_encode_window tok (texts : list string) max_length (i : nat) :
  encoding_columns
    (batch_encode_plus tok (take batch_size_default (drop (i * batch_size_default) texts))
       true max_length DoNotPad)
  = window i 1 <$> encoding_columns (batch_encode_plus tok texts true max_length DoNotPad).
Proof.
  unfold encoding_columns, batch_encode_plus. cbn [input_ids attention_mask].
  rewrite fmap_insert, map_fmap_singleton. unfold window.
  by rewrite Nat.mul_1_l, !fmap_take, !fmap_drop.
Qed.

Lemma lookup_batch (ds : Dataset) (start : nat) (c : string) :
  Dataset_batch ds start !! c
  = (λ col : list cell, take batch_size_default (drop start col)) <$> columns ds !! c.
Proof. unfold Dataset_batch. by rewrite lookup_fmap. Qed.

Lemma encoding_columns_length (enc : BatchEncoding) (n : nat) c col :
  length (input_ids enc) = n → length (attention_mask enc) = n →
  encoding_columns enc !! c = Some col → length col = n.
Proof.
  intros Hi Hm. unfold encoding_columns.
  intros [[_ <-]|[_ [_ <-]%lookup_singleton_Some]]%lookup_insert_Some;
    by rewrite length_fmap.
Qed.

Lemma batch_encode_rows tok texts truncation max_length :
  length (input_ids (batch_encode_plus tok texts truncation max_length DoNotPad))
  = length texts ∧
  length (attention_mask (batch_encode_plus tok texts truncation max_length DoNotPad))
  = length texts.
Proof. unfold batch_encode_plus. simpl. by rewrite !length_fmap. Qed.

Lemma tokenize_lambda_strings tok (x : gmap string (list cell)) texts :
  x !! "sms" = Some (CStr <$> texts) → texts ≠ [] →
  Abhishek.tokenize_lambda tok x
  = Ok (encoding_columns (batch_encode_plus tok texts true None DoNotPad)).
Proof.
  intros Hx Hne. unfold Abhishek.tokenize_lambda, getitem. rewrite Hx. simpl.
  rewrite texts_of_strings. simpl. by rewrite tokenizer_call_nonempty.
Qed.

(** X5.  The second notebook maps its tokenizing lambda over a split in batches
    of 1000 rows.  On a non-empty table whose columns are full and whose
    "sms" column holds strings, the result is the table with the same
    number of rows, every column kept as it was (the labels among them),
    and two columns added that hold, row for row, the token ids and the
    mask of that row's text: the batching is invisible, because nothing is
    padded when tokenizing. *)
Theorem tokenized_split_keeps_rows_aligned
    (tok : Tokenizer) (ds : Dataset) (texts : list string) :
  well_formed ds →
  (0 < num_rows ds)%nat →
  columns ds !! "sms" = Some (CStr <$> texts) →
  ∃ mapped,
    Dataset_map (Abhishek.tokenize_lambda tok) [] ds = Ok mapped ∧
    num_rows mapped = num_rows ds ∧
    columns mapped !! "input_ids"
    = Some (CIds <$> (encode_one tok true (model_max_length tok) <$> texts)) ∧
    columns mapped !! "attention_mask"
    = Some (CIds <$> ((λ t, replicate
                              (length (encode_one tok true (model_max_length tok) t)) 1%Z)
                        <$> texts)) ∧
    ∀ c, c ≠ "input_ids" → c ≠ "attention_mask" →
         columns mapped !! c = columns ds !! c.
Proof.
  intros Hwf Hrows Hsms.
  pose proof (Hwf _ _ Hsms) as Hlen. rewrite length_fmap in Hlen.
  eexists. split.
  { apply (Dataset_map_rowwise _ [] ds
             (encoding_columns (batch_encode_plus tok texts true None DoNotPad)));
      try done.
    - intros c col Hc.
      destruct (batch_encode_rows tok texts true None) as [Hi Hm].
      eapply encoding_columns_length; [| |exact Hc]; congruence.
    - intros i Hi.
      rewrite (tokenize_lambda_strings tok _
                 (take batch_size_default (drop (i * batch_size_default) texts))).
      + by rewrite batch_encode_window.
      + by rewrite lookup_batch, Hsms, fmap_take, fmap_drop.
      + apply window_nonempty. by rewrite Hlen. }
  simpl. split; [done|]. split; [|split].
  - apply lookup_union_Some_l. unfold encoding_columns. simpl.
    by rewrite lookup_insert_eq.
  - apply lookup_union_Some_l. unfold encoding_columns. simpl.
    rewrite lookup_insert_ne, lookup_singleton_eq by done.
    apply (f_equal Some), (f_equal (fmap CIds)). symmetry.
    exact (list_fmap_compose (encode_one tok true (model_max_length tok))
             (λ r : list Z, replicate (length r) 1%Z) texts).
  - intros c Hc1 Hc2. rewrite lookup_union_r; [done|].
    unfold encoding_columns.
    rewrite lookup_insert_ne, lookup_singleton_ne by done. done.
Qed.

Lemma tokenized_split_witness :
  ∃ mapped,
    Dataset_map (Abhishek.tokenize_lambda char_tokenizer) [] sms_spam = Ok mapped ∧
    num_rows mapped = num_rows sms_spam ∧
    columns mapped !! "input_ids"
    = Some (CIds <$> (encode_one char_tokenizer true (model_max_length char_tokenizer)
                        <$> ["win a prize"; "see you at 5"; "free entry"; "call me"; "ok"])) ∧
    columns mapped !! "attention_mask"
    = Some (CIds <$> ((λ t, replicate
                              (length (encode_one char_tokenizer true
                                         (model_max_length char_tokenizer) t)) 1%Z)
                        <$> ["win a prize"; "see you at 5"; "free entry"; "call me"; "ok"])) ∧
    ∀ c, c ≠ "input_ids" → c ≠ "attention_mask" →
         columns mapped !! c = columns sms_spam !! c.
Proof.
  apply (tokenized_split_keeps_rows_aligned char_tokenizer sms_spam
           ["win a prize"; "see you at 5"; "free entry"; "call me"; "ok"]).
  - apply well_formed_decide. vm_compute. reflexivity.
  - simpl. lia.
  - reflexivity.
Defined.

Lemma tokenize_function_strings tok (examples : gmap string (list cell)) texts :
  examples !! "text" = Some (CStr <$> texts) → texts ≠ [] →
  Part000.tokenize_function tok examples
  = Ok (encoding_columns (batch_encode_plus tok texts true (Some 128) DoNotPad)).
Proof.
  intros Hx Hne. unfold Part000.tokenize_function, getitem. rewrite Hx. simpl.
  rewrite texts_of_strings. simpl. by rewrite tokenizer_call_nonempty.
Qed.

(** X4.  The first notebook asks [map] to remove one column, whose name is the
    whole list "index, date, id, username, text, party".  On a non-empty
    table with full columns that has such a column and a "text" column of
    strings, the mapped table has the same rows, has lost only the column of
    that name, and has gained the token ids and the mask of each row's text:
    the columns "index", "date", "id", "username", "text" and "party"
    themselves, like every other column, are all kept. *)
Theorem tokenized_tweets_keep_the_listed_columns
    (tok : Tokenizer) (ds : Dataset) (texts : list string) :
  well_formed ds →
  (0 < num_rows ds)%nat →
  columns ds !! "text" = Some (CStr <$> texts) →
  is_Some (columns ds !! "index, date, id, username, text, party") →
  ∃ mapped,
    Dataset_map (Part000.tokenize_function tok) Part000.remove_columns ds = Ok mapped ∧
    num_rows mapped = num_rows ds ∧
    columns mapped !! "input_ids" = Some (CIds <$> (encode_one tok true 128 <$> texts)) ∧
    columns mapped !! "index, date, id, username, text, party" = None ∧
    ∀ c, c ≠ "input_ids" → c ≠ "attention_mask" →
         c ≠ "index, date, id, username, text, party" →
         columns mapped !! c = columns ds !! c.
Proof.
  intros Hwf Hrows Htext Hjoined.
  pose proof (Hwf _ _ Htext) as Hlen. rewrite length_fmap in Hlen.
  eexists. split.
  { apply (Dataset_map_rowwise _ Part000.remove_columns ds
             (encoding_columns (batch_encode_plus tok texts true (Some 128) DoNotPad)));
      try done.
    - by repeat constructor.
    - intros c col Hc.
      destruct (batch_encode_rows tok texts true (Some 128)) as [Hi Hm].
      eapply encoding_columns_length; [| |exact Hc]; congruence.
    - intros i Hi.
      rewrite (tokenize_function_strings tok _
                 (take batch_size_default (drop (i * batch_size_default) texts))).
      + by rewrite batch_encode_window.
      + by rewrite lookup_batch, Htext, fmap_take, fmap_drop.
      + apply window_nonempty. by rewrite Hlen. }
  simpl. split; [done|]. split; [|split].
  - apply lookup_union_Some_l. unfold encoding_columns. simpl.
    by rewrite lookup_insert_eq.
  - apply lookup_union_None_2.
    + unfold encoding_columns.
      by rewrite lookup_insert_ne, lookup_singleton_ne by done.
    + apply lookup_delete_eq.
  - intros c Hc1 Hc2 Hc3. rewrite lookup_union_r.
    + by apply lookup_delete_ne.
    + unfold encoding_columns.
      by rewrite lookup_insert_ne, lookup_singleton_ne by done.
Qed.

Lemma tokenized_tweets_witness :
  ∃ mapped,
    Dataset_map (Part000.tokenize_function char_tokenizer) Part000.remove_columns
      mislabelled_tweets = Ok mapped ∧
    num_rows mapped = num_rows mislabelled_tweets ∧
    columns mapped !! "input_ids"
    = Some (CIds <$> (encode_one char_tokenizer true 128
                        <$> ((λ i, if Nat.even i then "dem" else "rep") <$> seq 0 10))) ∧
    columns mapped !! "index, date, id, username, text, party" = None ∧
    ∀ c, c ≠ "input_ids" → c ≠ "attention_mask" →
         c ≠ "index, date, id, username, text, party" →
         columns mapped !! c = columns mislabelled_tweets !! c.
Proof.
  apply (tokenized_tweets_keep_the_listed_columns char_tokenizer mislabelled_tweets
           ((λ i, if Nat.even i then "dem" else "rep") <$> seq 0 10)).
  - apply well_formed_decide. vm_compute. reflexivity.
  - simpl. lia.
  - reflexivity.
  - by eexists.
Defined.

(** ** Splitting small tables *)

(** X17.  [train_test_split] with [test_size=0.2] rounds the test part up to a
    whole row.  A table without rows is handed back as both parts.  On a
    table of one row it raises [ValueError]: the train part would be empty.
    On every table of at least two rows it returns, whatever the seed, and
    with a shuffle of the row numbers both parts hold at least one row. *)
Theorem split_needs_two_rows
    (perm : Z → nat → list nat) (entropy : Z) (seed : option Z) (ds : Dataset) :
  (∀ z n, length (perm z n) = n) →
  match train_test_split perm entropy (2 # 10) seed ds with
  | Ok dd =>
      (num_rows ds = 0 ∧ dd = [("train", ds); ("test", ds)]) ∨
      ((2 ≤ num_rows ds)%nat ∧
       ∃ train test,
         dd = [("train", train); ("test", test)] ∧
         (0 < num_rows train)%nat ∧ (0 < num_rows test)%nat)
  | Raise e =>
      num_rows ds = 1 ∧ e = ValueError "the resulting train set will be empty"
  end.
Proof.
  intros Hperm. unfold train_test_split.
  set (n := num_rows ds).
  set (n_test := Z.to_nat (Qceiling ((2 # 10) * inject_Z (Z.of_nat n)))).
  assert (n ≤ 5 * n_test < n + 5)%nat as Hceil by apply ceiling_fifth.
  destruct (Nat.eqb_spec n 0) as [Hz|Hnz]; [by left|].
  assert (Qle_bool (2 # 10) 0 || Qle_bool 1 (2 # 10) = false) as -> by reflexivity.
  destruct (Nat.eqb_spec (n - n_test) 0) as [Hz|Hnz'].
  - split; [lia | done].
  - right. split; [lia|]. eexists _, _. split; [reflexivity|]. simpl.
    rewrite !length_take, length_drop, !Hperm. lia.
Qed.

Lemma split_needs_two_rows_witness :
  match train_test_split (rng_permutation recorded_library) 7 (2 # 10) (Some 42%Z)
          (Dataset_select [0] political_tweets) with
  | Ok dd =>
      (num_rows (Dataset_select [0] political_tweets) = 0 ∧
       dd = [("train", Dataset_select [0] political_tweets);
             ("test", Dataset_select [0] political_tweets)]) ∨
      ((2 ≤ num_rows (Dataset_select [0] political_tweets))%nat ∧
       ∃ train test,
         dd = [("train", train); ("test", test)] ∧
         (0 < num_rows train)%nat ∧ (0 < num_rows test)%nat)
  | Raise e =>
      num_rows (Dataset_select [0] political_tweets) = 1 ∧
      e = ValueError "the resulting train set will be empty"
  end.
Proof.
  apply (split_needs_two_rows (rng_permutation recorded_library) 7 (Some 42%Z)
           (Dataset_select [0] political_tweets)).
  intros z n. simpl. by rewrite length_rotate, length_reverse, length_seq.
Defined.

(** ** One prediction per example *)

Lemma mapM_result_length {A B} (f : A → result B) (l : list A) (k : list B) :
  mapM_result f l = Ok k → length k = length l.
Proof.
  revert k. induction l as [|x l IH]; intros k; simpl.
  - by intros [= <-].
  - destruct (f x) as [y|e]; simpl; [|done].
    destruct (mapM_result f l) as [rest|e]; simpl; [|done].
    intros [= <-]. simpl. f_equal. by apply IH.
Qed.

Lemma column_length (ds : Dataset) name col :
  well_formed ds → column ds name = Ok col → length col = num_rows ds.
Proof.
  intros Hwf. unfold column. destruct (columns ds !! name) as [c|] eqn:Hc; [|done].
  intros [= <-]. by eapply Hwf.
Qed.

Lemma features_of_length (ds : Dataset) enc :
  well_formed ds → features_of ds = Ok enc →
  length (input_ids enc) = num_rows ds ∧ length (attention_mask enc) = num_rows ds.
Proof.
  intros Hwf. unfold features_of.
  destruct (column ds "input_ids") as [c1|e] eqn:H1; simpl; [|done].
  destruct (mapM_result as_ids c1) as [ids|e] eqn:Hids; simpl; [|done].
  destruct (column ds "attention_mask") as [c2|e] eqn:H2; simpl; [|done].
  destruct (mapM_result as_ids c2) as [mask|e] eqn:Hmask; simpl; [|done].
  intros [= <-]. simpl.
  apply mapM_result_length in Hids, Hmask.
  apply (column_length _ _ _ Hwf) in H1, H2. split; congruence.
Qed.

Lemma labels_of_length (ds : Dataset) l :
  well_formed ds → labels_of ds = Ok (Some l) → length l = num_rows ds.
Proof.
  intros Hwf. unfold labels_of.
  destruct (columns ds !! "label") as [col|] eqn:H1.
  - destruct (mapM_result as_int col) as [k|e] eqn:Hk; simpl; [|done].
    intros [= <-]. apply mapM_result_length in Hk. rewrite Hk. by eapply Hwf.
  - destruct (columns ds !! "labels") as [col|] eqn:H2; [|done].
    destruct (mapM_result as_int col) as [k|e] eqn:Hk; simpl; [|done].
    intros [= <-]. apply mapM_result_length in Hk. rewrite Hk. by eapply Hwf.
Qed.

Lemma batched_rows {B} (f : BatchEncoding → list B) (size : nat) :
  (0 < size)%nat →
  (∀ b, length (input_ids b) = length (attention_mask b) →
        length (f b) = length (input_ids b)) →
  ∀ fuel (ids mask : list (list Z)),
    length ids = length mask → (length ids ≤ fuel)%nat →
    length (mjoin (f <$> zip_with (λ i m, {| input_ids := i; attention_mask := m |})
                          (chunks fuel size ids) (chunks fuel size mask)))
    = length ids.
Proof.
  intros Hsize Hf. induction fuel as [|fuel IH]; intros ids mask Hlen Hfuel.
  - destruct ids; [done | simpl in Hfuel; lia].
  - destruct ids as [|x ids], mask as [|y mask]; try done.
    cbn [chunks]. cbn [zip_with]. rewrite fmap_cons.
    change (mjoin (?a :: ?l)) with (a ++ mjoin l).
    rewrite length_app, Hf, IH.
    + cbn [input_ids]. rewrite length_take, length_drop. lia.
    + by rewrite !length_drop, Hlen.
    + rewrite length_drop. simpl in Hfuel. simpl. lia.
    + cbn [input_ids attention_mask]. by rewrite !length_take, Hlen.
Qed.

Lemma logits_of_collated_batch {W} (lib : Library W) (m : Model W) tok (b : BatchEncoding) :
  length (input_ids b) = length (attention_mask b) →
  length (logits_of_batch lib m (DataCollatorWithPadding tok b)) = length (input_ids b).
Proof.
  intros Hlen. unfold logits_of_batch, DataCollatorWithPadding, pad_encoding. simpl.
  rewrite length_zip_with, !length_fmap. lia.
Qed.

Lemma prediction_loop_row_count {W} (lib : Library W)
    (t : Trainer W) (tok : Tokenizer) (ds : Dataset) (out : PredictionOutput) :
  well_formed ds →
  t_data_collator t = DataCollatorWithPadding tok →
  prediction_loop lib t ds = Ok out →
  length (po_predictions out) = num_rows ds ∧
  ∀ l, po_label_ids out = Some l → length l = num_rows ds.
Proof.
  intros Hwf Hcoll. unfold prediction_loop.
  destruct (t_model t) as [m|]; [|done].
  destruct (features_of ds) as [enc|e] eqn:Henc; simpl; [|done].
  destruct (labels_of ds) as [labels|e] eqn:Hlabels; simpl; [|done].
  destruct (Nat.eqb_spec (per_device_eval_batch_size (t_args t)) 0) as [|Hsize]; [done|].
  destruct (Nat.eqb (num_rows ds) 0); [done|].
  destruct (forallb _ _); simpl; [|done].
  destruct (features_of_length ds enc Hwf Henc) as [Hi Hm].
  assert (length (mjoin ((λ b, logits_of_batch lib m (t_data_collator t b))
                           <$> batches (per_device_eval_batch_size (t_args t)) enc))
          = num_rows ds) as Hrows.
  { unfold batches. rewrite Hcoll, Hm, <- Hi.
    apply batched_rows; [lia| |congruence|done].
    intros b. apply logits_of_collated_batch. }
  destruct (t_compute_metrics t) as [f|], labels as [l|]; simpl.
  - destruct (f _) as [d|e]; simpl; [|done]. intros [= <-]. simpl.
    split; [done|]. intros ? [= <-]. by apply labels_of_length.
  - intros [= <-]. simpl. split; [done|]. done.
  - intros [= <-]. simpl. split; [done|]. intros ? [= <-]. by apply labels_of_length.
  - intros [= <-]. simpl. split; [done|]. done.
Qed.

(** X11.  The prediction loop behind [predict] and [evaluate], with the padding
    collator both notebooks pass: on a table whose columns are full it
    returns a logits array of shape (rows of the table, classes of the
    model), and one label per example when the table has labels, however
    the examples fall into batches. *)
Theorem prediction_loop_one_row_per_example {W} (lib : Library W)
    (t : Trainer W) (m : Model W) (tok : Tokenizer) (ds : Dataset)
    (out : PredictionOutput) :
  well_formed ds →
  t_model t = Some m →
  t_data_collator t = DataCollatorWithPadding tok →
  prediction_loop lib t ds = Ok out →
  length (po_predictions out) = num_rows ds ∧
  Forall (λ row : list Q, length row = num_labels (config m)) (po_predictions out) ∧
  ∀ l, po_label_ids out = Some l → length l = num_rows ds.
Proof.
  intros Hwf Hm Hcoll Hloop.
  destruct (prediction_loop_row_count lib t tok ds out Hwf Hcoll Hloop)
    as [Hrows Hlabels].
  split; [exact Hrows|]. split; [|exact Hlabels].
  by eapply prediction_loop_width.
Qed.

Lemma prediction_loop_rows_witness :
  length (po_predictions sample_output) = num_rows sample_split ∧
  Forall (λ row : list Q, length row = num_labels (config sample_model))
         (po_predictions sample_output) ∧
  ∀ l, po_label_ids sample_output = Some l → length l = num_rows sample_split.
Proof.
  apply (prediction_loop_one_row_per_example recorded_library sample_trainer
           sample_model char_tokenizer sample_split sample_output).
  - apply well_formed_decide. vm_compute. reflexivity.
  - reflexivity.
  - reflexivity.
  - vm_compute. reflexivity.
Defined.

(** X10.  The first notebook's training Trainer hands [compute_metrics] to the
    prediction loop.  On a non-empty table with full columns and a model of
    at least one class, [compute_metrics] is never what makes an evaluation
    fail: the loop raises only what it raises without [compute_metrics], and
    when it returns with labels, the metrics are there and are those of
    [compute_metrics] on the logits and the labels. *)
Theorem evaluation_never_fails_in_compute_metrics {W} (lib : Library W)
    (t : Trainer W) (m : Model W) (tok : Tokenizer) (ds : Dataset) :
  well_formed ds →
  (0 < num_rows ds)%nat →
  t_model t = Some m →
  (0 < num_labels (config m))%nat →
  t_data_collator t = DataCollatorWithPadding tok →
  t_compute_metrics t = Some (λ p, metrics_to_dict <$> compute_metrics p) →
  match prediction_loop lib t ds with
  | Ok out =>
      ∀ labels, po_label_ids out = Some labels →
        ∃ ms, compute_metrics {| predictions := po_predictions out; label_ids := labels |}
              = Ok ms ∧
              po_metrics out = Some (metrics_to_dict ms)
  | Raise e => prediction_loop lib (without_metrics t) ds = Raise e
  end.
Proof.
  intros Hwf Hrows Hm Hn Hcoll Hcm.
  pose proof (prediction_loop_row_count lib (without_metrics t) tok ds) as Hcount.
  pose proof (prediction_loop_width lib (without_metrics t) m ds) as Hwidth.
  unfold prediction_loop in *. simpl in *. rewrite Hm in *. rewrite Hcm.
  destruct (features_of ds) as [enc|e]; simpl in *; [|done].
  destruct (labels_of ds) as [labels|e]; simpl in *; [|done].
  do 2 (destruct (Nat.eqb _ 0); [done|]).
  destruct (negb _); [done|].
  destruct labels as [l|]; simpl in *; [|done].
  set (logits := mjoin _) in *.
  destruct (Hcount _ Hwf Hcoll eq_refl) as [Hrowcount Hlabelcount]. simpl in *.
  specialize (Hwidth _ eq_refl eq_refl). simpl in Hwidth.
  destruct (compute_metrics_total {| predictions := logits; label_ids := l |}) as [ms Hms].
  - simpl. rewrite Hrowcount. symmetry. by apply Hlabelcount.
  - simpl. eapply Forall_impl; [exact Hwidth|]. intros row Hrow ->. simpl in Hrow. lia.
  - rewrite Hms. simpl. intros ? [= <-]. by exists ms.
Qed.

Lemma evaluation_metrics_witness :
  match prediction_loop recorded_library metrics_trainer sample_split with
  | Ok out =>
      ∀ labels, po_label_ids out = Some labels →
        ∃ ms, compute_metrics {| predictions := po_predictions out; label_ids := labels |}
              = Ok ms ∧
              po_metrics out = Some (metrics_to_dict ms)
  | Raise e =>
      prediction_loop recorded_library (without_metrics metrics_trainer) sample_split
      = Raise e
  end.
Proof.
  apply (evaluation_never_fails_in_compute_metrics recorded_library metrics_trainer
           sample_model char_tokenizer sample_split).
  - apply well_formed_decide. vm_compute. reflexivity.
  - simpl. lia.
  - reflexivity.
  - simpl. lia.
  - reflexivity.
  - reflexivity.
Defined.

(** ** The error analysis visits misclassified examples only *)

Lemma differing_from_cons j a x b y :
  differing_from j (a :: x) (b :: y)
  = (if Z.eqb a b then [] else [j]) ++ differing_from (S j) x y.
Proof. unfold differing_from. simpl. by destruct (Z.eqb a b). Qed.

Lemma elem_of_differing_from j x y i :
  i ∈ differing_from j x y ↔
  ∃ k p l, i = j + k ∧ x !! k = Some p ∧ y !! k = Some l ∧ p ≠ l.
Proof.
  revert j y. induction x as [|a x IH]; intros j y.
  - split; [by intros ?%elem_of_nil | by intros (k & p & l & _ & ? & _)].
  - destruct y as [|b y].
    + split; [by intros ?%elem_of_nil | by intros (k & p & l & _ & _ & ? & _)].
    + rewrite differing_from_cons, elem_of_app, IH. split.
      * intros [Hi|(k & p & l & -> & Hp & Hl & Hne)].
        -- destruct (Z.eqb_spec a b) as [|Hab]; [by apply elem_of_nil in Hi|].
           apply list_elem_of_singleton in Hi as ->.
           exists 0, a, b. rewrite Nat.add_0_r. by repeat split.
        -- exists (S k), p, l. repeat split; first [done | lia].
      * intros ([|k] & p & l & -> & Hp & Hl & Hne); simpl in *.
        -- left. simplify_eq. destruct (Z.eqb_spec p l) as [|_]; [done|].
           rewrite Nat.add_0_r. by apply list_elem_of_singleton.
        -- right. exists k, p, l. repeat split; first [done | lia].
Qed.

Lemma differing_from_sorted j x y : StronglySorted lt (differing_from j x y).
Proof.
  revert j y. induction x as [|a x IH]; intros j y; [constructor|].
  destruct y as [|b y]; [constructor|].
  rewrite differing_from_cons. destruct (Z.eqb a b); simpl; [apply IH|].
  constructor; [apply IH|].
  apply Forall_forall. intros i (k & p & l & -> & _)%elem_of_differing_from. lia.
Qed.

(** X3.  On predictions and labels of equal length, [misclassified] lists, in
    increasing order, exactly the positions where they differ; it is empty
    exactly when they are equal (the branch that reports a perfect
    classification); and the at most three positions the loop visits are in
    range of both arrays and hold a prediction that differs from the
    label. *)
Theorem error_analysis_visits_misclassified (test_preds test_labels : list Z) :
  length test_preds = length test_labels →
  let misclassified := np_where_ne test_preds (Some test_labels) in
  (∀ i, i ∈ misclassified ↔
        ∃ p l, test_preds !! i = Some p ∧ test_labels !! i = Some l ∧ p ≠ l) ∧
  StronglySorted lt misclassified ∧
  (misclassified = [] ↔ test_preds = test_labels) ∧
  (length (take 3 misclassified) ≤ 3)%nat ∧
  ∀ idx, idx ∈ take 3 misclassified →
    ∃ p l, Part000.label_at (Some test_preds) idx = Ok p ∧
           Part000.label_at (Some test_labels) idx = Ok l ∧ p ≠ l.
Proof.
  intros Hlen misclassified.
  assert (∀ i, i ∈ misclassified ↔
               ∃ p l, test_preds !! i = Some p ∧ test_labels !! i = Some l ∧ p ≠ l)
    as Hin.
  { intros i. unfold misclassified, np_where_ne. fold (differing_from 0 test_preds test_labels).
    rewrite elem_of_differing_from. split.
    - intros (k & p & l & -> & ?). by exists p, l.
    - intros (p & l & ?). by exists i, p, l. }
  split; [exact Hin|].
  split; [apply (differing_from_sorted 0 test_preds test_labels)|]. split; [|split].
  - split.
    + intros Hnil. apply list_eq_same_length with (length test_preds); [done..|].
      intros i p l _ Hp Hl. destruct (decide (p = l)) as [|Hne]; [done|].
      assert (i ∈ misclassified) as Hi by (apply Hin; by exists p, l).
      rewrite Hnil in Hi. by apply elem_of_nil in Hi.
    + intros Heq. destruct misclassified as [|i rest]; [done|].
      destruct (proj1 (Hin i)) as (p & l & Hp & Hl & Hne); [by left|]. congruence.
  - rewrite length_take. lia.
  - intros idx Hidx%elem_of_take. destruct Hidx as (n & Hidx & _).
    apply list_elem_of_lookup_2 in Hidx. apply Hin in Hidx as (p & l & Hp & Hl & Hne).
    exists p, l. unfold Part000.label_at. by rewrite Hp, Hl.
Qed.

Lemma error_analysis_visits_witness :
  let misclassified := np_where_ne [0; 1; 1; 0; 1]%Z (Some [1; 1; 0; 1; 0]%Z) in
  (∀ i, i ∈ misclassified ↔
        ∃ p l, [0; 1; 1; 0; 1]%Z !! i = Some p ∧
               [1; 1; 0; 1; 0]%Z !! i = Some l ∧ p ≠ l) ∧
  StronglySorted lt misclassified ∧
  (misclassified = [] ↔ [0; 1; 1; 0; 1]%Z = [1; 1; 0; 1; 0]%Z) ∧
  (length (take 3 misclassified) ≤ 3)%nat ∧
  ∀ idx, idx ∈ take 3 misclassified →
    ∃ p l, Part000.label_at (Some [0; 1; 1; 0; 1]%Z) idx = Ok p ∧
           Part000.label_at (Some [1; 1; 0; 1; 0]%Z) idx = Ok l ∧ p ≠ l.
Proof.
  apply (error_analysis_visits_misclassified [0; 1; 1; 0; 1]%Z [1; 1; 0; 1; 0]%Z).
  reflexivity.
Defined.

(** ** [evaluate_model] *)

Lemma wp_result {W A} (m : M W A) (Q : A → Prop) (s : World W) (a : A) :
  wp (λ _ _, True) m Q → (m s).1 = Ok a → Q a.
Proof.
  intros Hm Ha. specialize (Hm s (λ _ _ _, I)).
  destruct (m s) as [[b|e] s']; simpl in *; [|done].
  destruct Hm as [_ Hb]. congruence.
Qed.

(** X1.  [evaluate_model] returns only when the split has labels and exactly two
    distinct values occur among its labels and the predicted classes, as
    many as the two [target_names] it passes to [classification_report]; the
    predicted classes are then class indices of the model.  On a split of
    one class that the model gets entirely right it raises. *)
Theorem evaluate_model_needs_two_classes {W} (lib : Library W)
    (model : Model W) (dataset_split : Dataset) (split_name : string) (s : World W) :
  (Part000.evaluate_model lib model dataset_split split_name s).1 = Ok () →
  ∃ t out labels preds,
    t_model t = Some model ∧
    prediction_loop lib t dataset_split = Ok out ∧
    labels_of dataset_split = Ok (Some labels) ∧
    np_argmax_axis1 (po_predictions out) = Ok preds ∧
    length preds = length (po_predictions out) ∧
    Forall (λ c, (0 ≤ c < Z.of_nat (num_labels (config model)))%Z) preds ∧
    length (unique_labels labels preds) = 2.
Proof.
  match goal with |- _ → ?G => apply (wp_result _ (λ _, G)) end.
  unfold Part000.evaluate_model.
  wp_go.
  match goal with H : prediction_loop _ ?t _ = Ok ?out |- _ =>
    rename H into Hloop; rename t into trainer; rename out into outputs end.
  match goal with H : np_argmax_axis1 _ = Ok ?p |- _ =>
    rename H into Hpreds; rename p into predictions end.
  match goal with H : _ = Ok trainer |- _ => simpl in H; injection H as <- end.
  destruct (po_label_ids outputs) as [labels|] eqn:Hlabels; [|done].
  match goal with H : (if negb (Nat.eqb (length labels) _) then _ else _) = Ok _ |- _ =>
    destruct (Nat.eqb_spec (length labels) (length predictions)) as [Hlen|]; [|done];
    simpl in H;
    destruct (Nat.eqb_spec (length (unique_labels labels predictions)) 2) as [Hcls|]; [|done]
  end.
  match type of Hloop with prediction_loop _ ?t _ = _ =>
    exists t, outputs, labels, predictions end.
  split; [reflexivity|]. split; [exact Hloop|].
  destruct (prediction_loop_labels lib _ _ _ Hloop) as [Hl _]. rewrite Hlabels in Hl.
  split; [exact Hl|]. split; [exact Hpreds|].
  split; [by eapply np_argmax_axis1_length|].
  split; [|exact Hcls].
  eapply np_argmax_axis1_bound; [|exact Hpreds].
  eapply prediction_loop_width; [|exact Hloop]. reflexivity.
Qed.

Lemma evaluate_model_witness :
  ∃ t out labels preds,
    t_model t = Some sample_model ∧
    prediction_loop recorded_library t sample_split = Ok out ∧
    labels_of sample_split = Ok (Some labels) ∧
    np_argmax_axis1 (po_predictions out) = Ok preds ∧
    length preds = length (po_predictions out) ∧
    Forall (λ c, (0 ≤ c < Z.of_nat (num_labels (config sample_model)))%Z) preds ∧
    length (unique_labels labels preds) = 2.
Proof.
  apply (evaluate_model_needs_two_classes recorded_library sample_model sample_split
           "Base Model"
           {| globals := {[ "tokenizer" := VTokenizer char_tokenizer ]};
              disk := []; log := []; at_failure := None |}).
  vm_compute. reflexivity.
Defined.

(** *** What [evaluate_model] leaves alone *)

Section untouched_rules.
Context {W : Type} (lib : Library W) (s0 : World W).
Local Abbreviation Same := (untouched s0).
Local Abbreviation SameE := (λ _ : exn, untouched s0).

Lemma untouched_event (ev : event) (s : World W) :
  untouched s0 s → untouched s0 (record_event ev s).
Proof.
  intros (Hg & Hd & Hl). repeat split; simpl; try done.
  by apply prefix_app_r.
Qed.

Lemma untouched_ret {A} (a : A) : hoare Same (mret a) (λ _, Same) SameE.
Proof. by apply hoare_ret. Qed.

Lemma untouched_raise {A} o e : hoare (A:=A) Same (raise o e) (λ _, Same) SameE.
Proof.
  apply hoare_raise. intros s (Hg & Hd & Hl). repeat split; simpl; try done.
  by apply prefix_app_r.
Qed.

Lemma untouched_call {A} o (r : result A) : hoare Same (call lib o r) (λ _, Same) SameE.
Proof.
  apply hoare_call.
  - intros s e (Hg & Hd & Hl). repeat split; simpl; try done. by apply prefix_app_r.
  - intros s a Hs _. by apply untouched_event.
Qed.

Lemma untouched_read x : hoare Same (read x) (λ _, Same) SameE.
Proof.
  intros s Hs. unfold read. destruct (globals s !! x); [done|].
  by apply (untouched_raise (A:=value W) op_name (NameError x) s).
Qed.

End untouched_rules.

Ltac untouched_prim :=
  idtac;
  lazymatch goal with
  | |- hoare _ (mret _) _ _ => apply untouched_ret
  | |- hoare _ (raise _ _) _ _ => apply untouched_raise
  | |- hoare _ (call _ _ _) _ _ => apply untouched_call
  | |- hoare _ (read _) _ _ => apply untouched_read
  end.

(** X15.  [evaluate_model] only evaluates: whether it returns or raises, the
    notebook's variables and the files on disk are what they were (the
    [trainer] and [eval_args] it builds are local, and no file is written to
    "./pre_fine_tuning_results"), and the record of calls has only grown. *)
Theorem evaluate_model_changes_nothing {W} (lib : Library W)
    (model : Model W) (dataset_split : Dataset) (split_name : string) (s : World W) :
  untouched s (Part000.evaluate_model lib model dataset_split split_name s).2.
Proof.
  assert (hoare (untouched s) (Part000.evaluate_model lib model dataset_split split_name)
            (λ _, untouched s) (λ _, untouched s)) as Hm
    by (repeat hoare_step untouched_prim).
  specialize (Hm s).
  destruct (Part000.evaluate_model lib model dataset_split split_name s) as [[[]|e] s'];
    apply Hm; by repeat split.
Qed.

(** ** The error analysis and the "sms" column *)

Section holds_rules.
Context {W : Type} (lib : Library W) (x : string) (v : value W).

Lemma holds_ret {A} (a : A) : hoare (holds x v) (mret a) (λ _, holds x v) anyhow.
Proof. by apply hoare_ret. Qed.

Lemma holds_raise {A} (P : World W → Prop) o e (Q : A → World W → Prop) :
  hoare P (raise o e) Q anyhow.
Proof. by apply hoare_raise. Qed.

Lemma holds_call {A} o (r : result A) :
  hoare (holds x v) (call lib o r) (λ a s, r = Ok a ∧ holds x v s) anyhow.
Proof. apply hoare_call; [done|]. intros s a Hs Hr. by split. Qed.

Lemma holds_call_kept {A} o (r : result A) :
  hoare (holds x v) (call lib o r) (λ _, holds x v) anyhow.
Proof. by apply hoare_call. Qed.

Lemma holds_read y : hoare (holds x v) (read y) (λ _, holds x v) anyhow.
Proof. intros s Hs. unfold read. by destruct (globals s !! y). Qed.

Lemma holds_read_same :
  hoare (holds x v) (read x) (λ u s, u = v ∧ holds x v s) anyhow.
Proof. intros s Hs. unfold read. rewrite Hs. by split. Qed.

Lemma holds_assign y u :
  x ≠ y → hoare (holds x v) (assign y u) (λ _, holds x v) anyhow.
Proof. intros Hne s Hs. unfold holds. simpl. by rewrite lookup_insert_ne. Qed.

Lemma holds_assign_both y u :
  x ≠ y →
  hoare (holds x v) (assign y u) (λ _ s, holds x v s ∧ holds y u s) anyhow.
Proof.
  intros Hne s Hs. unfold holds. simpl.
  by rewrite lookup_insert_ne, lookup_insert_eq.
Qed.

End holds_rules.

Ltac holds_prim :=
  idtac;
  lazymatch goal with
  | |- hoare _ (mret _) _ _ => apply holds_ret
  | |- hoare _ (raise _ _) _ _ => apply holds_raise
  | |- hoare _ (call _ _ _) _ _ => apply holds_call_kept
  | |- hoare _ (assign _ _) _ _ => apply holds_assign; done
  | |- hoare _ (read _) _ _ => apply holds_read
  end.

Ltac holds_seq :=
  repeat
    lazymatch goal with
    | |- hoare _ (mbind _ (assign "misclassified" _)) _ _ => fail
    | |- hoare _ (mbind _ _) _ _ =>
        eapply hoare_bind; [solve [repeat hoare_step holds_prim] | intros ?]
    end.

Lemma error_case_raises {W} (lib : Library W) (dd : DatasetDict) (test : Dataset)
    test_preds test_labels idx :
  assoc_get dd "test" = Ok test →
  columns test !! "sms" = None →
  hoare (holds "split_dataset" (VDatasetDict dd))
    (Part000.error_case lib test_preds test_labels idx)
    (λ _ _, False) anyhow.
Proof.
  intros Htest Hsms. unfold Part000.error_case.
  eapply hoare_bind; [apply holds_assign; done | intros ?]; cbv beta.
  eapply hoare_bind.
  { eapply hoare_bind; [apply holds_read_same | intros u].
    apply hoare_pure. intros ->. simpl.
    apply (hoare_ret _ dd (λ a s, a = dd ∧ holds "split_dataset" (VDatasetDict dd) s)).
    by split. }
  intros ?. apply hoare_pure. intros ->.
  eapply hoare_bind; [apply holds_call | intros test'].
  apply hoare_pure. rewrite Htest. intros [= <-].
  eapply hoare_bind; [apply holds_call | intros row].
  apply hoare_pure. intros Hrow.
  assert (row !! "sms" = None) as Hnone.
  { unfold Dataset_row in Hrow. destruct (Nat.ltb idx (num_rows test)); [|done].
    injection Hrow as <-. by rewrite lookup_omap, Hsms. }
  eapply hoare_bind; [apply holds_call | intros text].
  apply hoare_pure. unfold getitem. by rewrite Hnone.
Qed.

(** X2.  The error analysis looks the text of a misclassified example up under
    "sms", the column of the other notebook's dataset.  When the test split
    has no such column, the cell can run to its end only if no example is
    misclassified: then [misclassified] is empty and no row is looked
    up. *)
Theorem error_analysis_needs_the_sms_column {W} (lib : Library W)
    (dd : DatasetDict) (test : Dataset) (s : World W) :
  globals s !! "split_dataset" = Some (VDatasetDict dd) →
  assoc_get dd "test" = Ok test →
  columns test !! "sms" = None →
  (Part000.cell_error_analysis lib s).1 = Ok () →
  globals (Part000.cell_error_analysis lib s).2 !! "misclassified" = Some (VArray []).
Proof.
  intros Hs Htest Hsms.
  assert (hoare (holds "split_dataset" (VDatasetDict dd)) (Part000.cell_error_analysis lib)
            (λ _, holds "misclassified" (VArray [])) anyhow) as Hm.
  { unfold Part000.cell_error_analysis. holds_seq.
    eapply hoare_bind; [apply holds_assign_both; done | intros ?]; cbv beta.
    match goal with |- context [np_where_ne ?p ?l] =>
      destruct (np_where_ne p l) as [|i rest] end.
    - simpl. apply hoare_ret. by intros s' [_ Hmis].
    - change (Nat.ltb 0 (length (i :: rest))) with true. cbv iota.
      change (take 3 (i :: rest)) with (i :: take 2 rest). cbn [for_each].
      eapply hoare_bind; [|intros ?; apply hoare_false].
      eapply hoare_weaken; [by eapply error_case_raises| |done].
      by intros s' [Hsplit _]. }
  specialize (Hm s Hs).
  destruct (Part000.cell_error_analysis lib s) as [[[]|e] s']; simpl; [|done].
  intros _. exact Hm.
Qed.

Lemma error_analysis_witness :
  globals (Part000.cell_error_analysis recorded_library analysis_kernel).2
    !! "misclassified" = Some (VArray []).
Proof.
  apply (error_analysis_needs_the_sms_column recorded_library
           [("test", political_tweets)] political_tweets analysis_kernel).
  - reflexivity.
  - reflexivity.
  - vm_compute. reflexivity.
  - vm_compute. reflexivity.
Defined.

(** ** Saving the adapter and loading it back *)

Section known_rules.
Context {W : Type} (lib : Library W).
Implicit Types (g : gmap string (value W)) (d : list (file W)).

Lemma known_ret {A} g d (a : A) :
  hoare (known g d) (mret a) (λ b s, b = a ∧ known g d s) anyhow.
Proof. apply hoare_ret. by split. Qed.

Lemma known_call {A} g d o (r : result A) :
  hoare (known g d) (call lib o r) (λ a s, r = Ok a ∧ known g d s) anyhow.
Proof. apply hoare_call; [done|]. intros s a Hs Hr. by split. Qed.

Lemma known_read g d x v :
  g !! x = Some v →
  hoare (known g d) (read x) (λ u s, u = v ∧ known g d s) anyhow.
Proof.
  intros Hx s [Hg Hd]. unfold read.
  by rewrite (lookup_weaken _ _ _ _ Hx Hg).
Qed.

Lemma known_assign g d y u :
  hoare (known g d) (assign y u) (λ _, known (<[y := u]> g) d) anyhow.
Proof. intros s [Hg Hd]. split; simpl; [by apply insert_mono | done]. Qed.

Lemma known_write g d fs :
  hoare (known g d) (write fs) (λ _, known g (overwrite fs d)) anyhow.
Proof. intros s [Hg Hd]. split; simpl; [done | by rewrite Hd]. Qed.

Lemma known_get_disk g d :
  hoare (known g d) get_disk (λ a s, a = d ∧ known g d s) anyhow.
Proof. intros s [Hg Hd]. by repeat split. Qed.

End known_rules.

(** One step of running a computation from a known state. *)
Ltac known_step facts :=
  first [progress cbv beta iota|
  lazymatch goal with
  | |- hoare (λ s, _ ∧ _) _ _ _ => apply hoare_pure; intros ?; facts; simplify_eq
  | |- hoare _ (mbind _ _) _ _ => eapply hoare_bind; [|intros ?]
  | |- hoare _ (mret _) _ _ => apply known_ret
  | |- hoare _ (raise _ _) _ _ => apply holds_raise
  | |- hoare _ (call _ _ _) _ _ => apply known_call
  | |- hoare _ (assign _ _) _ _ => apply known_assign
  | |- hoare _ (read _) _ _ => apply known_read; by simplify_map_eq
  | |- hoare _ (write _) _ _ => apply known_write
  | |- hoare _ get_disk _ _ => apply known_get_disk
  | |- hoare _ _ _ _ => progress autounfold with notebook
  end].

Lemma find_saved_adapter {W} (path : string) (t : Trainer W) (m : Model W) cfg d :
  peft_config m = Some cfg →
  find_adapter path
    (overwrite [plain (Dir path) TokenizerFiles]
       (overwrite (saved_by_Trainer (Dir path) t m) d))
  = Some (m, cfg).
Proof.
  intros Hcfg. unfold overwrite at 1. cbn [app find_adapter plain payload].
  unfold overwrite, saved_by_Trainer, model_files. cbn [app].
  rewrite filter_cons, decide_True.
  - cbn [find_adapter payload loc kind]. rewrite bool_decide_eq_true_2 by done.
    by rewrite Hcfg.
  - cbn [existsb]. rewrite orb_false_r. apply bool_decide_eq_false_2.
    cbn [kind plain]. by intros [_ ?].
Qed.

(** X12.  Cells 15 and 16 of the first notebook, run one after the other with a
    trainer that holds an adapter model: when they return, [model] is the
    base model's configuration with the merged weights of the adapter the
    trainer has just saved (not of an older file in that directory), and it
    carries no adapter configuration any more. *)
Theorem reloaded_model_is_the_saved_adapter {W} (lib : Library W) (s : World W)
    (t : Trainer W) (m : Model W) (cfg : LoraConfig) (tok : Tokenizer) (base : Model W) :
  globals s !! "trainer" = Some (VTrainer t) →
  globals s !! "tokenizer" = Some (VTokenizer tok) →
  globals s !! "base_model" = Some (VModel base) →
  t_model t = Some m →
  peft_config m = Some cfg →
  ((Part000.cell_save lib ;; Part000.cell_reload lib) s).1 = Ok () →
  globals ((Part000.cell_save lib ;; Part000.cell_reload lib) s).2 !! "model"
  = Some (VModel {| config := config base;
                    weights := merge_adapter lib (load_adapter lib (weights base) (weights m));
                    peft_config := None |}).
Proof.
  intros Htrainer Htok Hbase Hm Hcfg.
  set (g0 := ({[ "trainer" := VTrainer t; "tokenizer" := VTokenizer tok;
                "base_model" := VModel base ]} : gmap string (value W))).
  assert (hoare (known g0 (disk s)) (Part000.cell_save lib ;; Part000.cell_reload lib)
            (λ _ s', globals s' !! "model"
                     = Some (VModel {| config := config base;
                                       weights := merge_adapter lib
                                                    (load_adapter lib (weights base) (weights m));
                                       peft_config := None |}))
            anyhow) as Hrun.
  { unfold Part000.cell_save, Part000.cell_reload.
    repeat known_step
      ltac:(repeat match goal with
                   | H : context [match t_model t with _ => _ end] |- _ =>
                       rewrite Hm in H
                   | H : context [find_adapter] |- _ =>
                       rewrite (find_saved_adapter _ _ _ _ _ Hcfg) in H
                   end).
    eapply hoare_weaken; [apply known_assign|done|].
    intros _ s' [Hg _]. eapply lookup_weaken; [|exact Hg].
    apply lookup_insert_eq. }
  assert (known g0 (disk s) s) as Hs.
  { split; [|done]. unfold g0.
    do 2 (apply insert_subseteq_l; [done|]). by apply map_singleton_subseteq_l. }
  specialize (Hrun s Hs).
  destruct ((Part000.cell_save lib ;; Part000.cell_reload lib) s) as [[[]|e] s']; simpl; [|done].
  intros _. exact Hrun.
Qed.

Lemma reloaded_model_witness :
  globals ((Part000.cell_save recorded_library ;; Part000.cell_reload recorded_library)
             trained_kernel).2 !! "model"
  = Some (VModel {| config := config sample_model;
                    weights := merge_adapter recorded_library
                                 (load_adapter recorded_library (weights sample_model)
                                    (weights adapter_model));
                    peft_config := None |}).
Proof.
  apply (reloaded_model_is_the_saved_adapter recorded_library trained_kernel
           {| t_model := Some adapter_model;
              t_args := Part000.training_args Part000.ADAPTER_PATH;
              t_train_dataset := Some sample_split; t_eval_dataset := Some sample_split;
              t_compute_metrics := None; t_callbacks := [];
              t_data_collator := DataCollatorWithPadding char_tokenizer;
              t_processing_class := Some char_tokenizer |}
           adapter_model Part000.dora_config char_tokenizer sample_model).
  - reflexivity.
  - reflexivity.
  - reflexivity.
  - reflexivity.
  - reflexivity.
  - vm_compute. reflexivity.
Defined.

(** ** What the tokenizing functions need of a batch *)

Lemma encoder_inputs_raises (col : list cell) e :
  encoder_inputs col = Raise e →
  e = not_text_input ∧ ∀ texts, col ≠ CStr <$> texts.
Proof.
  induction col as [|c col IH]; simpl; [done|].
  destruct c as [s| |]; simpl.
  - destruct (encoder_inputs col) as [rest|e'] eqn:Hrest; simpl; [done|].
    intros [= <-]. destruct (IH eq_refl) as [-> Hne]. split; [done|].
    intros [|t texts]; [done|]. csimpl. intros [= _ Hcol]. by eapply Hne.
  - intros [= <-]. split; [done|]. by intros [|t texts].
  - intros [= <-]. split; [done|]. by intros [|t texts].
Qed.

Lemma tokenizer_on_column tok max_length (col : list cell) :
  tokenized_column tok max_length col
    (texts ← texts_of col;
     encoding ← tokenizer_call tok texts true max_length DoNotPad;
     Ok (encoding_columns encoding)).
Proof.
  destruct col as [|c col]; [done|]. unfold tokenized_column.
  set (l := c :: col). assert (l ≠ []) as Hne by done. clearbody l.
  split; [|split].
  - intros out. split.
    + destruct (texts_of l) as [texts|e] eqn:Htexts; simpl; [|done].
      destruct (tokenizer_call _ _ _ _ _) as [enc|e] eqn:Henc; simpl; [|done].
      intros [= <-]. apply tokenizer_call_inv in Henc as [_ ->].
      exists texts. by rewrite (texts_of_inv _ _ Htexts).
    + intros (texts & -> & ->). rewrite texts_of_strings. simpl.
      rewrite tokenizer_call_nonempty; [done|]. by destruct texts.
  - intros Hvalid. unfold texts_of. by rewrite Hvalid.
  - intros Hvalid Hstr. unfold texts_of. rewrite Hvalid.
    destruct (encoder_inputs l) as [texts|e] eqn:Htexts; simpl.
    + by apply encoder_inputs_inv, Hstr in Htexts.
    + by apply encoder_inputs_raises in Htexts as [-> _].
Qed.

(** X18.  Each tokenizing function reads one column of the batch it is given,
    "text" in the first notebook and "sms" in the second.  Without that
    column it raises [KeyError] with the column's name.  With it, it does
    what [tokenized_column] says, cutting at 128 tokens in the first
    notebook and at the tokenizer's maximum in the second: it returns
    exactly when the column is a non-empty list of strings, and then
    returns the two columns of the tokenizer's encoding of those strings
    and nothing else; on an empty column it raises [IndexError], and on a
    column that is not all strings [ValueError] or [TypeError]. *)
Theorem tokenizing_functions_need_their_column
    (tok : Tokenizer) (batch : gmap string (list cell)) :
  (match batch !! "text" with
   | None => Part000.tokenize_function tok batch = Raise (KeyError "text")
   | Some col => tokenized_column tok (Some 128) col (Part000.tokenize_function tok batch)
   end) ∧
  (match batch !! "sms" with
   | None => Abhishek.tokenize_lambda tok batch = Raise (KeyError "sms")
   | Some col => tokenized_column tok None col (Abhishek.tokenize_lambda tok batch)
   end).
Proof.
  split.
  - unfold Part000.tokenize_function, getitem.
    destruct (batch !! "text") as [col|]; [|done]. apply tokenizer_on_column.
  - unfold Abhishek.tokenize_lambda, getitem.
    destruct (batch !! "sms") as [col|]; [|done]. apply tokenizer_on_column.
Qed.

(** On a batch without rows, on one whose texts are numbers and on one with
    a number after a text. *)
Example tokenizing_functions_raise :
  Abhishek.tokenize_lambda char_tokenizer {[ "sms" := [] ]}
  = Raise (IndexError "list index out of range") ∧
  Abhishek.tokenize_lambda char_tokenizer {[ "sms" := [CInt 1] ]}
  = Raise (ValueError "text input must be of type str") ∧
  Part000.tokenize_function char_tokenizer {[ "text" := [CStr "a"; CInt 1] ]}
  = Raise not_text_input.
Proof. repeat split. Qed.

(** ** Where the notebooks write *)

(** X13.  A run of the first notebook from a fresh kernel, however far it gets
    and under every behaviour of the libraries, leaves files only in
    site-packages, in the hub cache, in checkpoint directories under
    "./modernbert-political-dora-best" and in
    "./modernbert-political-dora-final".  No file is written to
    "./pre_fine_tuning_results", the [output_dir] of the evaluation
    trainers. *)
Theorem part000_writes_only_to_its_directories {W} (lib : Library W) :
  placed part000_place (Part000.notebook lib fresh_kernel).2 ∧
  ∀ f, f ∈ disk (Part000.notebook lib fresh_kernel).2 →
       loc f ≠ Dir "./pre_fine_tuning_results" ∧
       ∀ k, loc f ≠ Checkpoint "./pre_fine_tuning_results" k.
Proof.
  assert (placed part000_place (Part000.notebook lib fresh_kernel).2) as Hplaced.
  { apply changed_from_nil_placed. exact (wpd_run _ _ _ _ _ (Part000_placed lib [])). }
  split; [exact Hplaced|]. intros f Hf.
  unfold placed in Hplaced. rewrite Forall_forall in Hplaced.
  specialize (Hplaced f Hf). split; [|intros k]; intros Hloc; by rewrite Hloc in Hplaced.
Qed.

(** X14.  A run of the second notebook from a fresh kernel, however far it gets
    and under every behaviour of the libraries, leaves files only in
    site-packages, in the hub cache and in checkpoint directories under
    "./result-distilbert-lora": no model is ever saved to a directory of
    its own, since the only call that would do it is
    [peft_model.save_pretrained(None)]. *)
Theorem abhishek_writes_only_checkpoints {W} (lib : Library W) :
  placed abhishek_place (Abhishek.notebook lib fresh_kernel).2 ∧
  ∀ f path, f ∈ disk (Abhishek.notebook lib fresh_kernel).2 → loc f ≠ Dir path.
Proof.
  assert (placed abhishek_place (Abhishek.notebook lib fresh_kernel).2) as Hplaced.
  { apply changed_from_nil_placed. exact (wpd_run _ _ _ _ _ (Abhishek_placed lib [])). }
  split; [exact Hplaced|]. intros f path Hf Hloc.
  unfold placed in Hplaced. rewrite Forall_forall in Hplaced.
  specialize (Hplaced f Hf). by rewrite Hloc in Hplaced.
Qed.

(** ** The data of the evaluations is bound once *)

(** X20.  In the first notebook the cells after the tokenization (from the DoRA
    configuration to the error analysis) never rebind [tokenized_dataset],
    [split_dataset] or [tokenizer]: whatever these hold when those cells
    start, they hold when the cells have run or have raised.  So the
    evaluations before and after fine-tuning read the same test split and
    the same tokenizer. *)
Theorem part000_evaluation_data_is_bound_once {W} (lib : Library W)
    (x : string) (v : value W) (s : World W) :
  x ∈ ["tokenized_dataset"; "split_dataset"; "tokenizer"] →
  globals s !! x = Some v →
  globals (for_each (drop 7 (Part000.cells lib)) (λ c, c) s).2 !! x = Some v.
Proof.
  intros Hx Hs. apply (hoare_run (λ s, globals s !! x = Some v)); [|exact Hs].
  apply hoare_for_each. unfold Part000.cells. cbn [drop].
  repeat apply Forall_cons_2; try apply Forall_nil_2.
  all: apply elem_of_cons in Hx as [->|Hx];
    [|apply elem_of_cons in Hx as [->|Hx];
      [|apply list_elem_of_singleton in Hx as ->]].
  all: kept.
Qed.

Lemma part000_bound_once_witness :
  globals (for_each (drop 7 (Part000.cells recorded_library)) (λ c, c) analysis_kernel).2
    !! "tokenized_dataset" = Some (VDatasetDict [("test", sample_split)]).
Proof.
  apply (part000_evaluation_data_is_bound_once recorded_library "tokenized_dataset"
           (VDatasetDict [("test", sample_split)]) analysis_kernel).
  - by left.
  - reflexivity.
Defined.

(** X21.  In the second notebook the cells after the tokenization (from loading
    the model to the last evaluation) never rebind [tokenized_dataset],
    [dataset] or [tokenizer]. *)
Theorem abhishek_evaluation_data_is_bound_once {W} (lib : Library W)
    (x : string) (v : value W) (s : World W) :
  x ∈ ["tokenized_dataset"; "dataset"; "tokenizer"] →
  globals s !! x = Some v →
  globals (for_each (drop 4 (Abhishek.cells lib)) (λ c, c) s).2 !! x = Some v.
Proof.
  intros Hx Hs. apply (hoare_run (λ s, globals s !! x = Some v)); [|exact Hs].
  by apply Abhishek_tail_keeps.
Qed.

Lemma abhishek_bound_once_witness :
  globals (for_each (drop 4 (Abhishek.cells recorded_library)) (λ c, c) analysis_kernel).2
    !! "tokenized_dataset" = Some (VDatasetDict [("test", sample_split)]).
Proof.
  apply (abhishek_evaluation_data_is_bound_once recorded_library "tokenized_dataset"
           (VDatasetDict [("test", sample_split)]) analysis_kernel).
  - by left.
  - reflexivity.
Defined.

(** ** The error cases and the accuracy *)

Lemma differing_from_matches j (x y : list Z) :
  length x = length y →
  length (differing_from j x y)
  + count_if (λ p : Z * Z, Z.eqb p.1 p.2) (zip x y) = length x.
Proof.
  revert j y. induction x as [|a x IH]; intros j [|b y] Hlen; try done.
  rewrite differing_from_cons, length_app. simpl zip. rewrite count_if_cons.
  simpl in *.
  specialize (IH (S j) y ltac:(lia)).
  destruct (Z.eqb a b); simpl; lia.
Qed.

(** X22.  The error analysis and [compute_metrics] agree on the same
    predictions: with one non-empty logit row per label, the positions the
    analysis collects as misclassified are exactly the examples the
    accuracy counts as wrong.  With [n] examples of which [m] are
    misclassified, [m] is at most [n] and the accuracy is the one quotient
    (n - m) / n of those two counts. *)
Theorem misclassified_count_matches_accuracy (p : EvalPrediction) (test_preds : list Z) :
  label_ids p ≠ [] →
  length (predictions p) = length (label_ids p) →
  np_argmax_axis1 (predictions p) = Ok test_preds →
  let misclassified := np_where_ne test_preds (Some (label_ids p)) in
  (length misclassified ≤ length (label_ids p))%nat ∧
  ∃ m, compute_metrics p = Ok m ∧
       is_num (ratio (length (label_ids p) - length misclassified)
                     (length (label_ids p)))
              (accuracy m).
Proof.
  destruct p as [logits labels]. simpl. intros Hne Hlen Hpreds.
  pose proof (np_argmax_axis1_length _ _ Hpreds) as Hplen.
  assert (length test_preds = length labels) as Hpl by congruence.
  fold (differing_from 0 test_preds labels).
  pose proof (differing_from_matches 0 test_preds labels Hpl) as Hsum.
  split; [lia|].
  unfold compute_metrics. simpl. rewrite Hpreds. simpl.
  unfold precision_recall_fscore_support_macro.
  rewrite <- Hpl, Nat.eqb_refl. simpl.
  eexists. split; [reflexivity|]. simpl.
  assert (length test_preds ≠ 0) as Hn.
  { rewrite Hpl. by destruct labels. }
  unfold np_mean. destruct (bool_to_Q <$> np_eq test_preds labels) eqn:Heq.
  { apply (f_equal length) in Heq. unfold np_eq in Heq.
    rewrite length_fmap, length_zip_with in Heq. simpl in Heq. lia. }
  rewrite <- Heq. eexists. split; [reflexivity|].
  rewrite Qsum_indicator, length_fmap. unfold np_eq.
  rewrite length_zip_with, <- Hpl, Nat.min_id. unfold ratio.
  replace (length test_preds - length (differing_from 0 test_preds labels))
    with (count_if (λ p : Z * Z, Z.eqb p.1 p.2) (zip test_preds labels)) by lia.
  reflexivity.
Qed.

Lemma misclassified_count_witness :
  let p := {| predictions := [[0; 1]; [3; 2]; [1 # 2; 1]; [2; 1]]%Q;
              label_ids := [1; 0; 0; 1]%Z |} in
  let misclassified := np_where_ne [1; 0; 1; 0]%Z (Some (label_ids p)) in
  (length misclassified ≤ length (label_ids p))%nat ∧
  ∃ m, compute_metrics p = Ok m ∧
       is_num (ratio (length (label_ids p) - length misclassified)
                     (length (label_ids p)))
              (accuracy m).
Proof.
  apply (misclassified_count_matches_accuracy
           {| predictions := [[0; 1]; [3; 2]; [1 # 2; 1]; [2; 1]]%Q;
              label_ids := [1; 0; 0; 1]%Z |} [1; 0; 1; 0]%Z).
  - discriminate.
  - reflexivity.
  - reflexivity.
Defined.

